(** * ddsrt threads (POSIX back end): a shallow embedding

    The development follows [src/ddsrt/src/threads.c] and
    [src/ddsrt/src/threads/posix/threads.c].  C integers are [Z], pointers
    are [Z] with [NULL = 0], and every call into the operating system or
    the allocator takes the answer of the environment as an explicit
    argument, so that the functions stay executable.  The conditional
    compilation of the C file is kept as a [build] record that holds the
    value of the preprocessor symbols the code tests. *)

From Stdlib Require Import ZArith Lia Bool List String Ascii.
From stdpp Require Import base option list gmap strings.

Local Open Scope Z_scope.

(** ** Return codes *)

(** [dds_return_t] is a 32-bit signed integer; the constants come from
    [dds/ddsrt/retcode.h] (not among the sources).  The development relies
    on [DDS_RETCODE_OK = 0] and on the error codes being negative and
    pairwise distinct, nothing else. *)
Definition dds_return_t := Z.

Definition DDS_RETCODE_OK : dds_return_t := 0.
Definition DDS_RETCODE_ERROR : dds_return_t := -1.
Definition DDS_RETCODE_UNSUPPORTED : dds_return_t := -2.
Definition DDS_RETCODE_OUT_OF_RESOURCES : dds_return_t := -5.
Definition DDS_XRETCODE (x : Z) : dds_return_t := -50 - x.
Definition DDS_RETCODE_NOT_ENOUGH_SPACE : dds_return_t := DDS_XRETCODE 8.
Definition DDS_RETCODE_NOT_FOUND : dds_return_t := DDS_XRETCODE 10.

Definition NULL : Z := 0.

(** ** Build configuration *)

(** The preprocessor symbols tested by [posix/threads.c]. *)
Record build := {
  ZEPHYR : bool;                      (* defined(__ZEPHYR__) *)
  VXWORKS : bool;                     (* defined(__VXWORKS__) *)
  LINUX_GLIBC : bool;                 (* defined(__linux) && defined(__GLIBC__) *)
  PTHREAD_STACK_MIN : option Z;       (* None when the macro is not defined *)
  CPU_SETSIZE : Z;
  CYCLONEDDS_THREAD_COUNT : Z;        (* Zephyr only *)
  CYCLONEDDS_THREAD_STACK_SIZE : Z;   (* Zephyr only *)
  CONFIG_MAX_PTHREAD_COUNT : Z;       (* Zephyr only *)
  SCHED_FIFO : Z;
  SCHED_OTHER : Z;
  SIGXCPU : Z;
  NSIG : Z;                           (* signals are numbered 1 .. NSIG *)
  WORD_BITS : Z;                      (* width of long, size_t and uintptr_t *)
  VXWORKS_RTP : bool                  (* defined(__VXWORKS__) && !defined(_WRS_KERNEL) *)
}.

(** glibc on x86-64 Linux. *)
Definition linux_build : build := {|
  ZEPHYR := false; VXWORKS := false; LINUX_GLIBC := true;
  PTHREAD_STACK_MIN := Some 16384; CPU_SETSIZE := 1024;
  CYCLONEDDS_THREAD_COUNT := 10; CYCLONEDDS_THREAD_STACK_SIZE := 32768;
  CONFIG_MAX_PTHREAD_COUNT := 0;
  SCHED_FIFO := 1; SCHED_OTHER := 0; SIGXCPU := 24; NSIG := 64;
  WORD_BITS := 64; VXWORKS_RTP := false |}.

(** Zephyr with its POSIX layer; [CYCLONEDDS_THREAD_COUNT] and
    [CYCLONEDDS_THREAD_STACK_SIZE] have the defaults of the C file. *)
Definition zephyr_build : build := {|
  ZEPHYR := true; VXWORKS := false; LINUX_GLIBC := false;
  PTHREAD_STACK_MIN := None; CPU_SETSIZE := 0;
  CYCLONEDDS_THREAD_COUNT := 10; CYCLONEDDS_THREAD_STACK_SIZE := 32768;
  CONFIG_MAX_PTHREAD_COUNT := 16;
  SCHED_FIFO := 1; SCHED_OTHER := 0; SIGXCPU := 24; NSIG := 64;
  WORD_BITS := 32; VXWORKS_RTP := false |}.

(** QNX Neutrino, 64 bit. *)
Definition qnx_build : build := {|
  ZEPHYR := false; VXWORKS := false; LINUX_GLIBC := false;
  PTHREAD_STACK_MIN := Some 256; CPU_SETSIZE := 0;
  CYCLONEDDS_THREAD_COUNT := 10; CYCLONEDDS_THREAD_STACK_SIZE := 32768;
  CONFIG_MAX_PTHREAD_COUNT := 0;
  SCHED_FIFO := 1; SCHED_OTHER := 3; SIGXCPU := 24; NSIG := 64;
  WORD_BITS := 64; VXWORKS_RTP := false |}.

(** macOS on a 64-bit machine. *)
Definition macos_build : build := {|
  ZEPHYR := false; VXWORKS := false; LINUX_GLIBC := false;
  PTHREAD_STACK_MIN := Some 8192; CPU_SETSIZE := 0;
  CYCLONEDDS_THREAD_COUNT := 10; CYCLONEDDS_THREAD_STACK_SIZE := 32768;
  CONFIG_MAX_PTHREAD_COUNT := 0;
  SCHED_FIFO := 4; SCHED_OTHER := 1; SIGXCPU := 24; NSIG := 32;
  WORD_BITS := 64; VXWORKS_RTP := false |}.

(** ** Cleanup stack *)

Module Cleanup.

(** [thread_cleanup_t] of [threads_priv.h]: the fields the C file uses. *)
Record thread_cleanup_t := {
  prev : Z;
  routine : Z;      (* address of a function from void pointer to void *)
  arg : Z           (* the void pointer handed to it *)
}.

(** What the calling thread can observe of the cleanup machinery. *)
Record state := {
  self : Z;                          (* pthread_self () *)
  heap : gmap Z thread_cleanup_t;    (* live records, by address *)
  specific : Z;                      (* value of thread_cleanup_key for this thread *)
  key_created : bool;                (* thread_once has fired *)
  invoked : list (Z * Z)             (* calls routine(arg), oldest first *)
}.

Definition set_heap (h : gmap Z thread_cleanup_t) (st : state) : state :=
  {| self := self st; heap := h; specific := specific st;
     key_created := key_created st; invoked := invoked st |}.

Definition set_specific (v : Z) (st : state) : state :=
  {| self := self st; heap := heap st; specific := v;
     key_created := key_created st; invoked := invoked st |}.

(** [thread_init_once], reached through [pthread_once]: the key is created
    on the first call, later calls change nothing.  The C code asserts
    that [pthread_key_create] succeeds. *)
Definition thread_init (st : state) : state :=
  {| self := self st; heap := heap st; specific := specific st;
     key_created := true; invoked := invoked st |}.

Definition pthread_getspecific (st : state) : Z := specific st.

(** POSIX: [pthread_setspecific] can fail with [ENOMEM] when there is no
    memory to associate a non-NULL value with the key; [err] is the answer
    of the environment for that case.  The value is stored only when the
    call returns 0. *)
Definition pthread_setspecific (err : Z) (v : Z) (st : state) : Z * state :=
  if (v =? NULL) || (err =? 0) then (0, set_specific v st) else (err, st).

(** [tail->routine(tail->arg)]: the call is recorded; the routine itself is
    opaque and is assumed not to touch the cleanup stack. *)
Definition call_routine (r : thread_cleanup_t) (st : state) : state :=
  {| self := self st; heap := heap st; specific := specific st;
     key_created := key_created st;
     invoked := (invoked st ++ [(routine r, arg r)])%list |}.

Definition ddsrt_free (p : Z) (st : state) : state :=
  set_heap (delete p (heap st)) st.

(** [pthread_self() >= CONFIG_MAX_PTHREAD_COUNT], tested on Zephyr only. *)
Definition not_a_pthread (b : build) (st : state) : bool :=
  ZEPHYR b && (CONFIG_MAX_PTHREAD_COUNT b <=? self st).

(** [ddsrt_thread_cleanup_push].  [alloc] is what [ddsrt_calloc] returns
    (NULL on failure), [seterr] what [pthread_setspecific] answers.  The
    C code asserts that the routine is not NULL and that
    [pthread_setspecific] does not answer EINVAL. *)
Definition ddsrt_thread_cleanup_push
    (b : build) (alloc seterr : Z) (routine_ arg_ : Z) (st : state)
  : dds_return_t * state :=
  if not_a_pthread b st then (DDS_RETCODE_UNSUPPORTED, st) else
  let st := thread_init st in
  let tail := alloc in
  if negb (tail =? NULL) then
    let prev_ := pthread_getspecific st in
    let st := set_heap (<[tail := {| prev := prev_; routine := routine_; arg := arg_ |}]> (heap st)) st in
    let '(err, st) := pthread_setspecific seterr tail st in
    if negb (err =? 0) then
      (DDS_RETCODE_OUT_OF_RESOURCES, ddsrt_free tail st)
    else (DDS_RETCODE_OK, st)
  else (DDS_RETCODE_OUT_OF_RESOURCES, st).

(** [ddsrt_thread_cleanup_pop].  [None] stands for undefined behaviour:
    the head of the stack points to no live record. *)
Definition ddsrt_thread_cleanup_pop
    (b : build) (seterr : Z) (execute : Z) (st : state)
  : option (dds_return_t * state) :=
  if not_a_pthread b st then Some (DDS_RETCODE_UNSUPPORTED, st) else
  let st := thread_init st in
  let tail := pthread_getspecific st in
  if negb (tail =? NULL) then
    r ← heap st !! tail;
    let '(err, st) := pthread_setspecific seterr (prev r) st in
    if negb (err =? 0) then Some (DDS_RETCODE_OUT_OF_RESOURCES, st)
    else
      let st := if negb (execute =? 0) then call_routine r st else st in
      Some (DDS_RETCODE_OK, ddsrt_free tail st)
  else Some (DDS_RETCODE_OK, st).

(** The [while (tail != NULL)] loop of [thread_cleanup_fini].  Every
    iteration frees one live record, so [fuel] iterations suffice when
    [fuel] is the number of live records.  [None] stands for undefined
    behaviour, as in [ddsrt_thread_cleanup_pop]. *)
Fixpoint thread_cleanup_fini_loop (fuel : nat) (tail : Z) (st : state)
  : option state :=
  if tail =? NULL then Some st else
  r ← heap st !! tail;
  match fuel with
  | O => None
  | S fuel' =>
      let prev_ := prev r in
      let st := call_routine r st in
      let st := ddsrt_free tail st in
      thread_cleanup_fini_loop fuel' prev_ st
  end.

Definition thread_cleanup_fini (arg_ : Z) (st : state) : option state :=
  thread_cleanup_fini_loop (size (heap st)) arg_ st.

Definition ddsrt_thread_init (reason : Z) (st : state) : state :=
  thread_init st.

(** [ddsrt_thread_fini]; the result of the final [pthread_setspecific] is
    discarded by the C code. *)
Definition ddsrt_thread_fini (reason : Z) (st : state) : option state :=
  let st := thread_init st in
  let tail := pthread_getspecific st in
  if negb (tail =? NULL) then
    st ← thread_cleanup_fini tail st;
    Some (snd (pthread_setspecific 0 NULL st))
  else Some st.

(** What the threads library does with [thread_cleanup_key] when the
    thread terminates: a non-NULL value is replaced by NULL and handed to
    the destructor registered by [thread_init_once], as the comment that
    closes [thread_cleanup_fini] recalls. *)
Definition thread_exit (st : state) : option state :=
  if key_created st && negb (specific st =? NULL) then
    thread_cleanup_fini (specific st) (set_specific NULL st)
  else Some st.

(** The records of the stack, most recent first: [stack h p l] holds when
    following [prev] from [p] in [h] visits exactly the records [l], each
    at its own address, and ends at NULL. *)
Fixpoint stack (h : gmap Z thread_cleanup_t) (p : Z)
    (l : list (Z * thread_cleanup_t)) : Prop :=
  match l with
  | [] => p = NULL
  | (a, r) :: l' =>
      p = a ∧ a ≠ NULL ∧ h !! a = Some r ∧ stack (delete a h) (prev r) l'
  end.

(** The calls an unwinding of [l] makes, in order. *)
Definition calls (l : list (Z * thread_cleanup_t)) : list (Z * Z) :=
  map (λ ar, (routine ar.2, arg ar.2)) l.

(** The heap once the records of [l] are released. *)
Definition released (l : list (Z * thread_cleanup_t))
    (h : gmap Z thread_cleanup_t) : gmap Z thread_cleanup_t :=
  fold_left (λ h ar, delete ar.1 h) l h.

(** Sample states: a thread that has pushed nothing yet, and one that has
    pushed routine 700 with argument 7 and then routine 800 with
    argument 8. *)
Definition fresh_thread : state :=
  {| self := 1; heap := ∅; specific := NULL; key_created := false; invoked := [] |}.

Definition record_A : thread_cleanup_t :=
  {| prev := NULL; routine := 700; arg := 7 |}.
Definition record_B : thread_cleanup_t :=
  {| prev := 4096; routine := 800; arg := 8 |}.

Definition thread_with_two_records : state :=
  {| self := 1; heap := <[8192 := record_B]> (<[4096 := record_A]> ∅);
     specific := 8192; key_created := true; invoked := [] |}.

(** *** Sequences of calls *)

(** One [ddsrt_thread_cleanup_push] per request, in order; a request is
    the block the allocator hands out, the routine and its argument, and
    [pthread_setspecific] succeeds each time.  The run stops at the first
    call that does not return OK. *)
Fixpoint push_all (b : build) (reqs : list (Z * (Z * Z))) (st : state)
  : dds_return_t * state :=
  match reqs with
  | [] => (DDS_RETCODE_OK, st)
  | (a, (f, x)) :: rest =>
      let '(rc, st1) := ddsrt_thread_cleanup_push b a 0 f x st in
      if rc =? DDS_RETCODE_OK then push_all b rest st1 else (rc, st1)
  end.

(** [n] times [ddsrt_thread_cleanup_pop (1)], [pthread_setspecific]
    succeeding each time; stops at the first call that does not return
    OK. *)
Fixpoint pop_times (b : build) (n : nat) (st : state)
  : option (dds_return_t * state) :=
  match n with
  | O => Some (DDS_RETCODE_OK, st)
  | S n' =>
      '(rc, st1) ← ddsrt_thread_cleanup_pop b 0 1 st;
      if rc =? DDS_RETCODE_OK then pop_times b n' st1 else Some (rc, st1)
  end.

(** The calls the requests ask for, in the order of the requests. *)
Definition requested_calls (reqs : list (Z * (Z * Z))) : list (Z * Z) :=
  map snd reqs.

(** The blocks are usable: not NULL, not live, pairwise distinct. *)
Definition fresh_blocks (h : gmap Z thread_cleanup_t)
    (reqs : list (Z * (Z * Z))) : Prop :=
  NoDup (reqs.*1) ∧ Forall (λ a, a ≠ NULL ∧ h !! a = None) (reqs.*1).

(** The calling thread has a well-formed stack of some records. *)
Definition well_formed (st : state) : Prop :=
  ∃ l, stack (heap st) (specific st) l.

(** Three requests for the samples. *)
Definition three_requests : list (Z * (Z * Z)) :=
  [(16384, (700, 7)); (20480, (800, 8)); (24576, (900, 9))].

End Cleanup.

(** ** Thread attributes, creation and join *)

Module Threads.

(** [ddsrt_sched_t] and [ddsrt_threadattr_t] of [dds/ddsrt/threads.h]; the
    C file uses [schedPriority] as a signed and the other numbers as
    unsigned 32-bit integers. *)
Inductive ddsrt_sched_t :=
  | DDSRT_SCHED_DEFAULT
  | DDSRT_SCHED_REALTIME
  | DDSRT_SCHED_TIMESHARE.

Record ddsrt_threadattr_t := {
  schedClass : ddsrt_sched_t;
  schedPriority : Z;
  schedAffinityN : Z;
  schedAffinitySet : list Z;     (* the array behind the pointer; NULL is [] *)
  stackSize : Z
}.

(** [ddsrt_threadattr_init] ([threads.c]): every field is overwritten. *)
Definition ddsrt_threadattr_init : ddsrt_threadattr_t := {|
  schedClass := DDSRT_SCHED_DEFAULT;
  schedPriority := 0;
  schedAffinityN := 0;
  schedAffinitySet := [];
  stackSize := 0 |}.

Definition set_stackSize (sz : Z) (a : ddsrt_threadattr_t) : ddsrt_threadattr_t :=
  {| schedClass := schedClass a; schedPriority := schedPriority a;
     schedAffinityN := schedAffinityN a; schedAffinitySet := schedAffinitySet a;
     stackSize := sz |}.

Definition is_default (c : ddsrt_sched_t) : bool :=
  match c with DDSRT_SCHED_DEFAULT => true | _ => false end.

(** [thread_context_t]; the start routine is the address of a function. *)
Record thread_context_t := {
  name : string;
  routine : Z;
  arg : Z
}.

(** The start routines of the program: [code f x] is the value the
    function at address [f] returns when it is called with [x]. *)
Definition routines := Z → Z → Z.

Definition uint32 (x : Z) : Z := x mod 2 ^ 32.

(** Conversion to [uintptr_t]. *)
Definition uintptr (b : build) (x : Z) : Z := x mod 2 ^ WORD_BITS b.

Inductive sig_how := SIG_BLOCK | SIG_SETMASK.

Inductive log_level := LOG_ERROR | LOG_WARNING.

(** The diagnostics of [ddsrt_thread_create] and [ddsrt_thread_join], one
    constructor per format string, with the parameters it prints after
    the thread name. *)
Inductive log_msg :=
  | Msg_stack_exceeds_maximum (requested maximum : Z)
  | Msg_setstacksize_failed (size result : Z)
  | Msg_thread_count_exceeded (idx : Z)
  | Msg_setstack_failed (idx size result : Z)
  | Msg_default_class_with_priority
  | Msg_getschedparam_self_failed (result : Z)
  | Msg_attr_getschedparam_failed (result : Z)
  | Msg_attr_getschedpolicy_failed (result : Z)
  | Msg_setschedpolicy_failed (policy result : Z)
  | Msg_priority_invalid (requested policy fallback : Z)
  | Msg_setschedparam_failed (requested result : Z)
  | Msg_setinheritsched_failed (result : Z)
  | Msg_cpu_out_of_range (cpu : Z)
  | Msg_setaffinity_failed (result : Z)
  | Msg_pthread_create_failed (result : Z)
  | Msg_pthread_join_failed (thread err : Z).

(** Calls to the threads library, the allocator and the log, in the order
    they are made.  [Ev_setname n] is the call [ddsrt_thread_setname (n)]
    of the start routine wrapper; what that call makes of the name (Linux
    cuts it to 15 bytes, a build without a naming facility sets nothing)
    is outside this model. *)
Inductive event :=
  | Ev_log (lvl : log_level) (thread_name : string) (msg : log_msg)
  | Ev_attr_init
  | Ev_attr_setname (n : string)
  | Ev_attr_setscope
  | Ev_attr_setdetachstate
  | Ev_attr_setstacksize (size : Z)
  | Ev_attr_setstack (idx size : Z)
  | Ev_getschedparam_self
  | Ev_attr_getschedparam
  | Ev_attr_getschedpolicy
  | Ev_attr_setschedpolicy (policy : Z)
  | Ev_attr_setschedparam (priority : Z)
  | Ev_attr_setinheritsched
  | Ev_attr_setaffinity (cpuset : Z)
  | Ev_sigprocmask (how : sig_how) (set : Z)
  | Ev_pthread_create (blocked : Z) (ctx : thread_context_t)
  | Ev_free_ctx_name
  | Ev_free_ctx
  | Ev_attr_destroy
  | Ev_pthread_join (thread : Z)
  | Ev_setname (n : string)
  | Ev_raise_priority.

(** Calls that read or set a scheduling policy or priority. *)
Definition is_sched_call (e : event) : bool :=
  match e with
  | Ev_getschedparam_self | Ev_attr_getschedparam | Ev_attr_getschedpolicy
  | Ev_attr_setschedpolicy _ | Ev_attr_setschedparam _
  | Ev_attr_setinheritsched => true
  | _ => false
  end.

Definition is_spawn (e : event) : bool :=
  match e with Ev_pthread_create _ _ => true | _ => false end.


(** The part of the process [ddsrt_thread_create] and [ddsrt_thread_join]
    read and write. *)
Record process := {
  sigmask : Z;          (* signal mask of the caller: bit s-1 set, signal s blocked *)
  currThrIdx : Z;       (* the static counter of the Zephyr port *)
  threads : gmap Z thread_context_t
                        (* threads created and not yet joined, by pthread_t *)
}.

(** What the operating system answers to the calls of one
    [ddsrt_thread_create]: each function is called at most once. *)
Record os_answers := {
  ans_attr_init : Z;
  ans_attr_setscope : Z;
  ans_attr_setdetachstate : Z;
  ans_attr_setstacksize : Z;
  ans_attr_setstack : Z;
  ans_getschedparam_self : Z;
  self_policy : Z;
  self_priority : Z;
  ans_attr_getschedparam : Z;
  attr_priority : Z;
  ans_attr_getschedpolicy : Z;
  attr_policy : Z;
  sched_get_priority_min : Z → Z;
  sched_get_priority_max : Z → Z;
  ans_attr_setschedpolicy : Z;
  ans_attr_setschedparam : Z;
  ans_attr_setinheritsched : Z;
  ans_attr_setaffinity : Z;
  ans_pthread_create : Z;
  new_thread : Z          (* the pthread_t stored on success *)
}.

(** *** Control flow of [ddsrt_thread_create] *)

(** The three ways out before the end: [return DDS_RETCODE_ERROR],
    [goto err] and [goto err_create]. *)
Inductive exit := Exit_return_error | Exit_err | Exit_err_create.

Definition M (A : Type) : Type :=
  process → (exit + A) * process * list event.

Definition ret {A} (a : A) : M A := λ st, (inr a, st, []).

Definition bind {A B} (m : M A) (k : A → M B) : M B := λ st,
  match m st with
  | (inl e, st1, ev1) => (inl e, st1, ev1)
  | (inr a, st1, ev1) =>
      let '(r, st2, ev2) := k a st1 in (r, st2, (ev1 ++ ev2)%list)
  end.

Definition leave {A} (e : exit) : M A := λ st, (inl e, st, []).
Definition emit (e : event) : M unit := λ st, (inr tt, st, [e]).
Definition get : M process := λ st, (inr st, st, []).
Definition put (st : process) : M unit := λ _, (inr tt, st, []).
Definition when (c : bool) (m : M unit) : M unit := if c then m else ret tt.

Notation "'let*' x ':=' m 'in' k" := (bind m (λ x, k))
  (at level 10, x pattern, m at level 100, k at level 200, only parsing).
Notation "m ';;;' k" := (bind m (λ _, k))
  (at level 100, k at level 200, right associativity, only parsing).

Definition DDS_ERROR (n : string) (msg : log_msg) : M unit :=
  emit (Ev_log LOG_ERROR n msg).
Definition DDS_WARNING (n : string) (msg : log_msg) : M unit :=
  emit (Ev_log LOG_WARNING n msg).

(** *** Signal sets *)

Definition sigfillset (b : build) : Z := Z.ones (NSIG b).
Definition sigdelset (set signo : Z) : Z := Z.clearbit set (signo - 1).

(** [sigprocmask (how, &set, &oset)]: returns the previous mask.  The
    mask is kept as the caller asks for it; that the kernel never blocks
    SIGKILL and SIGSTOP plays no part here. *)
Definition sigprocmask (how : sig_how) (set : Z) : M Z := λ st,
  let new :=
    match how with
    | SIG_BLOCK => Z.lor (sigmask st) set
    | SIG_SETMASK => set
    end in
  (inr (sigmask st),
   {| sigmask := new; currThrIdx := currThrIdx st; threads := threads st |},
   [Ev_sigprocmask how set]).

(** [pthread_create]: on success the new thread is joinable and owns
    [ctx]; it starts with the signal mask of its creator. *)
Definition pthread_create (os : os_answers) (ctx : thread_context_t) : M Z := λ st,
  let st' :=
    if ans_pthread_create os =? 0
    then {| sigmask := sigmask st; currThrIdx := currThrIdx st;
            threads := <[new_thread os := ctx]> (threads st) |}
    else st in
  (inr (ans_pthread_create os), st', [Ev_pthread_create (sigmask st) ctx]).

(** *** The stages of [ddsrt_thread_create] *)

(** Zephyr: the requested size is overridden by the size of the statically
    allocated stacks. *)
Definition override_stack_size (b : build) (n : string)
    (tattr : ddsrt_threadattr_t) : M ddsrt_threadattr_t :=
  if ZEPHYR b then
    if negb (stackSize tattr =? 0)
       && (CYCLONEDDS_THREAD_STACK_SIZE b <? stackSize tattr) then
      DDS_ERROR n (Msg_stack_exceeds_maximum (stackSize tattr)
                     (CYCLONEDDS_THREAD_STACK_SIZE b)) ;;;
      leave Exit_return_error
    else ret (set_stackSize (CYCLONEDDS_THREAD_STACK_SIZE b) tattr)
  else ret tattr.

(** From [pthread_attr_init] to the stack size. *)
Definition init_pattr (b : build) (os : os_answers) (n : string)
    (tattr : ddsrt_threadattr_t) : M ddsrt_threadattr_t :=
  emit Ev_attr_init ;;;
  when (negb (ans_attr_init os =? 0)) (leave Exit_return_error) ;;;
  when (VXWORKS b) (emit (Ev_attr_setname n)) ;;;
  when (negb (ZEPHYR b))
    (emit Ev_attr_setscope ;;;
     when (negb (ans_attr_setscope os =? 0)) (leave Exit_err)) ;;;
  emit Ev_attr_setdetachstate ;;;
  when (negb (ans_attr_setdetachstate os =? 0)) (leave Exit_err) ;;;
  if negb (stackSize tattr =? 0) then
    let tattr :=
      match PTHREAD_STACK_MIN b with
      | Some stack_min =>
          if stackSize tattr <? uint32 stack_min
          then set_stackSize (uint32 stack_min) tattr else tattr
      | None => tattr
      end in
    if negb (ZEPHYR b) then
      emit (Ev_attr_setstacksize (stackSize tattr)) ;;;
      let result := ans_attr_setstacksize os in
      when (negb (result =? 0))
        (DDS_ERROR n (Msg_setstacksize_failed (stackSize tattr) result) ;;;
         leave Exit_err) ;;;
      ret tattr
    else
      let* st := get in
      when (CYCLONEDDS_THREAD_COUNT b <=? currThrIdx st)
        (DDS_ERROR n (Msg_thread_count_exceeded (currThrIdx st)) ;;;
         leave Exit_err) ;;;
      emit (Ev_attr_setstack (currThrIdx st) (stackSize tattr)) ;;;
      let result := ans_attr_setstack os in
      when (negb (result =? 0))
        (DDS_ERROR n (Msg_setstack_failed (currThrIdx st) (stackSize tattr) result) ;;;
         leave Exit_err) ;;;
      put {| sigmask := sigmask st; currThrIdx := currThrIdx st + 1;
             threads := threads st |} ;;;
      ret tattr
  else ret tattr.

(** The block that sets policy and priority: everywhere for a class other
    than DEFAULT, on Zephyr for DEFAULT as well. *)
Definition set_policy_and_priority (b : build) (os : os_answers) (n : string)
    (tattr : ddsrt_threadattr_t) : M unit :=
  let* (policy, sched_priority) :=
    (if negb (ZEPHYR b) then
       emit Ev_getschedparam_self ;;;
       let result := ans_getschedparam_self os in
       when (negb (result =? 0))
         (DDS_ERROR n (Msg_getschedparam_self_failed result) ;;; leave Exit_err) ;;;
       ret (self_policy os, self_priority os)
     else
       emit Ev_attr_getschedparam ;;;
       let result := ans_attr_getschedparam os in
       when (negb (result =? 0))
         (DDS_ERROR n (Msg_attr_getschedparam_failed result) ;;; leave Exit_err) ;;;
       emit Ev_attr_getschedpolicy ;;;
       let result := ans_attr_getschedpolicy os in
       when (negb (result =? 0))
         (DDS_ERROR n (Msg_attr_getschedpolicy_failed result) ;;; leave Exit_err) ;;;
       ret (attr_policy os, attr_priority os)) in
  let policy :=
    match schedClass tattr with
    | DDSRT_SCHED_DEFAULT => policy
    | DDSRT_SCHED_REALTIME => SCHED_FIFO b
    | DDSRT_SCHED_TIMESHARE => SCHED_OTHER b
    end in
  when (negb (is_default (schedClass tattr)))
    (emit (Ev_attr_setschedpolicy policy) ;;;
     let result := ans_attr_setschedpolicy os in
     when (negb (result =? 0))
       (DDS_ERROR n (Msg_setschedpolicy_failed policy result) ;;; leave Exit_err)) ;;;
  let* sched_priority :=
    (if (sched_get_priority_min os policy <=? schedPriority tattr)
        && (schedPriority tattr <=? sched_get_priority_max os policy)
     then ret (schedPriority tattr)
     else
       DDS_WARNING n (Msg_priority_invalid (schedPriority tattr) policy sched_priority) ;;;
       ret sched_priority) in
  emit (Ev_attr_setschedparam sched_priority) ;;;
  let result := ans_attr_setschedparam os in
  when (negb (result =? 0))
    (DDS_ERROR n (Msg_setschedparam_failed (schedPriority tattr) result) ;;;
     leave Exit_err) ;;;
  when (negb (ZEPHYR b))
    (emit Ev_attr_setinheritsched ;;;
     let result := ans_attr_setinheritsched os in
     when (negb (result =? 0))
       (DDS_ERROR n (Msg_setinheritsched_failed result) ;;; leave Exit_err)).

(** Scheduling class and priority.  Outside Zephyr a DEFAULT class with a
    priority other than 0 is rejected and a DEFAULT class with priority 0
    sets nothing. *)
Definition configure_scheduling (b : build) (os : os_answers) (n : string)
    (tattr : ddsrt_threadattr_t) : M unit :=
  if negb (ZEPHYR b) && is_default (schedClass tattr) then
    when (negb (schedPriority tattr =? 0))
      (DDS_ERROR n Msg_default_class_with_priority ;;; leave Exit_err)
  else set_policy_and_priority b os n tattr.

(** The loop that fills the [cpu_set_t]; the caller supplies at least
    [schedAffinityN] entries, of which the first [schedAffinityN] are read. *)
Fixpoint fill_cpuset (b : build) (n : string) (cpus : list Z) (cpuset : Z) : M Z :=
  match cpus with
  | [] => ret cpuset
  | cpu :: rest =>
      when (CPU_SETSIZE b <=? cpu)
        (DDS_ERROR n (Msg_cpu_out_of_range cpu) ;;; leave Exit_err) ;;;
      fill_cpuset b n rest (Z.setbit cpuset cpu)
  end.

Definition configure_affinity (b : build) (os : os_answers) (n : string)
    (tattr : ddsrt_threadattr_t) : M unit :=
  if 0 <? schedAffinityN tattr then
    if LINUX_GLIBC b then
      let* cpuset :=
        fill_cpuset b n
          (take (Z.to_nat (schedAffinityN tattr)) (schedAffinitySet tattr)) 0 in
      emit (Ev_attr_setaffinity cpuset) ;;;
      let result := ans_attr_setaffinity os in
      when (negb (result =? 0))
        (DDS_ERROR n (Msg_setaffinity_failed result) ;;; leave Exit_err)
    else leave Exit_err
  else ret tt.

(** Context construction and the spawn itself, up to [return
    DDS_RETCODE_OK]. *)
Definition spawn (b : build) (os : os_answers) (n : string)
    (start_routine : Z) (arg_ : Z) : M Z :=
  let ctx := {| name := n; routine := start_routine; arg := arg_ |} in
  let* oset :=
    (if negb (ZEPHYR b) then
       let set := sigfillset b in
       let set := sigdelset set (SIGXCPU b) in
       sigprocmask SIG_BLOCK set
     else ret 0) in
  let* create_ret := pthread_create os ctx in
  when (negb (create_ret =? 0))
    (DDS_ERROR n (Msg_pthread_create_failed create_ret) ;;;
     leave Exit_err_create) ;;;
  when (negb (ZEPHYR b))
    (let* _ := sigprocmask SIG_SETMASK oset in ret tt) ;;;
  emit Ev_attr_destroy ;;;
  ret (new_thread os).

Definition create_body (b : build) (os : os_answers) (n : string)
    (attr : ddsrt_threadattr_t) (start_routine : Z) (arg_ : Z) : M Z :=
  let* tattr := override_stack_size b n attr in
  let* tattr := init_pattr b os n tattr in
  configure_scheduling b os n tattr ;;;
  configure_affinity b os n tattr ;;;
  spawn b os n start_routine arg_.

(** [ddsrt_thread_create]: the return code, the handle the caller gets,
    the process afterwards and the calls made.  The handle is [Some] of
    what [pthread_create] stored in [*thread] when the call returns OK and
    [None] otherwise: after ERROR the caller has no handle to use.  What
    the memory behind [thread] holds after a failed [pthread_create],
    which was handed its address, is up to the threads library and is not
    part of the result. *)
Definition ddsrt_thread_create (b : build) (os : os_answers) (n : string)
    (attr : ddsrt_threadattr_t) (start_routine : Z) (arg_ : Z)
    (st : process) : dds_return_t * option Z * process * list event :=
  match create_body b os n attr start_routine arg_ st with
  | (inr thread, st', evs) => (DDS_RETCODE_OK, Some thread, st', evs)
  | (inl Exit_return_error, st', evs) => (DDS_RETCODE_ERROR, None, st', evs)
  | (inl Exit_err, st', evs) =>
      (DDS_RETCODE_ERROR, None, st', (evs ++ [Ev_attr_destroy])%list)
  | (inl Exit_err_create, st', evs) =>
      (DDS_RETCODE_ERROR, None, st',
       (evs ++ [Ev_free_ctx_name; Ev_free_ctx; Ev_attr_destroy])%list)
  end.

(** *** The start routine wrapper and join *)

(** [os_startRoutineWrapper]: the value handed back to the threads
    library, as a pointer, and the calls made on the way.  The result of
    the routine is converted to [uintptr_t] and then to a pointer. *)
Definition os_startRoutineWrapper (b : build) (code : routines)
    (context : thread_context_t) : Z * list event :=
  let resultValue := uintptr b (code (routine context) (arg context)) in
  (resultValue,
   ([Ev_setname (name context); Ev_free_ctx_name; Ev_free_ctx]
    ++ if VXWORKS_RTP b then [Ev_raise_priority] else [])%list).

Definition ESRCH : Z := 3.

(** [pthread_join]: waits for the thread to end, that is for its wrapper
    to return, and yields that value; a thread that is not joinable any
    more is an error.  [err] is any other failure the library reports. *)
Definition pthread_join (b : build) (code : routines) (err : Z) (thread : Z)
    (st : process) : Z * Z * process * list event :=
  match threads st !! thread with
  | Some ctx =>
      if err =? 0 then
        let '(v, evs) := os_startRoutineWrapper b code ctx in
        (0, v,
         {| sigmask := sigmask st; currThrIdx := currThrIdx st;
            threads := delete thread (threads st) |},
         (Ev_pthread_join thread :: evs))
      else (err, 0, st, [Ev_pthread_join thread])
  | None => (ESRCH, 0, st, [Ev_pthread_join thread])
  end.

(** [ddsrt_thread_join]; [want_result] tells whether [thread_result] is a
    non-NULL pointer, and the second component of the result is what is
    stored there.  The handle is not 0 (asserted outside Zephyr). *)
Definition ddsrt_thread_join (b : build) (code : routines) (os_err : Z)
    (thread : Z) (want_result : bool) (st : process)
  : dds_return_t * option Z * process * list event :=
  let '(err, vthread_result, st', evs) := pthread_join b code os_err thread st in
  if negb (err =? 0) then
    (DDS_RETCODE_ERROR, None, st',
     (evs ++ [Ev_log LOG_ERROR EmptyString (Msg_pthread_join_failed thread err)])%list)
  else
    (DDS_RETCODE_OK,
     if want_result then Some (uint32 (uintptr b vthread_result)) else None,
     st', evs).

(** *** Reading the calls of [ddsrt_thread_create] *)

(** The priorities handed to [pthread_attr_setschedparam]. *)
Definition applied_priorities (evs : list event) : list Z :=
  omap (λ e, match e with Ev_attr_setschedparam p => Some p | _ => None end) evs.

(** The warnings sent to the log. *)
Definition warnings (evs : list event) : list log_msg :=
  omap (λ e, match e with Ev_log LOG_WARNING _ m => Some m | _ => None end) evs.

(** The signal masks the new threads were started with. *)
Definition spawn_masks (evs : list event) : list Z :=
  omap (λ e, match e with Ev_pthread_create m _ => Some m | _ => None end) evs.

(** The calls of the stages that neither touch scheduling nor signals nor
    start a thread: attribute set-up, error reports, releases. *)
Definition is_setup (e : event) : bool :=
  match e with
  | Ev_log LOG_ERROR _ _ | Ev_attr_init | Ev_attr_setname _ | Ev_attr_setscope
  | Ev_attr_setdetachstate | Ev_attr_setstacksize _ | Ev_attr_setstack _ _
  | Ev_attr_setaffinity _ | Ev_attr_destroy | Ev_free_ctx_name | Ev_free_ctx => true
  | _ => false
  end.

(** Policy and priority the caller starts from: its own outside Zephyr,
    those of a fresh attribute object on Zephyr. *)
Definition ambient_policy (b : build) (os : os_answers) : Z :=
  if ZEPHYR b then attr_policy os else self_policy os.
Definition ambient_priority (b : build) (os : os_answers) : Z :=
  if ZEPHYR b then attr_priority os else self_priority os.

(** The native policy of a scheduling class. *)
Definition class_policy (b : build) (os : os_answers) (c : ddsrt_sched_t) : Z :=
  match c with
  | DDSRT_SCHED_DEFAULT => ambient_policy b os
  | DDSRT_SCHED_REALTIME => SCHED_FIFO b
  | DDSRT_SCHED_TIMESHARE => SCHED_OTHER b
  end.

Definition priority_in_range (os : os_answers) (policy priority : Z) : bool :=
  (sched_get_priority_min os policy <=? priority)
  && (priority <=? sched_get_priority_max os policy).

(** An operating system that lets every call of [ddsrt_thread_create]
    succeed. *)
Definition cooperative (os : os_answers) : bool :=
  (ans_attr_init os =? 0) && (ans_attr_setscope os =? 0)
  && (ans_attr_setdetachstate os =? 0) && (ans_attr_setstacksize os =? 0)
  && (ans_attr_setstack os =? 0) && (ans_getschedparam_self os =? 0)
  && (ans_attr_getschedparam os =? 0) && (ans_attr_getschedpolicy os =? 0)
  && (ans_attr_setschedpolicy os =? 0) && (ans_attr_setschedparam os =? 0)
  && (ans_attr_setinheritsched os =? 0) && (ans_attr_setaffinity os =? 0)
  && (ans_pthread_create os =? 0).

(** What Zephyr asks of the stack request and of the static stack pool. *)
Definition stack_available (b : build) (attr : ddsrt_threadattr_t)
    (st : process) : bool :=
  negb (ZEPHYR b)
  || ((stackSize attr <=? CYCLONEDDS_THREAD_STACK_SIZE b)
      && ((CYCLONEDDS_THREAD_STACK_SIZE b =? 0)
          || (currThrIdx st <? CYCLONEDDS_THREAD_COUNT b))).

(** The priority [ddsrt_thread_create] hands to
    [pthread_attr_setschedparam] and what it warns about. *)
Definition applied_priority (b : build) (os : os_answers)
    (tattr : ddsrt_threadattr_t) : Z :=
  if priority_in_range os (class_policy b os (schedClass tattr)) (schedPriority tattr)
  then schedPriority tattr else ambient_priority b os.

Definition expected_warnings (b : build) (os : os_answers)
    (tattr : ddsrt_threadattr_t) : list log_msg :=
  if priority_in_range os (class_policy b os (schedClass tattr)) (schedPriority tattr)
  then []
  else [Msg_priority_invalid (schedPriority tattr)
          (class_policy b os (schedClass tattr)) (ambient_priority b os)].

(** A threads library that refuses to store a priority outside the range
    of the policy of the attribute object, for the one call to
    [pthread_attr_setschedparam] that [ddsrt_thread_create] makes for this
    request. *)
Definition checks_priority (b : build) (os : os_answers)
    (attr : ddsrt_threadattr_t) : Prop :=
  priority_in_range os (class_policy b os (schedClass attr))
    (applied_priority b os attr) = false →
  ans_attr_setschedparam os ≠ 0.

(** Two attribute records that ask for the same scheduling and affinity. *)
Definition same_request (t tattr : ddsrt_threadattr_t) : Prop :=
  schedClass t = schedClass tattr ∧ schedPriority t = schedPriority tattr ∧
  schedAffinityN t = schedAffinityN tattr ∧
  schedAffinitySet t = schedAffinitySet tattr.

Definition all_setup (evs : list event) : Prop :=
  Forall (λ e, is_setup e = true) evs.

(** The set blocked around the spawn: every signal but SIGXCPU. *)
Definition spawn_blocked_set (b : build) : Z :=
  sigdelset (sigfillset b) (SIGXCPU b).

(** Sample answers: every call succeeds, the caller runs under policy 0
    with priority 0, policy 1 takes priorities 1 to 99 and any other
    policy only 0, and the new thread gets the handle 77. *)
Definition sample_os : os_answers := {|
  ans_attr_init := 0; ans_attr_setscope := 0; ans_attr_setdetachstate := 0;
  ans_attr_setstacksize := 0; ans_attr_setstack := 0;
  ans_getschedparam_self := 0; self_policy := 0; self_priority := 0;
  ans_attr_getschedparam := 0; attr_priority := 3;
  ans_attr_getschedpolicy := 0; attr_policy := 1;
  sched_get_priority_min := λ p, if p =? 1 then 1 else 0;
  sched_get_priority_max := λ p, if p =? 1 then 99 else 0;
  ans_attr_setschedpolicy := 0; ans_attr_setschedparam := 0;
  ans_attr_setinheritsched := 0; ans_attr_setaffinity := 0;
  ans_pthread_create := 0; new_thread := 77 |}.

(** The same, except that [pthread_create] fails with EAGAIN. *)
Definition sample_os_spawn_fails : os_answers := {|
  ans_attr_init := 0; ans_attr_setscope := 0; ans_attr_setdetachstate := 0;
  ans_attr_setstacksize := 0; ans_attr_setstack := 0;
  ans_getschedparam_self := 0; self_policy := 0; self_priority := 0;
  ans_attr_getschedparam := 0; attr_priority := 3;
  ans_attr_getschedpolicy := 0; attr_policy := 1;
  sched_get_priority_min := λ p, if p =? 1 then 1 else 0;
  sched_get_priority_max := λ p, if p =? 1 then 99 else 0;
  ans_attr_setschedpolicy := 0; ans_attr_setschedparam := 0;
  ans_attr_setinheritsched := 0; ans_attr_setaffinity := 0;
  ans_pthread_create := 11; new_thread := 0 |}.

Definition EINVAL : Z := 22.

(** As [sample_os], with a threads library that checks the priority it is
    handed against the range of the policy of the attribute object, as
    glibc does: asked to store the creator's priority 0 under policy 1,
    whose range is 1 to 99, [pthread_attr_setschedparam] answers
    EINVAL. *)
Definition sample_os_checks_priority : os_answers := {|
  ans_attr_init := 0; ans_attr_setscope := 0; ans_attr_setdetachstate := 0;
  ans_attr_setstacksize := 0; ans_attr_setstack := 0;
  ans_getschedparam_self := 0; self_policy := 0; self_priority := 0;
  ans_attr_getschedparam := 0; attr_priority := 3;
  ans_attr_getschedpolicy := 0; attr_policy := 1;
  sched_get_priority_min := λ p, if p =? 1 then 1 else 0;
  sched_get_priority_max := λ p, if p =? 1 then 99 else 0;
  ans_attr_setschedpolicy := 0; ans_attr_setschedparam := EINVAL;
  ans_attr_setinheritsched := 0; ans_attr_setaffinity := 0;
  ans_pthread_create := 0; new_thread := 77 |}.

(** Sample descriptors. *)
Definition default_class_priority_5 : ddsrt_threadattr_t := {|
  schedClass := DDSRT_SCHED_DEFAULT; schedPriority := 5;
  schedAffinityN := 0; schedAffinitySet := []; stackSize := 0 |}.

Definition realtime_priority_500 : ddsrt_threadattr_t := {|
  schedClass := DDSRT_SCHED_REALTIME; schedPriority := 500;
  schedAffinityN := 0; schedAffinitySet := []; stackSize := 0 |}.

(** The signal mask in force while [pthread_create] runs. *)
Definition spawn_mask (b : build) (st : process) : Z :=
  if ZEPHYR b then sigmask st else Z.lor (sigmask st) (spawn_blocked_set b).

(** A process with no signal blocked and no thread created yet. *)
Definition sample_process : process :=
  {| sigmask := 0; currThrIdx := 0; threads := ∅ |}.

(** A weakest-precondition reading of the stages: [wp m st Q] says that
    running [m] from [st] ends in a result, a process and a list of calls
    that satisfy [Q]. *)
Definition wp {A} (m : M A) (st : process)
    (Q : exit + A → process → list event → Prop) : Prop :=
  Q (m st).1.1 (m st).1.2 (m st).2.

(** *** More readings of the calls *)

(** How many of the calls satisfy [p]. *)
Definition count_calls (p : event → bool) (evs : list event) : nat :=
  length (List.filter p evs).

(** Every call of the list is of the class [p]. *)
Definition of_class (p : event → bool) (evs : list event) : Prop :=
  Forall (λ e, p e = true) evs.

Definition is_attr_init (e : event) : bool :=
  match e with Ev_attr_init => true | _ => false end.
Definition is_attr_destroy (e : event) : bool :=
  match e with Ev_attr_destroy => true | _ => false end.
Definition is_free_ctx (e : event) : bool :=
  match e with Ev_free_ctx => true | _ => false end.
Definition is_free_ctx_name (e : event) : bool :=
  match e with Ev_free_ctx_name => true | _ => false end.
Definition is_error_log (e : event) : bool :=
  match e with Ev_log LOG_ERROR _ _ => true | _ => false end.

(** The sizes handed to [pthread_attr_setstacksize]. *)
Definition stack_sizes (evs : list event) : list Z :=
  omap (λ e, match e with Ev_attr_setstacksize s => Some s | _ => None end) evs.

(** The static stacks handed to [pthread_attr_setstack]: index and size. *)
Definition static_stacks (evs : list event) : list (Z * Z) :=
  omap (λ e, match e with Ev_attr_setstack i s => Some (i, s) | _ => None end) evs.

(** The policies handed to [pthread_attr_setschedpolicy]. *)
Definition policies_set (evs : list event) : list Z :=
  omap (λ e, match e with Ev_attr_setschedpolicy p => Some p | _ => None end) evs.

(** The CPU sets handed to [pthread_attr_setaffinity_np]. *)
Definition affinity_sets (evs : list event) : list Z :=
  omap (λ e, match e with Ev_attr_setaffinity c => Some c | _ => None end) evs.

(** The calls made before the context is built: attribute set-up,
    scheduling, affinity, and the log. *)
Definition is_configuration (e : event) : bool :=
  match e with
  | Ev_log _ _ _ | Ev_attr_init | Ev_attr_setname _ | Ev_attr_setscope
  | Ev_attr_setdetachstate | Ev_attr_setstacksize _ | Ev_attr_setstack _ _
  | Ev_getschedparam_self | Ev_attr_getschedparam | Ev_attr_getschedpolicy
  | Ev_attr_setschedpolicy _ | Ev_attr_setschedparam _
  | Ev_attr_setinheritsched | Ev_attr_setaffinity _ => true
  | _ => false
  end.

(** The calls each stage can make. *)
Definition is_init_event (e : event) : bool :=
  match e with
  | Ev_log LOG_ERROR _ _ | Ev_attr_init | Ev_attr_setname _ | Ev_attr_setscope
  | Ev_attr_setdetachstate | Ev_attr_setstacksize _ | Ev_attr_setstack _ _ => true
  | _ => false
  end.

Definition is_sched_event (e : event) : bool :=
  match e with Ev_log _ _ _ => true | _ => is_sched_call e end.

Definition is_affinity_event (e : event) : bool :=
  match e with Ev_log LOG_ERROR _ _ | Ev_attr_setaffinity _ => true | _ => false end.

(** Zephyr turns the request down before any call: a stack larger than
    the static ones. *)
Definition stack_request_too_large (b : build) (attr : ddsrt_threadattr_t) : bool :=
  ZEPHYR b && negb (stackSize attr =? 0)
  && (CYCLONEDDS_THREAD_STACK_SIZE b <? stackSize attr).

(** The stack size the attribute object gets outside Zephyr, for a
    request other than 0. *)
Definition raised_stack_size (b : build) (attr : ddsrt_threadattr_t) : Z :=
  match PTHREAD_STACK_MIN b with
  | Some stack_min => Z.max (stackSize attr) (uint32 stack_min)
  | None => stackSize attr
  end.

(** The [cpu_set_t] with exactly the bits of [cpus] set. *)
Definition cpuset_of (cpus : list Z) : Z := fold_left Z.setbit cpus 0.

(** The calls of the last stage when [pthread_create] succeeds and when
    it fails with [ret]. *)
Definition spawn_calls_ok (b : build) (st : process) (ctx : thread_context_t)
  : list event :=
  if ZEPHYR b then [Ev_pthread_create (sigmask st) ctx; Ev_attr_destroy]
  else [Ev_sigprocmask SIG_BLOCK (spawn_blocked_set b);
        Ev_pthread_create (Z.lor (sigmask st) (spawn_blocked_set b)) ctx;
        Ev_sigprocmask SIG_SETMASK (sigmask st); Ev_attr_destroy].

Definition spawn_calls_failed (b : build) (st : process) (ctx : thread_context_t)
    (ret : Z) : list event :=
  if ZEPHYR b
  then [Ev_pthread_create (sigmask st) ctx;
        Ev_log LOG_ERROR (name ctx) (Msg_pthread_create_failed ret)]
  else [Ev_sigprocmask SIG_BLOCK (spawn_blocked_set b);
        Ev_pthread_create (Z.lor (sigmask st) (spawn_blocked_set b)) ctx;
        Ev_log LOG_ERROR (name ctx) (Msg_pthread_create_failed ret)].

(** The CPU ids [ddsrt_thread_create] reads from the descriptor. *)
Definition requested_cpus (attr : ddsrt_threadattr_t) : list Z :=
  take (Z.to_nat (schedAffinityN attr)) (schedAffinitySet attr).

(** More sample descriptors. *)
Definition default_class_small_stack : ddsrt_threadattr_t := {|
  schedClass := DDSRT_SCHED_DEFAULT; schedPriority := 0;
  schedAffinityN := 0; schedAffinitySet := []; stackSize := 100 |}.

Definition two_cpus : ddsrt_threadattr_t := {|
  schedClass := DDSRT_SCHED_DEFAULT; schedPriority := 0;
  schedAffinityN := 2; schedAffinitySet := [0; 3]; stackSize := 0 |}.

Definition cpu_out_of_range : ddsrt_threadattr_t := {|
  schedClass := DDSRT_SCHED_DEFAULT; schedPriority := 0;
  schedAffinityN := 2; schedAffinitySet := [0; 4096]; stackSize := 0 |}.

Definition timeshare_priority_0 : ddsrt_threadattr_t := {|
  schedClass := DDSRT_SCHED_TIMESHARE; schedPriority := 0;
  schedAffinityN := 0; schedAffinitySet := []; stackSize := 0 |}.

(** A Zephyr process that has handed out all its static stacks. *)
Definition stacks_used_up : process :=
  {| sigmask := 0; currThrIdx := 10; threads := ∅ |}.

(** A process with one joinable thread, 77, started on routine 4242. *)
Definition one_joinable_thread : process :=
  {| sigmask := 0; currThrIdx := 0;
     threads := <[77 := {| name := "worker"; routine := 4242; arg := 5 |}]> ∅ |}.

End Threads.

(** ** Thread enumeration *)

Module Enumerate.

(** *** Text *)

Definition digit_char (d : Z) : ascii := ascii_of_nat (48 + Z.to_nat d).

(** The decimal digits of a non-negative number, as [printf] writes them.
    [fuel] bounds the number of digits. *)
Fixpoint decimal_digits (fuel : nat) (v : Z) : string :=
  match fuel with
  | O => EmptyString
  | S fuel' =>
      if v <? 10 then String (digit_char v) EmptyString
      else (decimal_digits fuel' (v / 10) +:+ String (digit_char (v mod 10)) EmptyString)%string
  end.

(** Conversion [%lu] (and [%llu]) of a non-negative value. *)
Definition format_unsigned (v : Z) : string :=
  decimal_digits (S (Z.to_nat (Z.log2 v))) v.

(** Conversion [%d]. *)
Definition format_signed (v : Z) : string :=
  if v <? 0 then String "-" (format_unsigned (- v)) else format_unsigned v.

Definition strlen (s : string) : Z := Z.of_nat (String.length s).

(** [s[i]] for a C string: the character code, 0 at the terminator. *)
Definition char_at (s : string) (i : nat) : Z :=
  match String.get i s with
  | Some c => Z.of_nat (nat_of_ascii c)
  | None => 0
  end.

Definition to_size_t (b : build) (n : Z) : Z := n mod 2 ^ WORD_BITS b.
Definition to_unsigned_long (b : build) (n : Z) : Z := n mod 2 ^ WORD_BITS b.

(** Conversion from [uint32_t] to [dds_return_t]. *)
Definition to_int32 (n : Z) : Z := (n + 2 ^ 31) mod 2 ^ 32 - 2 ^ 31.

(** *** [sscanf (s, "%ld%n", &tid, &pos)] *)

Definition is_space (c : ascii) : bool :=
  let n := nat_of_ascii c in
  ((n =? 32) || ((9 <=? n) && (n <=? 13)))%nat.

Definition digit_value (c : ascii) : option Z :=
  let n := nat_of_ascii c in
  if ((48 <=? n) && (n <=? 57))%nat then Some (Z.of_nat n - 48) else None.

Fixpoint skip_spaces (s : string) : string * nat :=
  match s with
  | String c rest =>
      if is_space c then let '(r, k) := skip_spaces rest in (r, S k) else (s, O)
  | EmptyString => (s, O)
  end.

(** Reads the longest run of digits; returns the value and the number of
    characters consumed. *)
Fixpoint scan_digits (s : string) (acc : Z) : Z * nat :=
  match s with
  | String c rest =>
      match digit_value c with
      | Some d => let '(v, k) := scan_digits rest (10 * acc + d) in (v, S k)
      | None => (acc, O)
      end
  | EmptyString => (acc, O)
  end.

(** [Some (tid, pos)] when one item was converted (the call returns 1);
    [pos] is then the number of characters read.  The value is not
    reduced to the range of [long]: a number that does not fit is outside
    what the C library defines. *)
Definition sscanf_ld_n (s : string) : option (Z * nat) :=
  let '(s1, k1) := skip_spaces s in
  let '(negative, s2, k2) :=
    match s1 with
    | String "-" rest => (true, rest, 1%nat)
    | String "+" rest => (false, rest, 1%nat)
    | _ => (false, s1, 0%nat)
    end in
  match scan_digits s2 0 with
  | (_, O) => None
  | (v, k3) => Some (if negative then - v else v, (k1 + k2 + k3)%nat)
  end.

(** [tids[n] = tid]; the caller's array has at least [size] elements. *)
Definition store (tids : list Z) (n : Z) (tid : Z) : list Z :=
  <[Z.to_nat n := tid]> tids.

(** *** Linux: [/proc/self/task] *)

Module Linux.

(** The test that skips the entries [.] and [..]. *)
Definition is_dot_entry (d_name : string) : bool :=
  (char_at d_name 0 =? 46)
  && ((char_at d_name 1 =? 0)
      || ((char_at d_name 1 =? 46) && (char_at d_name 2 =? 0))).

(** The [readdir] loop over the entries that are left; [n] is a count of
    the entries seen, which stays below 2^31 for any real directory. *)
Fixpoint readdir_loop (b : build) (size : Z) (entries : list string)
    (tids : list Z) (n : Z) : list Z * Z :=
  match entries with
  | [] => (tids, n)
  | d_name :: rest =>
      if is_dot_entry d_name then readdir_loop b size rest tids n else
      match sscanf_ld_n d_name with
      | Some (tid, pos) =>
          if negb (char_at d_name pos =? 0) then (tids, DDS_RETCODE_ERROR)
          else
            let tids := if to_size_t b n <? size then store tids n tid else tids in
            readdir_loop b size rest tids (n + 1)
      | None => (tids, DDS_RETCODE_ERROR)
      end
  end.

(** [ddsrt_thread_list]; [dir] is the content of [/proc/self/task] in the
    order [readdir] yields it, [None] when [opendir] fails. *)
Definition ddsrt_thread_list (b : build) (dir : option (list string))
    (tids : list Z) (size : Z) : dds_return_t * list Z :=
  match dir with
  | None => (DDS_RETCODE_ERROR, tids)
  | Some entries =>
      let '(tids, n) := readdir_loop b size entries tids 0 in
      (if n =? 0 then DDS_RETCODE_ERROR else n, tids)
  end.

(** The thread identifiers of a directory listing, in its order: the
    entries other than [.] and [..], read as decimal numbers. *)
Definition entry_tid (d_name : string) : option Z :=
  match sscanf_ld_n d_name with
  | Some (tid, pos) => if char_at d_name pos =? 0 then Some tid else None
  | None => None
  end.

Definition task_entries (entries : list string) : list string :=
  filter (λ d, is_dot_entry d = false) entries.

Definition task_stat_path (b : build) (tid : Z) : string :=
  ("/proc/self/task/" +:+ format_unsigned (to_unsigned_long b tid) +:+ "/stat")%string.

(** The first loop: read up to and including the first opening bracket. *)
Fixpoint skip_to_bracket (content : list Z) : list Z :=
  match content with
  | [] => []
  | c :: rest => if c =? 40 then rest else skip_to_bracket rest
  end.

(** The second loop, to the end of the file. *)
Fixpoint read_name (size : Z) (content : list Z) (name_ : list Z)
    (namelen namepos : Z) : list Z * Z :=
  match content with
  | [] => (name_, namelen)
  | c :: rest =>
      let namelen := if c =? 41 then namepos else namelen in
      if namepos + 1 <? size
      then read_name size rest (store name_ namepos c) namelen (namepos + 1)
      else read_name size rest name_ namelen namepos
  end.

(** [ddsrt_thread_getname_anythread]; [fopen path] is the content of the
    file at [path], [None] when it cannot be opened.  [file] has room for
    100 bytes; [snprintf] returns the length of the whole text.  The
    assertion before the terminator is written ([namelen < size]) holds
    by construction of the loop. *)
Definition ddsrt_thread_getname_anythread (b : build)
    (fopen : string → option (list Z)) (tid : Z) (name_ : list Z) (size : Z)
  : dds_return_t * list Z :=
  let file := task_stat_path b tid in
  let pos := strlen file in
  if (pos <? 0) || (100 <=? pos) then (DDS_RETCODE_ERROR, name_) else
  match fopen file with
  | None => (DDS_RETCODE_NOT_FOUND, name_)
  | Some content =>
      let '(name_, namelen) := read_name size (skip_to_bracket content) name_ 0 0 in
      (DDS_RETCODE_OK, if 0 <? size then store name_ namelen 0 else name_)
  end.

(** The thread identifiers a listing holds, in its order. *)
Definition listed_tids (entries : list string) : list Z :=
  omap entry_tid (task_entries entries).

(** A listing of [/proc/self/task] for a process with three threads. *)
Definition three_tasks : list string := ["."; ".."; "42"; "43"; "57"]%string.

(** A [/proc] in which the process has the single thread 42, named
    [ab]. *)
Definition one_thread_procfs (path : string) : option (list Z) :=
  if String.eqb path "/proc/self/task/42/stat"
  then Some [52; 50; 32; 40; 97; 98; 41; 32; 83]
  else None.

End Linux.

(** The buffer [tids] after the first [size] of [ids] were written at its
    start. *)
Definition written_prefix (ids tids : list Z) (size : Z) : list Z :=
  take (Z.to_nat size) ids ++ drop (length (take (Z.to_nat size) ids)) tids.

(** *** QNX: [/proc/<pid>/as] *)

Module QNX.

Record procfs_answers := {
  getpid : Z;
  open_fd : Z;           (* descriptor returned by open, -1 on failure *)
  devctl_ret : Z;        (* EOK is 0 *)
  num_threads : Z        (* procinfo.num_threads *)
}.

(** The [for] loop, with [k] iterations left before [n] reaches
    [procinfo.num_threads]. *)
Fixpoint fill_loop (b : build) (k : nat) (size : Z) (tids : list Z)
    (n tid : Z) : list Z * Z :=
  match k with
  | O => (tids, n)
  | S k' =>
      if to_size_t b n <? size
      then fill_loop b k' size (store tids n tid) (n + 1) (tid + 1)
      else (tids, n)
  end.

Definition ddsrt_thread_list (b : build) (os : procfs_answers)
    (tids : list Z) (size : Z) : dds_return_t * list Z :=
  let path := ("/proc/" +:+ format_signed (getpid os) +:+ "/as")%string in
  let pos := strlen path in
  if (pos <? 0) || (32 <=? pos) then (DDS_RETCODE_ERROR, tids) else
  if open_fd os =? -1 then (DDS_RETCODE_NOT_FOUND, tids) else
  if negb (devctl_ret os =? 0) then (DDS_RETCODE_ERROR, tids) else
  let '(tids, n) := fill_loop b (Z.to_nat (num_threads os)) size tids 0 1 in
  (if n =? 0 then DDS_RETCODE_ERROR else n, tids).

(** A process with three threads whose address space file opens. *)
Definition three_threads : procfs_answers :=
  {| getpid := 4711; open_fd := 3; devctl_ret := 0; num_threads := 3 |}.

(** What [devctl (fd, DCMD_PROC_THREADCTL, ...)] answers when asked for
    the name of a thread: its return value, the thread id it leaves in
    [tidinfo.tid], and the bytes of [tn->name_buf] before the
    terminator. *)
Record threadctl_answers := {
  threadctl_ret : Z;        (* EOK is 0 *)
  threadctl_tid : Z;
  threadctl_name : list Z
}.

(** [strncpy (dst, src, n)], [src] given by its bytes before the
    terminator: exactly [n] bytes are written, those of the string and
    then zeros. *)
Definition strncpy (dst src : list Z) (n : Z) : list Z :=
  let bytes := take (Z.to_nat n) (src ++ replicate (Z.to_nat n) 0) in
  bytes ++ drop (length bytes) dst.

(** [ddsrt_thread_getname_anythread].  [name_buf_len] is
    [sizeof (tidinfo.data)] less the size of the structure behind [tn], a
    constant of the QNX headers,
    compared with [size] as a [size_t].  The buffer is [None] when the
    call writes outside the [size] bytes of the caller: for [size] 0 the
    count [size - 1] wraps around.  The error that is logged when
    [devctl] fails is not part of the result. *)
Definition ddsrt_thread_getname_anythread (b : build) (name_buf_len : Z)
    (os : procfs_answers) (ctl : threadctl_answers) (tid : Z)
    (name_ : list Z) (size : Z) : dds_return_t * option (list Z) :=
  let path := ("/proc/" +:+ format_signed (getpid os) +:+ "/as")%string in
  let pos := strlen path in
  if (pos <? 0) || (100 <=? pos) then (DDS_RETCODE_ERROR, Some name_) else
  if open_fd os =? -1 then (DDS_RETCODE_NOT_FOUND, Some name_) else
  if to_size_t b name_buf_len <? size
  then (DDS_RETCODE_NOT_ENOUGH_SPACE, Some name_) else
  if negb (threadctl_ret ctl =? 0) then (DDS_RETCODE_ERROR, Some name_) else
  if negb (threadctl_tid ctl =? tid) then (DDS_RETCODE_NOT_FOUND, Some name_) else
  (DDS_RETCODE_OK,
   if (1 <=? size) && (size <=? Z.of_nat (length name_))
   then Some (store (strncpy name_ (threadctl_name ctl) (size - 1)) (size - 1) 0)
   else None).

(** Answers of [devctl]: for a thread 9 that has ended while thread 11
    lives on, and for an identifier the kernel finds no thread for
    (ESRCH). *)
Definition answer_for_next_thread : threadctl_answers :=
  {| threadctl_ret := 0; threadctl_tid := 11; threadctl_name := [116; 101; 118] |}.
Definition answer_no_such_thread : threadctl_answers :=
  {| threadctl_ret := 3; threadctl_tid := 9; threadctl_name := [] |}.

End QNX.

(** *** macOS: Mach task ports *)

Module Apple.

(** The [for] loop: [i] runs over [tasks] while it is below [size]. *)
Fixpoint copy_loop (b : build) (size : Z) (tasks : list Z) (tids : list Z)
    (i : Z) : list Z :=
  match tasks with
  | [] => tids
  | t :: rest =>
      if to_size_t b i <? size
      then copy_loop b size rest (store tids i t) (i + 1)
      else tids
  end.

(** [ddsrt_thread_list]; [task_threads] is [None] unless the call returns
    KERN_SUCCESS, and then the array of thread ports. *)
Definition ddsrt_thread_list (b : build) (task_threads : option (list Z))
    (tids : list Z) (size : Z) : dds_return_t * list Z :=
  match task_threads with
  | None => (DDS_RETCODE_ERROR, tids)
  | Some tasks =>
      (to_int32 (Z.of_nat (length tasks)), copy_loop b size tasks tids 0)
  end.

(** [ddsrt_thread_getname_anythread].  [pthread_name] is the name
    [pthread_getname_np] reports for the thread behind the port, [None]
    when [pthread_from_mach_thread_np] yields NULL or the name cannot be
    read.  The result is the text left in [name], [None] when [size] is 0
    and the buffer is not touched. *)
Definition ddsrt_thread_getname_anythread (pthread_name : Z → option string)
    (tid : Z) (size : Z) : dds_return_t * option string :=
  (DDS_RETCODE_OK,
   if 0 <? size then
     let fallback := ("task" +:+ format_unsigned tid)%string in
     let full :=
       match pthread_name tid with
       | Some n => if (strlen n =? 0) then fallback else n
       | None => fallback
       end in
     Some (substring 0 (Z.to_nat (size - 1)) full)
   else None).

End Apple.

End Enumerate.

(** * Properties *)

(** ** Cleanup stack *)

Section CleanupFacts.
Import Cleanup.

Lemma thread_init_created st : key_created st = true → thread_init st = st.
Proof. destruct st as [s h p k i]; simpl; intros ->; reflexivity. Qed.

Lemma released_lookup l : ∀ h a,
  released l h !! a = if decide (a ∈ l.*1) then None else h !! a.
Proof.
  induction l as [|[a0 r0] l IH]; intros h a.
  - simpl. destruct (decide (a ∈ [])) as [Hin|]; [|done].
    by apply elem_of_nil in Hin.
  - change (released ((a0, r0) :: l) h) with (released l (delete a0 h)).
    rewrite IH, fmap_cons. simpl.
    destruct (decide (a ∈ l.*1)) as [Hin|Hnin].
    + rewrite decide_True; [done | by right].
    + destruct (decide (a = a0)) as [->|Hne].
      * rewrite lookup_delete_eq, decide_True; [done | by left].
      * rewrite lookup_delete_ne by done.
        rewrite decide_False; [done|].
        intros [?|?]%elem_of_cons; done.
Qed.

Lemma stack_not_in l : ∀ h p a,
  stack (delete a h) p l → a ∉ l.*1.
Proof.
  induction l as [|[a0 r0] l IH]; intros h p a; simpl.
  - intros _ Hin. by apply elem_of_nil in Hin.
  - intros (-> & Hnz & Hl & Hs).
    apply lookup_delete_Some in Hl as [Hne Hl].
    rewrite delete_delete in Hs. apply IH in Hs.
    intros [?|?]%elem_of_cons; done.
Qed.

(** The records of a stack sit at pairwise distinct addresses. *)
Lemma stack_NoDup l : ∀ h p, stack h p l → NoDup (l.*1).
Proof.
  induction l as [|[a0 r0] l IH]; intros h p; simpl; [constructor|].
  intros (-> & Hnz & Hl & Hs). constructor.
  - by eapply stack_not_in.
  - by eapply IH.
Qed.

Lemma stack_size l : ∀ h p, stack h p l → (length l ≤ size h)%nat.
Proof.
  induction l as [|[a0 r0] l IH]; intros h p; simpl; [lia|].
  intros (-> & Hnz & Hl & Hs). apply IH in Hs.
  rewrite map_size_delete, Hl in Hs. simpl in Hs.
  assert (size h ≠ 0%nat).
  { intros Hz. apply map_size_empty_inv in Hz. subst h.
    by rewrite lookup_empty in Hl. }
  lia.
Qed.

(** A stack is determined by its head. *)
Lemma stack_functional l1 : ∀ l2 h p,
  stack h p l1 → stack h p l2 → l1 = l2.
Proof.
  induction l1 as [|[a1 r1] l1 IH]; intros [|[a2 r2] l2] h p; simpl.
  - done.
  - intros -> (<- & Hnz & _). done.
  - intros (-> & Hnz & _) ->. done.
  - intros (-> & _ & Hl1 & Hs1) (Heq & _ & Hl2 & Hs2). subst a2.
    rewrite Hl1 in Hl2. injection Hl2 as <-.
    f_equal. by eapply IH.
Qed.

(** The unwind loop on a well-formed stack: it calls the routines from the
    head down, frees every record, and needs one unit of fuel per record. *)
Lemma fini_loop_stack l : ∀ fuel st p,
  stack (heap st) p l → (length l ≤ fuel)%nat →
  thread_cleanup_fini_loop fuel p st =
    Some {| self := self st; heap := released l (heap st);
            specific := specific st; key_created := key_created st;
            invoked := (invoked st ++ calls l)%list |}.
Proof.
  induction l as [|[a r] l IH]; intros fuel st p; simpl.
  - intros -> _. destruct fuel; simpl; rewrite app_nil_r; by destruct st.
  - intros (-> & Hnz & Hl & Hs) Hfuel.
    destruct fuel as [|fuel]; [lia|]. simpl.
    apply Z.eqb_neq in Hnz; rewrite Hnz. rewrite Hl. simpl.
    rewrite (IH fuel _ (prev r)); simpl; [|done|lia].
    by rewrite <- app_assoc.
Qed.

Lemma fini_stack l st p :
  stack (heap st) p l →
  thread_cleanup_fini p st =
    Some {| self := self st; heap := released l (heap st);
            specific := specific st; key_created := key_created st;
            invoked := (invoked st ++ calls l)%list |}.
Proof.
  intros Hs. unfold thread_cleanup_fini.
  apply fini_loop_stack; [done | by eapply stack_size].
Qed.

(** The fuel [thread_cleanup_fini] starts with is never used up: more of
    it changes nothing, so [None] can only mean a head or a [prev] that
    points to no live record. *)
Lemma fini_loop_enough_fuel fuel : ∀ st p,
  (size (heap st) ≤ fuel)%nat →
  thread_cleanup_fini_loop fuel p st = thread_cleanup_fini p st.
Proof.
  unfold thread_cleanup_fini.
  induction fuel as [|fuel IH]; intros st p Hsize.
  - replace (size (heap st)) with 0%nat by lia. reflexivity.
  - destruct (size (heap st)) as [|k] eqn:Hk.
    + apply map_size_empty_inv in Hk. simpl. rewrite Hk, lookup_empty. reflexivity.
    + simpl. destruct (p =? NULL); [reflexivity|].
      destruct (heap st !! p) as [r|] eqn:Hl; simpl; [|reflexivity].
      assert (Hdel : size (heap (ddsrt_free p (call_routine r st))) = k).
      { simpl. rewrite map_size_delete, Hl. simpl. rewrite Hk. reflexivity. }
      rewrite IH by (rewrite Hdel; lia). by rewrite Hdel.
Qed.

(** A push that succeeds puts the new record on top of the stack. *)
Lemma push_ok_stack b a r x st l :
  not_a_pthread b st = false →
  a ≠ NULL → heap st !! a = None →
  stack (heap st) (specific st) l →
  ∃ st', ddsrt_thread_cleanup_push b a 0 r x st = (DDS_RETCODE_OK, st') ∧
         specific st' = a ∧ invoked st' = invoked st ∧
         self st' = self st ∧ key_created st' = true ∧
         heap st' = <[a := {| prev := specific st; routine := r; arg := x |}]> (heap st) ∧
         stack (heap st') (specific st')
           ((a, {| prev := specific st; routine := r; arg := x |}) :: l).
Proof.
  intros Hp Hnz Hfresh Hs.
  unfold ddsrt_thread_cleanup_push. rewrite Hp.
  apply Z.eqb_neq in Hnz as Hnzb. rewrite Hnzb. simpl.
  unfold pthread_setspecific. rewrite Hnzb. simpl.
  eexists; split; [reflexivity|]. simpl.
  repeat split; try done.
  - apply lookup_insert_eq.
  - rewrite delete_insert_id by done. done.
Qed.

(** A pop that succeeds on a stack removes its head and, when asked to,
    calls the routine of that record and of no other. *)
Lemma pop_ok_stack b execute st a r l :
  not_a_pthread b st = false →
  stack (heap st) (specific st) ((a, r) :: l) →
  ∃ st', ddsrt_thread_cleanup_pop b 0 execute st = Some (DDS_RETCODE_OK, st') ∧
         specific st' = prev r ∧ self st' = self st ∧
         key_created st' = true ∧
         heap st' = delete a (heap st) ∧
         invoked st' =
           (invoked st ++ if negb (execute =? 0) then [(routine r, arg r)] else [])%list ∧
         stack (heap st') (specific st') l.
Proof.
  intros Hp (Heq & Hnz & Hl & Hs).
  unfold ddsrt_thread_cleanup_pop. rewrite Hp.
  unfold pthread_getspecific. simpl. rewrite Heq.
  apply Z.eqb_neq in Hnz as Hnzb. rewrite Hnzb. simpl.
  rewrite Hl. simpl. unfold pthread_setspecific.
  rewrite orb_true_r. simpl.
  destruct (execute =? 0); simpl; eexists; (split; [reflexivity|]); simpl;
    rewrite ?app_nil_r; repeat split; done.
Qed.

(** Popping an empty stack does nothing and reports success, whatever the
    flag and whatever the environment would have answered. *)
Lemma pop_empty b seterr execute st :
  not_a_pthread b st = false →
  specific st = NULL →
  ddsrt_thread_cleanup_pop b seterr execute st =
    Some (DDS_RETCODE_OK, thread_init st).
Proof.
  intros Hp Hnull. unfold ddsrt_thread_cleanup_pop. rewrite Hp.
  unfold pthread_getspecific. simpl. rewrite Hnull. reflexivity.
Qed.

(** Every way [ddsrt_thread_cleanup_push] can report OUT_OF_RESOURCES, the
    failed allocation as well as the failed [pthread_setspecific], leaves
    the head and the records as they were. *)
Lemma push_out_of_resources_unchanged b a seterr r x st st' :
  heap st !! a = None →
  ddsrt_thread_cleanup_push b a seterr r x st = (DDS_RETCODE_OUT_OF_RESOURCES, st') →
  specific st' = specific st ∧ heap st' = heap st ∧ invoked st' = invoked st.
Proof.
  intros Hfresh. unfold ddsrt_thread_cleanup_push.
  destruct (not_a_pthread b st); [intros [=]|].
  destruct (a =? NULL) eqn:Ha; simpl.
  - intros [= <-]. done.
  - unfold pthread_setspecific. rewrite Ha. simpl.
    destruct (seterr =? 0) eqn:Hs; simpl; rewrite ?Hs; simpl; intros H.
    + unfold DDS_RETCODE_OK, DDS_RETCODE_OUT_OF_RESOURCES in H. congruence.
    + injection H as <-. simpl. by rewrite delete_insert_id.
Qed.

(** C5: on a thread whose cleanup stack is empty, push A, push B, pop
    (execute) calls exactly B; the next pop (execute) calls exactly A; any
    further pop, whatever its flag, calls nothing and returns OK.  The two
    records are released again. *)
Theorem cleanup_pop_is_lifo b st A xa B xb a1 a2 :
  not_a_pthread b st = false →
  specific st = NULL →
  a1 ≠ NULL → a2 ≠ NULL → a1 ≠ a2 →
  heap st !! a1 = None → heap st !! a2 = None →
  ∃ st1 st2 st3 st4,
    ddsrt_thread_cleanup_push b a1 0 A xa st = (DDS_RETCODE_OK, st1) ∧
    ddsrt_thread_cleanup_push b a2 0 B xb st1 = (DDS_RETCODE_OK, st2) ∧
    ddsrt_thread_cleanup_pop b 0 1 st2 = Some (DDS_RETCODE_OK, st3) ∧
    invoked st3 = (invoked st ++ [(B, xb)])%list ∧
    ddsrt_thread_cleanup_pop b 0 1 st3 = Some (DDS_RETCODE_OK, st4) ∧
    invoked st4 = (invoked st3 ++ [(A, xa)])%list ∧
    (∀ seterr execute,
       ddsrt_thread_cleanup_pop b seterr execute st4 = Some (DDS_RETCODE_OK, st4)) ∧
    specific st4 = NULL ∧ heap st4 = heap st.
Proof.
  intros Hp Hnull Hz1 Hz2 Hne Hf1 Hf2.
  assert (Hs0 : stack (heap st) (specific st) []) by (simpl; done).
  destruct (push_ok_stack b a1 A xa st [] Hp Hz1 Hf1 Hs0)
    as (st1 & E1 & Hsp1 & Hi1 & Hself1 & Hk1 & Hh1 & Hs1).
  assert (Hp1 : not_a_pthread b st1 = false)
    by (unfold not_a_pthread in *; by rewrite Hself1).
  assert (Hf2' : heap st1 !! a2 = None)
    by (rewrite Hh1, lookup_insert_ne; done).
  destruct (push_ok_stack b a2 B xb st1 _ Hp1 Hz2 Hf2' Hs1)
    as (st2 & E2 & Hsp2 & Hi2 & Hself2 & Hk2 & Hh2 & Hs2).
  assert (Hp2 : not_a_pthread b st2 = false)
    by (unfold not_a_pthread in *; by rewrite Hself2).
  destruct (pop_ok_stack b 1 st2 _ _ _ Hp2 Hs2)
    as (st3 & E3 & Hsp3 & Hself3 & Hk3 & Hh3 & Hi3 & Hs3).
  assert (Hp3 : not_a_pthread b st3 = false)
    by (unfold not_a_pthread in *; by rewrite Hself3).
  destruct (pop_ok_stack b 1 st3 _ _ _ Hp3 Hs3)
    as (st4 & E4 & Hsp4 & Hself4 & Hk4 & Hh4 & Hi4 & Hs4).
  assert (Hp4 : not_a_pthread b st4 = false)
    by (unfold not_a_pthread in *; by rewrite Hself4).
  simpl in Hsp3, Hsp4, Hi3, Hi4. rewrite Hsp1 in Hsp3. rewrite Hnull in Hsp4.
  exists st1, st2, st3, st4. repeat split; try done.
  - by rewrite Hi3, Hi2, Hi1.
  - intros seterr execute. rewrite pop_empty by done.
    rewrite thread_init_created; [done|].
    done.
  - rewrite Hh4, Hh3, Hh2, Hh1.
    rewrite delete_insert_id by (rewrite lookup_insert_ne; done).
    by rewrite delete_insert_id.
Qed.

Lemma cleanup_pop_is_lifo_witness :
  ∃ st1 st2 st3 st4,
    ddsrt_thread_cleanup_push linux_build 4096 0 700 7 fresh_thread
      = (DDS_RETCODE_OK, st1) ∧
    ddsrt_thread_cleanup_push linux_build 8192 0 800 8 st1 = (DDS_RETCODE_OK, st2) ∧
    ddsrt_thread_cleanup_pop linux_build 0 1 st2 = Some (DDS_RETCODE_OK, st3) ∧
    invoked st3 = (invoked fresh_thread ++ [(800, 8)])%list ∧
    ddsrt_thread_cleanup_pop linux_build 0 1 st3 = Some (DDS_RETCODE_OK, st4) ∧
    invoked st4 = (invoked st3 ++ [(700, 7)])%list ∧
    (∀ seterr execute,
       ddsrt_thread_cleanup_pop linux_build seterr execute st4
         = Some (DDS_RETCODE_OK, st4)) ∧
    specific st4 = NULL ∧ heap st4 = heap fresh_thread.
Proof.
  apply (cleanup_pop_is_lifo linux_build fresh_thread 700 7 800 8 4096 8192);
    try reflexivity; unfold NULL; lia.
Defined.

(** C6: a thread that terminates with records still on its stack has the
    whole stack unwound by the key destructor: the routine of every record
    is called with its argument, once per record, most recently pushed
    first, every record is released and nothing else is. *)
Theorem thread_exit_unwinds_stack st l :
  key_created st = true →
  stack (heap st) (specific st) l →
  ∃ st', thread_exit st = Some st' ∧
         invoked st' = (invoked st ++ calls l)%list ∧
         NoDup (l.*1) ∧
         (∀ a, heap st' !! a = if decide (a ∈ l.*1) then None else heap st !! a) ∧
         specific st' = NULL.
Proof.
  intros Hk Hs. unfold thread_exit. rewrite Hk. simpl.
  destruct (specific st =? NULL) eqn:Hnull; simpl.
  - apply Z.eqb_eq in Hnull. rewrite Hnull in Hs.
    destruct l as [|[a r] l]; simpl in Hs.
    + exists st. simpl. rewrite app_nil_r. split_and!; try done.
      constructor.
    + destruct Hs as (<- & Hnz & _). done.
  - rewrite (fini_stack l); [|done].
    eexists; split; [reflexivity|]. simpl. split_and!; try done.
    + by eapply stack_NoDup.
    + intros a. apply released_lookup.
Qed.

Lemma thread_exit_unwinds_stack_witness :
  ∃ st', thread_exit thread_with_two_records = Some st' ∧
         invoked st' = [(800, 8); (700, 7)] ∧
         NoDup [8192; 4096] ∧
         (∀ a, heap st' !! a =
               if decide (a ∈ [8192; 4096]) then None
               else heap thread_with_two_records !! a) ∧
         specific st' = NULL.
Proof.
  apply (thread_exit_unwinds_stack thread_with_two_records
           [(8192, record_B); (4096, record_A)]).
  - reflexivity.
  - simpl. repeat split; try done; vm_compute; reflexivity.
Defined.

(** The scenario of a thread that pushes A, then B, and ends without a
    pop: B is called, then A. *)
Lemma push_push_exit_calls_in_reverse b st A xa B xb a1 a2 :
  not_a_pthread b st = false →
  specific st = NULL →
  a1 ≠ NULL → a2 ≠ NULL → a1 ≠ a2 →
  heap st !! a1 = None → heap st !! a2 = None →
  ∃ st1 st2 st3,
    ddsrt_thread_cleanup_push b a1 0 A xa st = (DDS_RETCODE_OK, st1) ∧
    ddsrt_thread_cleanup_push b a2 0 B xb st1 = (DDS_RETCODE_OK, st2) ∧
    thread_exit st2 = Some st3 ∧
    invoked st3 = (invoked st ++ [(B, xb); (A, xa)])%list.
Proof.
  intros Hp Hnull Hz1 Hz2 Hne Hf1 Hf2.
  assert (Hs0 : stack (heap st) (specific st) []) by (simpl; done).
  destruct (push_ok_stack b a1 A xa st [] Hp Hz1 Hf1 Hs0)
    as (st1 & E1 & Hsp1 & Hi1 & Hself1 & Hk1 & Hh1 & Hs1).
  assert (Hp1 : not_a_pthread b st1 = false)
    by (unfold not_a_pthread in *; by rewrite Hself1).
  assert (Hf2' : heap st1 !! a2 = None)
    by (rewrite Hh1, lookup_insert_ne; done).
  destruct (push_ok_stack b a2 B xb st1 _ Hp1 Hz2 Hf2' Hs1)
    as (st2 & E2 & Hsp2 & Hi2 & Hself2 & Hk2 & Hh2 & Hs2).
  rewrite Hsp2 in Hs2.
  pose proof (fini_stack _ (set_specific NULL st2) a2 Hs2) as Hfini.
  exists st1, st2. eexists. split_and!; [done | done | |].
  - unfold thread_exit. rewrite Hk2, Hsp2. simpl.
    rewrite (proj2 (Z.eqb_neq _ _) Hz2). simpl. exact Hfini.
  - simpl. by rewrite Hi2, Hi1.
Qed.

(** C8: when the allocation of the record fails, push returns
    OUT_OF_RESOURCES and neither the head of the stack nor any record has
    changed; no routine was called either. *)
Theorem cleanup_push_alloc_failure_is_atomic b seterr r x st :
  not_a_pthread b st = false →
  ∃ st', ddsrt_thread_cleanup_push b NULL seterr r x st
           = (DDS_RETCODE_OUT_OF_RESOURCES, st') ∧
         specific st' = specific st ∧ heap st' = heap st ∧
         invoked st' = invoked st.
Proof.
  intros Hp. unfold ddsrt_thread_cleanup_push. rewrite Hp. simpl.
  eexists; split; [reflexivity|]. done.
Qed.

Lemma cleanup_push_alloc_failure_is_atomic_witness :
  ∃ st', ddsrt_thread_cleanup_push linux_build NULL 12 900 9 thread_with_two_records
           = (DDS_RETCODE_OUT_OF_RESOURCES, st') ∧
         specific st' = specific thread_with_two_records ∧
         heap st' = heap thread_with_two_records ∧
         invoked st' = invoked thread_with_two_records.
Proof.
  apply (cleanup_push_alloc_failure_is_atomic linux_build 12 900 9
           thread_with_two_records).
  reflexivity.
Defined.

(** C10: [ddsrt_thread_fini] unwinds the stack of the calling thread and
    leaves the head empty, so a second [ddsrt_thread_fini] and the key
    destructor at thread exit find nothing to call: over all of them the
    routine of each record (the records sit at distinct addresses) has
    been called once and no more. *)
Theorem thread_fini_is_idempotent st l reason :
  stack (heap st) (specific st) l →
  ∃ st1, ddsrt_thread_fini reason st = Some st1 ∧
         invoked st1 = (invoked st ++ calls l)%list ∧
         NoDup (l.*1) ∧
         specific st1 = NULL ∧
         (∀ reason', ddsrt_thread_fini reason' st1 = Some st1) ∧
         thread_exit st1 = Some st1.
Proof.
  intros Hs. unfold ddsrt_thread_fini, pthread_getspecific. simpl.
  destruct (specific st =? NULL) eqn:Hnull; simpl.
  - apply Z.eqb_eq in Hnull. rewrite Hnull in Hs.
    destruct l as [|[a r] l]; simpl in Hs.
    + exists (thread_init st). simpl. rewrite app_nil_r, Hnull.
      split_and!; try done; [constructor|].
      unfold thread_exit. simpl. by rewrite Hnull.
    + destruct Hs as (<- & Hnz & _). done.
  - rewrite (fini_stack l (thread_init st) (specific st)); [|done]. simpl.
    eexists; split; [reflexivity|]. simpl. split_and!; try done.
    by eapply stack_NoDup.
Qed.

Lemma thread_fini_is_idempotent_witness :
  ∃ st1, ddsrt_thread_fini 0 thread_with_two_records = Some st1 ∧
         invoked st1 = [(800, 8); (700, 7)] ∧
         NoDup [8192; 4096] ∧
         specific st1 = NULL ∧
         (∀ reason', ddsrt_thread_fini reason' st1 = Some st1) ∧
         thread_exit st1 = Some st1.
Proof.
  apply (thread_fini_is_idempotent thread_with_two_records
           [(8192, record_B); (4096, record_A)] 0).
  simpl. repeat split; try done; vm_compute; reflexivity.
Defined.

End CleanupFacts.

(** ** Cleanup stack: sequences of calls *)

Section CleanupSequences.
Import Cleanup.

Lemma not_a_pthread_self b st st' :
  self st' = self st → not_a_pthread b st' = not_a_pthread b st.
Proof. unfold not_a_pthread. by intros ->. Qed.

Lemma stack_heap_ext l : ∀ h1 h2 p,
  (∀ a, a ∈ l.*1 → h1 !! a = h2 !! a) → stack h1 p l → stack h2 p l.
Proof.
  induction l as [|[a r] l IH]; intros h1 h2 p Hext; simpl; [done|].
  intros (-> & Hnz & Hl & Hs). split_and!; [done | done | |].
  - rewrite <- Hext; [done | by left].
  - apply (IH (delete a h1)); [|done].
    intros a' Hin. destruct (decide (a' = a)) as [->|Hne].
    + by rewrite !lookup_delete_eq.
    + rewrite !lookup_delete_ne by done. apply Hext. by right.
Qed.

Lemma stack_app_not_in l1 : ∀ l2 h p a,
  stack h p (l1 ++ l2) → h !! a = None → a ∉ (l1 ++ l2).*1.
Proof.
  induction l1 as [|[a1 r1] l1 IH]; intros l2 h p a; simpl.
  - revert h p. induction l2 as [|[a2 r2] l2 IH2]; intros h p; simpl.
    + intros _ _ Hin. by apply elem_of_nil in Hin.
    + intros (-> & _ & Hl & Hs) Hnone [->|Hin]%elem_of_cons; [congruence|].
      revert Hin. eapply IH2; [exact Hs|]. apply lookup_delete_None. by right.
  - intros (-> & _ & Hl & Hs) Hnone [->|Hin]%elem_of_cons; [congruence|].
    revert Hin. eapply IH; [exact Hs|]. apply lookup_delete_None. by right.
Qed.

(** The state after a run of pushes that the allocator serves with usable
    blocks. *)
Lemma push_all_stack b reqs : ∀ st l,
  not_a_pthread b st = false →
  fresh_blocks (heap st) reqs →
  stack (heap st) (specific st) l →
  ∃ st' newl,
    push_all b reqs st = (DDS_RETCODE_OK, st') ∧
    stack (heap st') (specific st') (newl ++ l) ∧
    calls newl = rev (requested_calls reqs) ∧
    newl.*1 = rev (reqs.*1) ∧
    invoked st' = invoked st ∧ self st' = self st ∧
    (reqs ≠ [] → key_created st' = true) ∧
    (reqs = [] → st' = st) ∧
    (∀ a, a ∉ reqs.*1 → heap st' !! a = heap st !! a).
Proof.
  induction reqs as [|[a [f x]] rest IH]; intros st l Hp [Hnd Hfresh] Hs.
  - exists st, []. simpl. split_and!; done.
  - simpl in Hnd, Hfresh. apply NoDup_cons in Hnd as [Hnotin Hnd].
    apply Forall_cons in Hfresh as [[Hnz Hnone] Hfresh].
    destruct (push_ok_stack b a f x st l Hp Hnz Hnone Hs)
      as (st1 & E1 & Hsp1 & Hi1 & Hself1 & Hk1 & Hh1 & Hs1).
    destruct (IH st1 ((a, {| prev := specific st; routine := f; arg := x |}) :: l))
      as (st' & newl & E' & Hs' & Hc' & Ha' & Hi' & Hself' & Hk' & _ & Hh').
    { by rewrite (not_a_pthread_self b st st1). }
    { split; [done|]. apply Forall_forall. intros a' Hin.
      destruct (proj1 (Forall_forall _ _) Hfresh a' Hin) as [Hnz' Hnone'].
      split; [done|]. rewrite Hh1, lookup_insert_ne; [done|]. by intros ->. }
    { exact Hs1. }
    exists st', (newl ++ [(a, {| prev := specific st; routine := f; arg := x |})]).
    simpl. rewrite E1. simpl. split_and!.
    + done.
    + by rewrite <- app_assoc.
    + unfold calls in *. rewrite map_app, Hc'. unfold requested_calls. simpl. done.
    + rewrite fmap_app, Ha'. done.
    + congruence.
    + congruence.
    + intros _. destruct rest; [|by apply Hk'].
      simpl in E'. by injection E' as <-.
    + done.
    + intros a' Hnin. rewrite Hh'; [|intros Hin; apply Hnin; by right].
      rewrite Hh1, lookup_insert_ne; [done|]. intros ->. apply Hnin. by left.
Qed.

(** The state after as many pops as there are records on top. *)
Lemma pop_times_stack b newl : ∀ st l,
  not_a_pthread b st = false →
  stack (heap st) (specific st) (newl ++ l) →
  ∃ st', pop_times b (length newl) st = Some (DDS_RETCODE_OK, st') ∧
         stack (heap st') (specific st') l ∧
         invoked st' = (invoked st ++ calls newl)%list ∧
         heap st' = released newl (heap st) ∧ self st' = self st.
Proof.
  induction newl as [|[a r] newl IH]; intros st l Hp Hs.
  - exists st. simpl. rewrite app_nil_r. done.
  - simpl in Hs.
    destruct (pop_ok_stack b 1 st a r (newl ++ l) Hp Hs)
      as (st1 & E1 & Hsp1 & Hself1 & Hk1 & Hh1 & Hi1 & Hs1).
    destruct (IH st1 l) as (st' & E' & Hs' & Hi' & Hh' & Hself');
      [by rewrite (not_a_pthread_self b st st1) | done |].
    exists st'. simpl. rewrite E1. simpl. split_and!; try done.
    + rewrite Hi', Hi1. simpl. by rewrite <- app_assoc.
    + by rewrite Hh', Hh1.
    + congruence.
Qed.

Lemma released_restores (newl : list (Z * thread_cleanup_t))
    (reqs : list (Z * (Z * Z))) (h h1 : gmap Z thread_cleanup_t) :
  newl.*1 = rev (reqs.*1) →
  Forall (λ a, a ≠ NULL ∧ h !! a = None) (reqs.*1) →
  (∀ a, a ∉ reqs.*1 → h1 !! a = h !! a) →
  released newl h1 = h.
Proof.
  intros Haddr Hfresh Hother. apply map_eq. intros a.
  rewrite released_lookup, Haddr.
  destruct (decide (a ∈ rev (reqs.*1))) as [Hin|Hnin].
  - rewrite list_elem_of_In, <- in_rev, <- list_elem_of_In in Hin.
    by destruct (proj1 (Forall_forall _ _) Hfresh a Hin) as [_ ->].
  - apply Hother. intros Hin. apply Hnin.
    by rewrite list_elem_of_In, <- in_rev, <- list_elem_of_In.
Qed.

(** X1: any number of pushes followed by as many pops (execute) call the
    routines in the reverse order of the pushes, free the records again
    and leave the records that were on the stack before untouched and on
    the stack. *)
Theorem pushes_then_pops_restore_stack b reqs st l :
  not_a_pthread b st = false →
  fresh_blocks (heap st) reqs →
  stack (heap st) (specific st) l →
  ∃ st1 st2,
    push_all b reqs st = (DDS_RETCODE_OK, st1) ∧
    pop_times b (length reqs) st1 = Some (DDS_RETCODE_OK, st2) ∧
    invoked st2 = (invoked st ++ rev (requested_calls reqs))%list ∧
    specific st2 = specific st ∧ heap st2 = heap st ∧
    stack (heap st2) (specific st2) l.
Proof.
  intros Hp Hfresh Hs.
  destruct (push_all_stack b reqs st l Hp Hfresh Hs)
    as (st1 & newl & E1 & Hs1 & Hc1 & Ha1 & Hi1 & Hself1 & _ & _ & Hh1).
  assert (Hlen : length reqs = length newl).
  { rewrite <- (length_fmap fst reqs), <- (length_fmap fst newl), Ha1.
    by rewrite length_rev. }
  destruct (pop_times_stack b newl st1 l) as (st2 & E2 & Hs2 & Hi2 & Hh2 & _);
    [by rewrite (not_a_pthread_self b st st1) | done |].
  assert (Hheap : heap st2 = heap st).
  { rewrite Hh2. eapply released_restores; [done | apply Hfresh | done]. }
  assert (Hspec : specific st2 = specific st).
  { rewrite Hheap in Hs2. clear -Hs Hs2.
    destruct l as [|[a r] l]; simpl in *; [congruence|].
    destruct Hs as (-> & _), Hs2 as (-> & _). done. }
  exists st1, st2. split_and!; try done.
  - by rewrite Hlen.
  - by rewrite Hi2, Hi1, Hc1.
Qed.

Ltac fresh_blocks_tac :=
  split;
    [ apply NoDup_ListNoDup; simpl;
      repeat (apply List.NoDup_cons; [simpl; intuition lia|]); apply List.NoDup_nil
    | simpl; repeat (constructor; [split; [unfold NULL; lia | reflexivity]|]);
      constructor ].

Lemma pushes_then_pops_restore_stack_witness :
  ∃ st1 st2,
    push_all linux_build three_requests thread_with_two_records
      = (DDS_RETCODE_OK, st1) ∧
    pop_times linux_build 3 st1 = Some (DDS_RETCODE_OK, st2) ∧
    invoked st2 = [(900, 9); (800, 8); (700, 7)] ∧
    specific st2 = 8192 ∧ heap st2 = heap thread_with_two_records ∧
    stack (heap st2) (specific st2) [(8192, record_B); (4096, record_A)].
Proof.
  apply (pushes_then_pops_restore_stack linux_build three_requests
           thread_with_two_records [(8192, record_B); (4096, record_A)]).
  - reflexivity.
  - fresh_blocks_tac.
  - simpl. repeat split; try done; vm_compute; reflexivity.
Defined.

(** X2: a thread that pushes any number of records on an empty stack and
    ends without a pop has all of them unwound at exit, the last pushed
    first; the records are released and the key is left empty. *)
Theorem pushes_then_exit_unwind_in_reverse b reqs st :
  not_a_pthread b st = false →
  specific st = NULL →
  fresh_blocks (heap st) reqs →
  ∃ st1 st2,
    push_all b reqs st = (DDS_RETCODE_OK, st1) ∧
    thread_exit st1 = Some st2 ∧
    invoked st2 = (invoked st ++ rev (requested_calls reqs))%list ∧
    specific st2 = NULL ∧ heap st2 = heap st.
Proof.
  intros Hp Hnull Hfresh.
  assert (Hs : stack (heap st) (specific st) []) by done.
  destruct (push_all_stack b reqs st [] Hp Hfresh Hs)
    as (st1 & newl & E1 & Hs1 & Hc1 & Ha1 & Hi1 & Hself1 & Hk1 & Hnil & Hh1).
  rewrite app_nil_r in Hs1.
  exists st1. destruct reqs as [|req reqs].
  - rewrite (Hnil eq_refl) in *. exists st. simpl. rewrite app_nil_r.
    split_and!; try done. unfold thread_exit. rewrite Hnull. simpl.
    by rewrite andb_false_r.
  - unfold thread_exit. rewrite Hk1 by done. simpl.
    destruct (specific st1 =? NULL) eqn:Hz; simpl.
    + apply Z.eqb_eq in Hz. rewrite Hz in Hs1.
      destruct newl as [|[a r] newl]; [by destruct (rev _) eqn:E in Ha1;
        [apply (f_equal (@length _)) in E; rewrite length_rev in E|]|].
      simpl in Hs1. destruct Hs1 as (<- & Hnz & _). done.
    + rewrite (fini_stack newl (set_specific NULL st1) (specific st1)) by done.
      eexists. split_and!; [done | reflexivity | simpl; by rewrite Hi1, Hc1 | done |].
      simpl. eapply released_restores; [done | apply Hfresh | done].
Qed.

Lemma pushes_then_exit_unwind_in_reverse_witness :
  ∃ st1 st2,
    push_all linux_build three_requests fresh_thread = (DDS_RETCODE_OK, st1) ∧
    thread_exit st1 = Some st2 ∧
    invoked st2 = [(900, 9); (800, 8); (700, 7)] ∧
    specific st2 = NULL ∧ heap st2 = heap fresh_thread.
Proof.
  apply (pushes_then_exit_unwind_in_reverse linux_build three_requests fresh_thread).
  - reflexivity.
  - reflexivity.
  - fresh_blocks_tac.
Defined.

(** X3: from a well-formed stack no call runs into a dangling record, and
    each leaves a well-formed stack: push whatever the allocator and
    [pthread_setspecific] answer (the block being NULL or not live), pop
    whatever its flag and the answer, [ddsrt_thread_fini], and the
    destructor at thread exit. *)
Theorem cleanup_stack_stays_well_formed b st :
  well_formed st →
  (∀ alloc seterr f x,
     alloc = NULL ∨ heap st !! alloc = None →
     well_formed (ddsrt_thread_cleanup_push b alloc seterr f x st).2) ∧
  (∀ seterr execute,
     ∃ rc st', ddsrt_thread_cleanup_pop b seterr execute st = Some (rc, st') ∧
               well_formed st') ∧
  (∀ reason, ∃ st', ddsrt_thread_fini reason st = Some st' ∧ well_formed st') ∧
  (∃ st', thread_exit st = Some st' ∧ well_formed st').
Proof.
  intros [l Hs]. split_and!.
  - intros alloc seterr f x Hfresh. unfold ddsrt_thread_cleanup_push.
    destruct (not_a_pthread b st); [by exists l|].
    destruct (alloc =? NULL) eqn:Hz; simpl; [by exists l|].
    destruct Hfresh as [->|Hnone]; [done|].
    unfold pthread_setspecific. rewrite Hz. simpl.
    destruct (seterr =? 0) eqn:He; simpl; rewrite ?He; simpl.
    + eexists ((alloc, _) :: l). simpl. split_and!; [done | by apply Z.eqb_neq | |].
      * apply lookup_insert_eq.
      * by rewrite delete_insert_id.
    + exists l. unfold ddsrt_free, set_heap. simpl. by rewrite delete_insert_id.
  - intros seterr execute. unfold ddsrt_thread_cleanup_pop.
    destruct (not_a_pthread b st); [eexists _, _; split; [reflexivity | by exists l]|].
    unfold pthread_getspecific. simpl.
    destruct l as [|[a r] l]; simpl in Hs.
    + rewrite Hs. simpl. eexists _, _. split; [reflexivity|]. exists []. done.
    + destruct Hs as (Hsp & Hnz & Hl & Hs). rewrite Hsp.
      rewrite (proj2 (Z.eqb_neq _ _) Hnz). simpl. rewrite Hl. simpl.
      unfold pthread_setspecific.
      destruct (prev r =? NULL) eqn:Hpr, (seterr =? 0) eqn:He; simpl;
        rewrite ?He; simpl.
      1-3: eexists _, _; split; [reflexivity|]; exists l;
           by destruct (execute =? 0).
      eexists _, _. split; [reflexivity|]. exists ((a, r) :: l). simpl. done.
  - intros reason. unfold ddsrt_thread_fini, pthread_getspecific. simpl.
    destruct (specific st =? NULL) eqn:Hz; simpl.
    + eexists. split; [reflexivity|]. by exists l.
    + rewrite (fini_stack l (thread_init st) (specific st)) by done. simpl.
      eexists. split; [reflexivity|]. by exists [].
  - unfold thread_exit.
    destruct (key_created st && negb (specific st =? NULL)) eqn:Hc.
    + rewrite (fini_stack l (set_specific NULL st) (specific st)) by done.
      eexists. split; [reflexivity|]. by exists [].
    + eexists. split; [reflexivity|]. by exists l.
Qed.

Lemma cleanup_stack_stays_well_formed_witness :
  (∀ alloc seterr f x,
     alloc = NULL ∨ heap thread_with_two_records !! alloc = None →
     well_formed
       (ddsrt_thread_cleanup_push linux_build alloc seterr f x
          thread_with_two_records).2) ∧
  (∀ seterr execute,
     ∃ rc st',
       ddsrt_thread_cleanup_pop linux_build seterr execute thread_with_two_records
         = Some (rc, st') ∧ well_formed st') ∧
  (∀ reason, ∃ st', ddsrt_thread_fini reason thread_with_two_records = Some st' ∧
                    well_formed st') ∧
  (∃ st', thread_exit thread_with_two_records = Some st' ∧ well_formed st').
Proof.
  apply (cleanup_stack_stays_well_formed linux_build thread_with_two_records).
  exists [(8192, record_B); (4096, record_A)].
  simpl. repeat split; try done; vm_compute; reflexivity.
Defined.

(** X4: a push followed by a pop that does not execute is a round trip:
    the stack and the records are as before the push (only the key is
    known to exist now), and no routine was called. *)
Theorem push_then_pop_without_execute_is_identity b a f x st :
  not_a_pthread b st = false →
  a ≠ NULL → heap st !! a = None →
  ∃ st1, ddsrt_thread_cleanup_push b a 0 f x st = (DDS_RETCODE_OK, st1) ∧
         ddsrt_thread_cleanup_pop b 0 0 st1 = Some (DDS_RETCODE_OK, thread_init st).
Proof.
  intros Hp Hnz Hnone. apply Z.eqb_neq in Hnz as Hz.
  unfold ddsrt_thread_cleanup_push. rewrite Hp, Hz. simpl.
  unfold pthread_setspecific. rewrite Hz. simpl.
  eexists. split; [reflexivity|].
  unfold ddsrt_thread_cleanup_pop.
  replace (not_a_pthread b _) with false by (by rewrite <- Hp).
  unfold pthread_getspecific. simpl. rewrite Hz. simpl.
  rewrite lookup_insert_eq. simpl. unfold pthread_setspecific.
  rewrite orb_true_r. simpl. unfold ddsrt_free, set_heap, thread_init. simpl.
  rewrite delete_insert_id by done. reflexivity.
Qed.

Lemma push_then_pop_without_execute_is_identity_witness :
  ∃ st1,
    ddsrt_thread_cleanup_push linux_build 16384 0 900 9 thread_with_two_records
      = (DDS_RETCODE_OK, st1) ∧
    ddsrt_thread_cleanup_pop linux_build 0 0 st1
      = Some (DDS_RETCODE_OK, thread_init thread_with_two_records).
Proof.
  apply (push_then_pop_without_execute_is_identity linux_build 16384 900 9
           thread_with_two_records); [reflexivity | unfold NULL; lia | reflexivity].
Defined.

(** X5: a pop on a stack that holds a record always returns, with OK or
    OUT_OF_RESOURCES.  It fails only when [pthread_setspecific] answers an
    error, and then nothing has happened: no routine was called, no
    record was freed, and the head is where it was.  When it returns OK
    the head record is freed, the head is the record below, and the
    routine of the freed record was called once with its argument if
    [execute] is not 0 and not at all if it is 0. *)
Theorem cleanup_pop_failure_is_atomic b seterr execute st a r l :
  not_a_pthread b st = false →
  stack (heap st) (specific st) ((a, r) :: l) →
  ∃ rc st',
    ddsrt_thread_cleanup_pop b seterr execute st = Some (rc, st') ∧
    (seterr = 0 → rc = DDS_RETCODE_OK) ∧
    ((rc = DDS_RETCODE_OUT_OF_RESOURCES ∧ seterr ≠ 0 ∧
      heap st' = heap st ∧ specific st' = specific st ∧
      invoked st' = invoked st) ∨
     (rc = DDS_RETCODE_OK ∧
      heap st' = delete a (heap st) ∧ heap st' !! a = None ∧
      specific st' = prev r ∧
      invoked st' = (invoked st
                     ++ if execute =? 0 then [] else [(routine r, arg r)])%list ∧
      stack (heap st') (specific st') l)).
Proof.
  intros Hp (Hsp & Hnz & Hl & Hs).
  unfold ddsrt_thread_cleanup_pop. rewrite Hp.
  unfold pthread_getspecific. simpl. rewrite Hsp.
  rewrite (proj2 (Z.eqb_neq _ _) Hnz). simpl. rewrite Hl. simpl.
  unfold pthread_setspecific.
  destruct (prev r =? NULL) eqn:Hpr, (seterr =? 0) eqn:He; simpl;
    rewrite ?He; simpl; rewrite ?Z.eqb_eq, ?Z.eqb_neq in *.
  1-3: eexists _, _; split; [reflexivity|]; split; [done|]; right;
       destruct (execute =? 0); simpl; rewrite ?app_nil_r;
       split_and!; try done; apply lookup_delete_eq.
  eexists _, _. split; [reflexivity|]. split; [done|]. left. done.
Qed.

Lemma cleanup_pop_failure_is_atomic_witness :
  (∃ st',
     ddsrt_thread_cleanup_pop linux_build 12 1 thread_with_two_records
       = Some (DDS_RETCODE_OUT_OF_RESOURCES, st') ∧
     heap st' = heap thread_with_two_records ∧ specific st' = 8192 ∧
     invoked st' = []) ∧
  (∃ st',
     ddsrt_thread_cleanup_pop linux_build 0 1 thread_with_two_records
       = Some (DDS_RETCODE_OK, st') ∧
     heap st' !! 8192 = None ∧ specific st' = 4096 ∧
     invoked st' = [(800, 8)]).
Proof.
  assert (Hs : stack (heap thread_with_two_records)
                 (specific thread_with_two_records)
                 [(8192, record_B); (4096, record_A)]).
  { simpl. repeat split; try done; vm_compute; reflexivity. }
  split.
  - destruct (cleanup_pop_failure_is_atomic linux_build 12 1
                thread_with_two_records 8192 record_B [(4096, record_A)]
                eq_refl Hs) as (rc & st' & Hpop & _ & Hcase).
    exists st'.
    destruct Hcase as [(-> & _ & Hh & Hsp & Hi)|(-> & _ & Hn & _)].
    + split_and!; [exact Hpop | exact Hh | exact Hsp | exact Hi].
    + vm_compute in Hpop. discriminate Hpop.
  - destruct (cleanup_pop_failure_is_atomic linux_build 0 1
                thread_with_two_records 8192 record_B [(4096, record_A)]
                eq_refl Hs) as (rc & st' & Hpop & Hok & Hcase).
    rewrite (Hok eq_refl) in *. exists st'. split; [exact Hpop|].
    destruct Hcase as [(Hbad & _)|(_ & _ & Hn & Hsp & Hi & _)]; [discriminate Hbad|].
    split_and!; [exact Hn | exact Hsp | exact Hi].
Defined.

(** X6: when [pthread_setspecific] fails after the record was allocated,
    push frees the record again: it returns OUT_OF_RESOURCES with the head
    and the live records as they were, and nothing called. *)
Theorem cleanup_push_setspecific_failure_releases_record b a seterr f x st :
  not_a_pthread b st = false →
  a ≠ NULL → heap st !! a = None → seterr ≠ 0 →
  ddsrt_thread_cleanup_push b a seterr f x st
    = (DDS_RETCODE_OUT_OF_RESOURCES, thread_init st).
Proof.
  intros Hp Hnz%Z.eqb_neq Hnone Herr%Z.eqb_neq.
  unfold ddsrt_thread_cleanup_push. rewrite Hp, Hnz. simpl.
  unfold pthread_setspecific. rewrite Hnz, Herr. simpl. rewrite Herr. simpl.
  unfold ddsrt_free, set_heap, thread_init. simpl.
  by rewrite delete_insert_id.
Qed.

Lemma cleanup_push_setspecific_failure_releases_record_witness :
  ddsrt_thread_cleanup_push linux_build 16384 12 900 9 thread_with_two_records
    = (DDS_RETCODE_OUT_OF_RESOURCES, thread_init thread_with_two_records).
Proof.
  apply (cleanup_push_setspecific_failure_releases_record linux_build 16384 12
           900 9 thread_with_two_records);
    [reflexivity | unfold NULL; lia | reflexivity | lia].
Defined.

(** X7: push and pop answer UNSUPPORTED exactly on Zephyr when the caller
    is not a pthread (its id is not below CONFIG_MAX_PTHREAD_COUNT), and
    then nothing is touched, not even the key. *)
Theorem cleanup_unsupported_iff_not_a_pthread b alloc seterr f x execute st :
  ((ddsrt_thread_cleanup_push b alloc seterr f x st).1 = DDS_RETCODE_UNSUPPORTED
   ↔ ZEPHYR b = true ∧ CONFIG_MAX_PTHREAD_COUNT b ≤ self st) ∧
  (fst <$> ddsrt_thread_cleanup_pop b seterr execute st = Some DDS_RETCODE_UNSUPPORTED
   ↔ ZEPHYR b = true ∧ CONFIG_MAX_PTHREAD_COUNT b ≤ self st) ∧
  (ZEPHYR b = true ∧ CONFIG_MAX_PTHREAD_COUNT b ≤ self st →
   ddsrt_thread_cleanup_push b alloc seterr f x st = (DDS_RETCODE_UNSUPPORTED, st) ∧
   ddsrt_thread_cleanup_pop b seterr execute st = Some (DDS_RETCODE_UNSUPPORTED, st)).
Proof.
  assert (Hiff : not_a_pthread b st = true
                 ↔ ZEPHYR b = true ∧ CONFIG_MAX_PTHREAD_COUNT b ≤ self st).
  { unfold not_a_pthread. rewrite andb_true_iff, Z.leb_le. done. }
  split_and!.
  - rewrite <- Hiff. unfold ddsrt_thread_cleanup_push.
    destruct (not_a_pthread b st); [done|].
    split; [|done]. destruct (alloc =? NULL); simpl; [done|].
    unfold pthread_setspecific.
    destruct (alloc =? NULL) eqn:Ha, (seterr =? 0) eqn:He; simpl;
      rewrite ?He; simpl; done.
  - rewrite <- Hiff. unfold ddsrt_thread_cleanup_pop.
    destruct (not_a_pthread b st); [done|].
    split; [|done]. unfold pthread_getspecific. simpl.
    destruct (specific st =? NULL); simpl; [done|].
    destruct (heap st !! specific st) as [r|]; simpl; [|done].
    unfold pthread_setspecific.
    destruct (prev r =? NULL) eqn:Hpr, (seterr =? 0) eqn:He; simpl;
      rewrite ?He; simpl; done.
  - intros H%Hiff. unfold ddsrt_thread_cleanup_push, ddsrt_thread_cleanup_pop.
    by rewrite H.
Qed.

End CleanupSequences.

(** ** Thread creation and join *)

Section CreateFacts.
Import Threads.

(** Rules of the weakest-precondition reading [wp] of the stages. *)

Lemma wp_ret {A} (a : A) st Q : Q (inr a) st [] → wp (ret a) st Q.
Proof. done. Qed.
Lemma wp_leave {A} e st (Q : exit + A → _) : Q (inl e) st [] → wp (leave e) st Q.
Proof. done. Qed.
Lemma wp_emit e st Q : Q (inr tt) st [e] → wp (emit e) st Q.
Proof. done. Qed.
Lemma wp_get st Q : Q (inr st) st [] → wp get st Q.
Proof. done. Qed.
Lemma wp_put s st Q : Q (inr tt) s [] → wp (put s) st Q.
Proof. done. Qed.

Lemma wp_bind {A B} (m : M A) (k : A → M B) st Q :
  wp m st (λ r st1 ev1,
    match r with
    | inl e => Q (inl e) st1 ev1
    | inr a => wp (k a) st1 (λ r2 st2 ev2, Q r2 st2 (ev1 ++ ev2)%list)
    end) →
  wp (bind m k) st Q.
Proof.
  unfold wp, bind. destruct (m st) as [[[e|a] st1] ev1]; simpl; [done|].
  by destruct (k a st1) as [[r2 st2] ev2].
Qed.

Lemma wp_when c (m : M unit) st Q :
  (c = true → wp m st Q) → (c = false → Q (inr tt) st []) → wp (when c m) st Q.
Proof. destruct c; simpl; intros H1 H2; [by apply H1 | by apply wp_ret, H2]. Qed.

Lemma wp_sigprocmask how set st Q :
  Q (inr (sigmask st))
    {| sigmask := match how with
                  | SIG_BLOCK => Z.lor (sigmask st) set
                  | SIG_SETMASK => set
                  end;
       currThrIdx := currThrIdx st; threads := threads st |}
    [Ev_sigprocmask how set] →
  wp (sigprocmask how set) st Q.
Proof. done. Qed.

Lemma wp_pthread_create os ctx st Q :
  Q (inr (ans_pthread_create os))
    (if ans_pthread_create os =? 0
     then {| sigmask := sigmask st; currThrIdx := currThrIdx st;
             threads := <[new_thread os := ctx]> (threads st) |}
     else st)
    [Ev_pthread_create (sigmask st) ctx] →
  wp (pthread_create os ctx) st Q.
Proof. done. Qed.

(** A stage that has a specification can be used through it. *)
Lemma wp_spec {A} (m : M A) st Q :
  (∀ r st' evs, m st = (r, st', evs) → Q r st' evs) → wp m st Q.
Proof. intros H. unfold wp. apply H. by destruct (m st) as [[??]?]. Qed.

Ltac wp_step :=
  lazymatch goal with
  | |- wp (bind _ _) _ _ => apply wp_bind
  | |- wp (ret _) _ _ => apply wp_ret
  | |- wp (leave _) _ _ => apply wp_leave
  | |- wp (emit _) _ _ => apply wp_emit
  | |- wp (DDS_ERROR _ _) _ _ => apply wp_emit
  | |- wp (DDS_WARNING _ _) _ _ => apply wp_emit
  | |- wp get _ _ => apply wp_get
  | |- wp (put _) _ _ => apply wp_put
  | |- wp (when (negb ?c) _) _ _ =>
      apply wp_when; [intros ?%negb_true_iff | intros ?%negb_false_iff]
  | |- wp (when _ _) _ _ => apply wp_when; intros ?
  | |- wp (sigprocmask _ _) _ _ => apply wp_sigprocmask
  | |- wp (pthread_create _ _) _ _ => apply wp_pthread_create
  | |- wp (if negb ?c then _ else _) _ _ => destruct c eqn:?; cbn [negb]
  | |- wp (if ?c then _ else _) _ _ => destruct c eqn:?
  | |- wp (match ?c with Some _ => _ | None => _ end) _ _ => destruct c eqn:?
  | |- wp (let _ := _ in _) _ _ => cbv zeta
  end; cbv beta iota.

Ltac wp_run := repeat wp_step.

(** Turns a goal [m st = (r, st', evs) → G] into [wp m st (λ r st' evs, G)]. *)
Ltac wp_start :=
  let H := fresh "Hrun" in
  intros H;
  lazymatch type of H with
  | ?m ?st = (?r, ?st', ?evs) =>
      replace r with (m st).1.1 by (rewrite H; reflexivity);
      replace st' with (m st).1.2 by (rewrite H; reflexivity);
      replace evs with (m st).2 by (rewrite H; reflexivity);
      clear H;
      pattern (m st).1.1, (m st).1.2, (m st).2;
      lazymatch goal with |- ?F _ _ _ => change (wp m st F) end
  end.

Lemma override_stack_size_spec b n tattr st r st' evs :
  override_stack_size b n tattr st = (r, st', evs) →
  st' = st ∧ all_setup evs ∧ r ≠ inl Exit_err_create ∧
  ∀ t, r = inr t → same_request t tattr.
Proof.
  wp_start. unfold override_stack_size. wp_run;
    split_and!; try done; try (repeat constructor; done);
    intros t [= <-]; done.
Qed.

Lemma init_pattr_spec b os n tattr st r st' evs :
  init_pattr b os n tattr st = (r, st', evs) →
  sigmask st' = sigmask st ∧ threads st' = threads st ∧
  (ZEPHYR b = false → st' = st) ∧
  all_setup evs ∧ r ≠ inl Exit_err_create ∧
  ∀ t, r = inr t → same_request t tattr.
Proof.
  wp_start. unfold init_pattr. wp_run.
  all: simpl; split_and!; try done; try congruence.
  all: try (repeat constructor; done).
  all: intros t [= <-]; repeat case_match; done.
Qed.

Lemma fill_cpuset_spec b n cpus : ∀ cpuset st r st' evs,
  fill_cpuset b n cpus cpuset st = (r, st', evs) →
  st' = st ∧ all_setup evs ∧ r ≠ inl Exit_err_create.
Proof.
  induction cpus as [|cpu rest IH]; intros cpuset st r st' evs.
  - wp_start. simpl. wp_run. split_and!; [done | constructor | done].
  - wp_start. simpl. wp_run.
    + split_and!; [done | repeat constructor | done].
    + apply wp_spec. intros r2 st2 ev2 (-> & Hs & Hr)%IH. done.
Qed.

Lemma configure_affinity_spec b os n tattr st r st' evs :
  configure_affinity b os n tattr st = (r, st', evs) →
  st' = st ∧ all_setup evs ∧ r ≠ inl Exit_err_create.
Proof.
  wp_start. unfold configure_affinity. wp_run.
  2,3: split_and!; [done | repeat constructor | done].
  apply wp_spec. intros r1 st1 ev1 (-> & Hs & Hr)%fill_cpuset_spec.
  destruct r1 as [e|cpuset]; [split_and!; [done | done | congruence]|].
  wp_run; split_and!; try done; apply Forall_app; split; try done;
    repeat constructor.
Qed.

Lemma all_setup_app evs1 evs2 :
  all_setup evs1 → all_setup evs2 → all_setup (evs1 ++ evs2).
Proof. intros. by apply Forall_app. Qed.

Lemma all_setup_silent evs :
  all_setup evs →
  applied_priorities evs = [] ∧ warnings evs = [] ∧ spawn_masks evs = [].
Proof.
  induction 1 as [|e evs He _ IH]; [done|].
  destruct IH as (IH1 & IH2 & IH3).
  destruct e as [[] ? ?| | | | | | | | | | | | | | | | | | | | |];
    try discriminate He; split_and!; assumption.
Qed.

Lemma all_setup_no_sched evs :
  all_setup evs → Forall (λ e, is_sched_call e = false ∧ is_spawn e = false) evs.
Proof.
  intros H. eapply Forall_impl; [exact H|]. intros e He.
  destruct e as [[] ? ?| | | | | | | | | | | | | | | | | | | | |]; done.
Qed.

Ltac split_cooperative H :=
  unfold cooperative in H;
  repeat (let H' := fresh "Hok" in apply andb_prop in H as [H H']).

Lemma set_policy_and_priority_spec b os n tattr st r st' evs :
  set_policy_and_priority b os n tattr st = (r, st', evs) →
  st' = st ∧ spawn_masks evs = [] ∧ r ≠ inl Exit_err_create ∧
  ((applied_priorities evs = [applied_priority b os tattr] ∧
    warnings evs = expected_warnings b os tattr) ∨
   (r = inl Exit_err ∧ applied_priorities evs = [] ∧ warnings evs = [])).
Proof.
  wp_start.
  unfold set_policy_and_priority, applied_priority, expected_warnings,
    priority_in_range, class_policy, ambient_policy, ambient_priority.
  wp_run; simpl.
  all: split_and!; try done.
  all: try (by right).
  all: left; destruct (schedClass tattr); simpl in *; simplify_eq/=;
       repeat case_match; simplify_eq/=; done.
Qed.

(** With an operating system that refuses nothing the stage runs to its
    end. *)
Lemma set_policy_and_priority_ok b os n tattr st r st' evs :
  cooperative os = true →
  set_policy_and_priority b os n tattr st = (r, st', evs) →
  r = inr tt.
Proof.
  intros Hc. split_cooperative Hc. wp_start.
  unfold set_policy_and_priority. repeat (wp_step; try congruence).
  all: done.
Qed.

Lemma configure_scheduling_spec b os n tattr st r st' evs :
  configure_scheduling b os n tattr st = (r, st', evs) →
  st' = st ∧ spawn_masks evs = [] ∧ r ≠ inl Exit_err_create.
Proof.
  unfold configure_scheduling. destruct (negb (ZEPHYR b) && is_default (schedClass tattr)).
  - wp_start. wp_run; done.
  - intros (? & ? & ? & _)%set_policy_and_priority_spec. done.
Qed.

(** Outside Zephyr the DEFAULT class with a priority is turned down on the
    spot. *)
Lemma configure_scheduling_default b os n tattr st :
  ZEPHYR b = false →
  schedClass tattr = DDSRT_SCHED_DEFAULT →
  schedPriority tattr ≠ 0 →
  configure_scheduling b os n tattr st =
    (inl Exit_err, st, [Ev_log LOG_ERROR n Msg_default_class_with_priority]).
Proof.
  intros Hz Hc Hp%Z.eqb_neq. unfold configure_scheduling.
  rewrite Hz, Hc. simpl. unfold when. rewrite Hp. reflexivity.
Qed.

Lemma spawn_spec b os n r a st res st' evs :
  spawn b os n r a st = (res, st', evs) →
  let ctx := {| name := n; routine := r; arg := a |} in
  applied_priorities evs = [] ∧ warnings evs = [] ∧
  spawn_masks evs = [spawn_mask b st] ∧
  currThrIdx st' = currThrIdx st ∧
  match res with
  | inr h => ans_pthread_create os = 0 ∧ h = new_thread os ∧
             sigmask st' = sigmask st ∧
             threads st' = <[h := ctx]> (threads st)
  | inl e => e = Exit_err_create ∧ ans_pthread_create os ≠ 0 ∧
             threads st' = threads st ∧ sigmask st' = spawn_mask b st
  end.
Proof.
  wp_start. unfold spawn, spawn_mask, spawn_blocked_set. wp_run; simpl.
  all: repeat match goal with
         | H : (?x =? ?y) = _ |- context [?x =? ?y] => rewrite H
         end; simpl.
  all: split_and!; try done.
  all: try (by apply Z.eqb_eq).
  all: try (by apply Z.eqb_neq).
  all: try (rewrite Z.eqb_eq in *; congruence).
  all: try (rewrite Z.eqb_neq in *; congruence).
Qed.

Ltac wp_stage lem :=
  apply wp_bind, wp_spec;
  let r := fresh "r" in let s := fresh "st" in let e := fresh "ev" in
  let H := fresh "Hstage" in
  intros r s e H; apply lem in H.

(** Where [create_body] leaves the signal mask and the thread table. *)
Lemma create_body_process b os n attr r a st res st' evs :
  create_body b os n attr r a st = (res, st', evs) →
  match res with
  | inr h => h = new_thread os ∧ sigmask st' = sigmask st ∧
             threads st' !! h = Some {| name := n; routine := r; arg := a |} ∧
             spawn_masks evs = [spawn_mask b st]
  | inl Exit_err_create =>
      ans_pthread_create os ≠ 0 ∧ threads st' = threads st ∧
      sigmask st' = spawn_mask b st ∧ spawn_masks evs = [spawn_mask b st]
  | inl _ => sigmask st' = sigmask st ∧ threads st' = threads st ∧
             spawn_masks evs = []
  end.
Proof.
  wp_start. unfold create_body.
  wp_stage override_stack_size_spec.
  destruct Hstage as (-> & Hs1 & Hx1 & _).
  apply all_setup_silent in Hs1 as (_ & _ & Hm1).
  destruct r0 as [e1|t1]; [by destruct e1|].
  wp_stage init_pattr_spec.
  destruct Hstage as (Hmask & Hthr & _ & Hs2 & Hx2 & _).
  apply all_setup_silent in Hs2 as (_ & _ & Hm2).
  destruct r0 as [e2|t2].
  { unfold spawn_masks in *. rewrite omap_app, Hm1, Hm2. by destruct e2. }
  wp_stage configure_scheduling_spec.
  destruct Hstage as (-> & Hm3 & Hx3).
  destruct r0 as [e3|[]].
  { unfold spawn_masks in *. rewrite !omap_app, Hm1, Hm2, Hm3. by destruct e3. }
  wp_stage configure_affinity_spec.
  destruct Hstage as (-> & Hs4 & Hx4).
  apply all_setup_silent in Hs4 as (_ & _ & Hm4).
  destruct r0 as [e4|[]].
  { unfold spawn_masks in *. rewrite !omap_app, Hm1, Hm2, Hm3, Hm4. by destruct e4. }
  apply wp_spec. intros r5 st5 ev5 H5. apply spawn_spec in H5.
  destruct H5 as (_ & _ & Hm5 & _ & H5).
  assert (Hsm : spawn_mask b st0 = spawn_mask b st)
    by (unfold spawn_mask; by rewrite Hmask).
  assert (Hms : spawn_masks (ev ++ ev0 ++ ev1 ++ ev2 ++ ev5) = [spawn_mask b st]).
  { unfold spawn_masks in *. rewrite !omap_app, Hm1, Hm2, Hm3, Hm4, Hm5. by rewrite Hsm. }
  destruct r5 as [e5|h].
  - destruct H5 as (-> & Hne & Hthr5 & Hmask5).
    split_and!; [done | congruence | congruence | done].
  - destruct H5 as (Hz & -> & Hmask5 & Hthr5).
    split_and!; [done | congruence | | done].
    rewrite Hthr5. apply lookup_insert_eq.
Qed.

Lemma create_body_default_priority b os n attr r a st res st' evs :
  ZEPHYR b = false →
  schedClass attr = DDSRT_SCHED_DEFAULT →
  schedPriority attr ≠ 0 →
  create_body b os n attr r a st = (res, st', evs) →
  (res = inl Exit_return_error ∨ res = inl Exit_err) ∧ st' = st ∧ all_setup evs.
Proof.
  intros Hz Hc Hp. wp_start. unfold create_body.
  wp_stage override_stack_size_spec.
  destruct Hstage as (-> & Hs1 & Hx1 & Hreq1).
  destruct r0 as [e1|t1]; [by destruct e1; auto|].
  destruct (Hreq1 t1 eq_refl) as (Hc1 & Hp1 & _).
  wp_stage init_pattr_spec.
  destruct Hstage as (_ & _ & Hst & Hs2 & Hx2 & Hreq2).
  rewrite (Hst Hz).
  destruct r0 as [e2|t2].
  { split_and!; [by destruct e2; auto | done | by apply all_setup_app]. }
  destruct (Hreq2 t2 eq_refl) as (Hc2 & Hp2 & _).
  apply wp_bind. unfold wp.
  rewrite configure_scheduling_default by congruence. simpl.
  split_and!; [by right | done |].
  repeat (apply all_setup_app; try done). repeat constructor.
Qed.

Lemma create_body_priorities b os n attr r a st res st' evs :
  schedClass attr ≠ DDSRT_SCHED_DEFAULT →
  create_body b os n attr r a st = (res, st', evs) →
  (applied_priorities evs = [applied_priority b os attr] ∧
   warnings evs = expected_warnings b os attr) ∨
  ((∃ e, res = inl e) ∧ applied_priorities evs = [] ∧ warnings evs = []).
Proof.
  intros Hc. wp_start. unfold create_body.
  wp_stage override_stack_size_spec.
  destruct Hstage as (-> & Hs1 & Hx1 & Hreq1).
  apply all_setup_silent in Hs1 as (Ha1 & Hw1 & _).
  destruct r0 as [e1|t1]; [right; eauto|].
  destruct (Hreq1 t1 eq_refl) as (Hc1 & Hp1 & _).
  wp_stage init_pattr_spec.
  destruct Hstage as (_ & _ & _ & Hs2 & Hx2 & Hreq2).
  apply all_setup_silent in Hs2 as (Ha2 & Hw2 & _).
  destruct r0 as [e2|t2].
  { right. unfold applied_priorities, warnings in *.
    rewrite !omap_app, Ha1, Ha2, Hw1, Hw2. eauto. }
  destruct (Hreq2 t2 eq_refl) as (Hc2 & Hp2 & _).
  assert (Hap : applied_priority b os t2 = applied_priority b os attr)
    by (unfold applied_priority; by rewrite Hc2, Hp2, Hc1, Hp1).
  assert (Hew : expected_warnings b os t2 = expected_warnings b os attr)
    by (unfold expected_warnings; by rewrite Hc2, Hp2, Hc1, Hp1).
  apply wp_bind, wp_spec. intros r3 st3 ev3 H3.
  unfold configure_scheduling in H3.
  replace (is_default (schedClass t2)) with false in H3
    by (destruct (schedClass t2) eqn:E; [congruence | done | done]).
  rewrite andb_false_r in H3.
  apply set_policy_and_priority_spec in H3 as (-> & _ & _ & H3).
  rewrite Hap, Hew in H3.
  destruct r3 as [e3|[]].
  { unfold applied_priorities, warnings in *. rewrite !omap_app, Ha1, Ha2, Hw1, Hw2.
    simpl. destruct H3 as [[-> ->]|(_ & -> & ->)]; [by left | right; eauto]. }
  destruct H3 as [[Ha3 Hw3]|([=] & _)].
  wp_stage configure_affinity_spec.
  destruct Hstage as (-> & Hs4 & _).
  apply all_setup_silent in Hs4 as (Ha4 & Hw4 & _).
  destruct r0 as [e4|[]].
  { left. unfold applied_priorities, warnings in *.
    rewrite !omap_app, Ha1, Ha2, Ha3, Ha4, Hw1, Hw2, Hw3, Hw4. simpl.
    by rewrite !app_nil_r. }
  apply wp_spec. intros r5 st5 ev5 (Ha5 & Hw5 & _)%spawn_spec.
  left. unfold applied_priorities, warnings in *.
  rewrite !omap_app, Ha1, Ha2, Ha3, Ha4, Ha5, Hw1, Hw2, Hw3, Hw4, Hw5. simpl.
  by rewrite !app_nil_r.
Qed.

Lemma override_stack_size_ok b n tattr st r st' evs :
  stack_available b tattr st = true →
  override_stack_size b n tattr st = (r, st', evs) →
  ∃ t, r = inr t ∧
       (ZEPHYR b = true → stackSize t = CYCLONEDDS_THREAD_STACK_SIZE b).
Proof.
  unfold stack_available. intros Hstack. wp_start. unfold override_stack_size.
  wp_run. all: try (eexists; split; [done|]; simpl; done).
  simpl in Hstack.
  apply andb_prop in Heqb1 as [_ Hlt%Z.ltb_lt].
  apply andb_prop in Hstack as [Hle%Z.leb_le _]. lia.
Qed.

Lemma init_pattr_ok b os n tattr st r st' evs :
  cooperative os = true →
  (ZEPHYR b = true →
   stackSize tattr = 0 ∨ currThrIdx st < CYCLONEDDS_THREAD_COUNT b) →
  init_pattr b os n tattr st = (r, st', evs) →
  ∃ t, r = inr t.
Proof.
  intros Hc Hidx. split_cooperative Hc. wp_start. unfold init_pattr.
  repeat (wp_step; try congruence); eauto.
  all: destruct (Hidx eq_refl) as [Hz|Hlt];
    rewrite ?Z.eqb_neq, ?Z.leb_le in *; lia.
Qed.

Lemma configure_affinity_none b os n tattr st :
  schedAffinityN tattr = 0 →
  configure_affinity b os n tattr st = (inr tt, st, []).
Proof. intros Hn. unfold configure_affinity. by rewrite Hn. Qed.

Lemma spawn_ok b os n r a st res st' evs :
  cooperative os = true →
  spawn b os n r a st = (res, st', evs) →
  res = inr (new_thread os).
Proof.
  intros Hc. split_cooperative Hc. wp_start. unfold spawn.
  repeat (wp_step; try congruence); done.
Qed.

Lemma create_body_ok b os n attr r a st res st' evs :
  cooperative os = true →
  schedClass attr ≠ DDSRT_SCHED_DEFAULT →
  schedAffinityN attr = 0 →
  stack_available b attr st = true →
  create_body b os n attr r a st = (res, st', evs) →
  res = inr (new_thread os).
Proof.
  intros Hc Hclass Haff Hstack. wp_start. unfold create_body.
  apply wp_bind, wp_spec. intros r1 st1 ev1 H1.
  pose proof (override_stack_size_spec _ _ _ _ _ _ _ H1) as (-> & _ & _ & Hreq1).
  apply override_stack_size_ok in H1 as (t1 & -> & Hsz1); [|done].
  destruct (Hreq1 t1 eq_refl) as (Hc1 & _ & Ha1 & _).
  apply wp_bind, wp_spec. intros r2 st2 ev2 H2.
  pose proof (init_pattr_spec _ _ _ _ _ _ _ _ H2) as (_ & _ & _ & _ & _ & Hreq2).
  apply init_pattr_ok in H2 as (t2 & ->); [|done|].
  2:{ intros Hz. unfold stack_available in Hstack. rewrite Hz in Hstack.
      simpl in Hstack. apply andb_prop in Hstack as [_ Hor].
      apply orb_prop in Hor as [He%Z.eqb_eq|Hlt%Z.ltb_lt]; [left|by right].
      rewrite Hsz1; done. }
  destruct (Hreq2 t2 eq_refl) as (Hc2 & _ & Ha2 & _).
  apply wp_bind, wp_spec. intros r3 st3 ev3 H3.
  unfold configure_scheduling in H3.
  replace (is_default (schedClass t2)) with false in H3
    by (destruct (schedClass t2) eqn:E; [congruence | done | done]).
  rewrite andb_false_r in H3.
  apply set_policy_and_priority_ok in H3 as ->; [|done].
  apply wp_bind. unfold wp.
  rewrite configure_affinity_none by congruence. simpl.
  destruct (spawn b os n r a st3) as [[r5 st5] ev5] eqn:H5. simpl.
  by apply spawn_ok in H5.
Qed.

Lemma mod_pow2_mod_pow2 v w :
  32 ≤ w → (v mod 2 ^ w) mod 2 ^ 32 = v mod 2 ^ 32.
Proof.
  intros Hw. apply Z.mod_mod_divide.
  exists (2 ^ (w - 32)). rewrite <- Z.pow_add_r by lia. f_equal. lia.
Qed.

(** C1 (the defect): [pthread_create] fails with EAGAIN for a thread with
    default attributes, in a process that blocks no signal.  The call
    returns ERROR through [err_create], the mask is not put back, and
    the creator is left with every signal but SIGXCPU blocked. *)
Theorem create_failed_spawn_leaves_signals_blocked :
  ddsrt_thread_create linux_build sample_os_spawn_fails "worker"
      ddsrt_threadattr_init 4242 5 sample_process
  = (DDS_RETCODE_ERROR, None,
     {| sigmask := spawn_blocked_set linux_build; currThrIdx := 0; threads := ∅ |},
     [Ev_attr_init; Ev_attr_setscope; Ev_attr_setdetachstate;
      Ev_sigprocmask SIG_BLOCK (spawn_blocked_set linux_build);
      Ev_pthread_create (spawn_blocked_set linux_build)
        {| name := "worker"; routine := 4242; arg := 5 |};
      Ev_log LOG_ERROR "worker" (Msg_pthread_create_failed 11);
      Ev_free_ctx_name; Ev_free_ctx; Ev_attr_destroy])
  ∧ sigmask sample_process = 0
  ∧ spawn_blocked_set linux_build ≠ sigmask sample_process.
Proof. split_and!; [vm_compute; reflexivity | reflexivity | by vm_compute]. Qed.

(** The mask is put back whenever [ddsrt_thread_create] succeeds, and it
    is left alone on every failure before the spawn. *)
Lemma create_restores_mask_unless_spawn_fails b os n attr r a st rc h st' evs :
  ddsrt_thread_create b os n attr r a st = (rc, h, st', evs) →
  sigmask st' = sigmask st ∨
  (rc = DDS_RETCODE_ERROR ∧ ans_pthread_create os ≠ 0 ∧
   spawn_masks evs = [spawn_mask b st] ∧ sigmask st' = spawn_mask b st).
Proof.
  unfold ddsrt_thread_create.
  destruct (create_body b os n attr r a st) as [[res st1] evs1] eqn:Hbody.
  apply create_body_process in Hbody.
  destruct res as [[]|hd]; intros [= <- <- <- <-].
  - left. tauto.
  - left. tauto.
  - right. destruct Hbody as (Hne & _ & Hm & Hs).
    split_and!; try done. unfold spawn_masks in *. rewrite omap_app, Hs. done.
  - left. tauto.
Qed.

(** When [ddsrt_thread_create] succeeds the thread was started under the
    spawn mask and the creator has its own mask back. *)
Lemma create_success_blocks_and_restores b os n attr r a st h st' evs :
  ddsrt_thread_create b os n attr r a st = (DDS_RETCODE_OK, h, st', evs) →
  spawn_masks evs = [spawn_mask b st] ∧ sigmask st' = sigmask st.
Proof.
  unfold ddsrt_thread_create.
  destruct (create_body b os n attr r a st) as [[res st1] evs1] eqn:Hbody.
  apply create_body_process in Hbody.
  destruct res as [[]|hd]; intros [= <- <- <-]. tauto.
Qed.

(** The mask a new thread starts with, outside Zephyr: what the creator
    had blocked, and every signal but SIGXCPU. *)
Lemma spawn_blocked_set_spec b s :
  0 ≤ NSIG b → 1 ≤ s →
  Z.testbit (spawn_blocked_set b) (s - 1)
  = (s <=? NSIG b) && negb (s =? SIGXCPU b).
Proof.
  intros HN Hs. unfold spawn_blocked_set, sigdelset, sigfillset.
  rewrite Z.clearbit_eqb, Z.testbit_ones_nonneg by lia.
  f_equal; [|f_equal]; lia.
Qed.

(** C3 does not hold on Zephyr: there the DEFAULT class takes a priority.
    A descriptor with class DEFAULT and priority 5 gets its priority set
    and its thread started. *)
Lemma create_default_priority_accepted_on_zephyr :
  schedClass default_class_priority_5 = DDSRT_SCHED_DEFAULT ∧
  schedPriority default_class_priority_5 ≠ 0 ∧
  DDS_RETCODE_OK ≠ DDS_RETCODE_ERROR ∧
  ddsrt_thread_create zephyr_build sample_os "worker"
      default_class_priority_5 4242 5 sample_process
  = (DDS_RETCODE_OK, Some 77,
     {| sigmask := 0; currThrIdx := 1;
        threads := {[ 77 := {| name := "worker"; routine := 4242; arg := 5 |} ]} |},
     [Ev_attr_init; Ev_attr_setdetachstate; Ev_attr_setstack 0 32768;
      Ev_attr_getschedparam; Ev_attr_getschedpolicy; Ev_attr_setschedparam 5;
      Ev_pthread_create 0 {| name := "worker"; routine := 4242; arg := 5 |};
      Ev_attr_destroy]).
Proof. split_and!; [done | done | done | vm_compute; reflexivity]. Qed.

(** C3, amended: on every build but Zephyr, a descriptor with class
    DEFAULT and a priority other than 0 makes [ddsrt_thread_create] fail
    with ERROR; no call reads or sets a scheduling policy or priority, no
    thread is started, and the process is as it was. *)
Theorem create_rejects_default_class_with_priority b os n attr r a st :
  ZEPHYR b = false →
  schedClass attr = DDSRT_SCHED_DEFAULT →
  schedPriority attr ≠ 0 →
  ∃ evs,
    ddsrt_thread_create b os n attr r a st = (DDS_RETCODE_ERROR, None, st, evs) ∧
    Forall (λ e, is_sched_call e = false ∧ is_spawn e = false) evs.
Proof.
  intros Hz Hc Hp. unfold ddsrt_thread_create.
  destruct (create_body b os n attr r a st) as [[res st1] evs1] eqn:Hbody.
  apply create_body_default_priority in Hbody as (Hres & -> & Hs); try done.
  destruct Hres as [-> | ->]; eexists; (split; [reflexivity|]).
  - by apply all_setup_no_sched.
  - apply Forall_app. split; [by apply all_setup_no_sched | repeat constructor].
Qed.

Lemma create_rejects_default_class_with_priority_witness :
  ∃ evs,
    ddsrt_thread_create linux_build sample_os "worker"
      default_class_priority_5 4242 5 sample_process
    = (DDS_RETCODE_ERROR, None, sample_process, evs) ∧
    Forall (λ e, is_sched_call e = false ∧ is_spawn e = false) evs.
Proof.
  apply (create_rejects_default_class_with_priority linux_build sample_os
           "worker" default_class_priority_5 4242 5 sample_process);
    [reflexivity | reflexivity | simpl; lia].
Defined.

(** With a class other than DEFAULT, either the call ended before the
    priority was looked at, with ERROR and neither a warning nor a
    priority handed over, or the one priority handed to
    [pthread_attr_setschedparam] is the requested one when it is in the
    range of the policy of the class and otherwise the ambient one, in
    which case exactly one warning says so.  When the operating system
    refuses nothing (no affinity asked, and on Zephyr a stack to be had)
    the call returns OK. *)
Lemma create_priority_handed_over b os n attr r a st rc h st' evs :
  schedClass attr ≠ DDSRT_SCHED_DEFAULT →
  ddsrt_thread_create b os n attr r a st = (rc, h, st', evs) →
  ((applied_priorities evs = [applied_priority b os attr] ∧
    warnings evs = expected_warnings b os attr) ∨
   (rc = DDS_RETCODE_ERROR ∧ applied_priorities evs = [] ∧ warnings evs = [])) ∧
  (cooperative os = true → schedAffinityN attr = 0 →
   stack_available b attr st = true →
   rc = DDS_RETCODE_OK ∧ h = Some (new_thread os) ∧
   applied_priorities evs = [applied_priority b os attr] ∧
   warnings evs = expected_warnings b os attr).
Proof.
  intros Hclass. unfold ddsrt_thread_create.
  destruct (create_body b os n attr r a st) as [[res st1] evs1] eqn:Hbody.
  pose proof (create_body_priorities _ _ _ _ _ _ _ _ _ _ Hclass Hbody) as Hprio.
  intros Hcreate.
  assert (Hsame : applied_priorities evs = applied_priorities evs1 ∧
                  warnings evs = warnings evs1).
  { unfold applied_priorities, warnings.
    destruct res as [[]|hd]; injection Hcreate as <- <- <- <-;
      rewrite ?omap_app; simpl; rewrite ?app_nil_r; done. }
  destruct Hsame as [-> ->]. split.
  - destruct Hprio as [?|((e & ->) & ? & ?)]; [by left|right].
    split; [|done]. by destruct e; injection Hcreate as <- _ _ _.
  - intros Hc Haff Hstack.
    pose proof (create_body_ok _ _ _ _ _ _ _ _ _ _ Hc Hclass Haff Hstack Hbody) as ->.
    injection Hcreate as <- <- <- <-.
    destruct Hprio as [[? ?]|((e & [=]) & _)]. done.
Qed.

(** C7: a thread that [ddsrt_thread_create] has started and that is then
    joined: [ddsrt_thread_join] returns OK and stores the value its start
    routine returned, reduced modulo 2^32. *)
Theorem join_yields_low_32_bits b code os n attr r a st h st1 evs :
  32 ≤ WORD_BITS b →
  ddsrt_thread_create b os n attr r a st = (DDS_RETCODE_OK, Some h, st1, evs) →
  ∃ st2 evs2,
    ddsrt_thread_join b code 0 h true st1
    = (DDS_RETCODE_OK, Some (code r a mod 2 ^ 32), st2, evs2) ∧
    threads st2 !! h = None.
Proof.
  intros Hw. unfold ddsrt_thread_create.
  destruct (create_body b os n attr r a st) as [[res st'] evs1] eqn:Hbody.
  apply create_body_process in Hbody.
  destruct res as [[]|hd]; intros [= <- <- <-].
  destruct Hbody as (_ & _ & Hlook & _).
  unfold ddsrt_thread_join, pthread_join. rewrite Hlook. simpl.
  unfold uint32, uintptr. rewrite Z.mod_mod by lia.
  rewrite mod_pow2_mod_pow2 by done.
  eexists _, _. split; [reflexivity|]. apply lookup_delete_eq.
Qed.

Lemma join_yields_low_32_bits_witness :
  ∃ st2 evs2,
    ddsrt_thread_join linux_build (λ f x, if f =? 4242 then x + 2 ^ 32 + 1 else 0)
      0 77 true
      {| sigmask := 0; currThrIdx := 0;
         threads := <[77 := {| name := "worker"; routine := 4242; arg := 5 |}]> ∅ |}
    = (DDS_RETCODE_OK, Some ((5 + 2 ^ 32 + 1) mod 2 ^ 32), st2, evs2) ∧
    threads st2 !! 77 = None.
Proof.
  apply (join_yields_low_32_bits linux_build
           (λ f x, if f =? 4242 then x + 2 ^ 32 + 1 else 0)
           sample_os "worker" ddsrt_threadattr_init 4242 5 sample_process 77
           _ [Ev_attr_init; Ev_attr_setscope; Ev_attr_setdetachstate;
              Ev_sigprocmask SIG_BLOCK (spawn_blocked_set linux_build);
              Ev_pthread_create (spawn_blocked_set linux_build)
                {| name := "worker"; routine := 4242; arg := 5 |};
              Ev_sigprocmask SIG_SETMASK 0; Ev_attr_destroy]).
  - simpl. lia.
  - vm_compute. reflexivity.
Defined.

(** *** Stage by stage *)

Lemma of_class_app p evs1 evs2 :
  of_class p evs1 → of_class p evs2 → of_class p (evs1 ++ evs2).
Proof. intros. by apply Forall_app. Qed.

(** A reading that sees nothing in the calls of a class sees nothing in a
    list of such calls. *)
Lemma omap_of_class {A} p (f : event → option A) evs :
  of_class p evs → (∀ e, p e = true → f e = None) → omap f evs = [].
Proof.
  intros Hc Hf. induction Hc as [|e evs He _ IH]; [done|].
  change (omap f (e :: evs))
    with (match f e with Some y => y :: omap f evs | None => omap f evs end).
  by rewrite (Hf e He).
Qed.

Lemma count_of_class p q evs :
  of_class p evs → (∀ e, p e = true → q e = false) → count_calls q evs = 0%nat.
Proof.
  intros Hc Hq. unfold count_calls. induction Hc as [|e evs He _ IH]; [done|].
  simpl. by rewrite (Hq e He).
Qed.

Lemma count_calls_app q evs1 evs2 :
  count_calls q (evs1 ++ evs2) = (count_calls q evs1 + count_calls q evs2)%nat.
Proof. unfold count_calls. by rewrite List.filter_app, length_app. Qed.

Lemma override_stack_size_run b n tattr st r st' evs :
  override_stack_size b n tattr st = (r, st', evs) →
  st' = st ∧ of_class is_error_log evs ∧
  match r with
  | inl e => e = Exit_return_error ∧ stack_request_too_large b tattr = true ∧
             count_calls is_error_log evs = 1%nat
  | inr t => stack_request_too_large b tattr = false ∧ evs = [] ∧
             same_request t tattr ∧
             stackSize t = if ZEPHYR b then CYCLONEDDS_THREAD_STACK_SIZE b
                           else stackSize tattr
  end.
Proof.
  wp_start. unfold override_stack_size, stack_request_too_large. wp_run; simpl.
  all: split_and!; try done; try (repeat constructor; done).
Qed.

Lemma init_pattr_run b os n tattr st r st' evs :
  init_pattr b os n tattr st = (r, st', evs) →
  (∃ rest, evs = Ev_attr_init :: rest) ∧
  of_class is_init_event evs ∧ count_calls is_attr_init evs = 1%nat ∧
  sigmask st' = sigmask st ∧ threads st' = threads st ∧
  match r with
  | inl Exit_return_error => ans_attr_init os ≠ 0 ∧ evs = [Ev_attr_init] ∧ st' = st
  | inl Exit_err => ans_attr_init os = 0 ∧ (count_calls is_error_log evs ≤ 1)%nat
  | inl Exit_err_create => False
  | inr t => ans_attr_init os = 0 ∧ same_request t tattr ∧
             count_calls is_error_log evs = 0%nat
  end.
Proof.
  wp_start. unfold init_pattr. wp_run; simpl.
  all: rewrite ?Z.eqb_eq, ?Z.eqb_neq in *.
  all: split_and!; try done; try (repeat constructor; done).
  all: try (unfold count_calls; simpl; lia).
  all: try (by eexists).
  all: repeat case_match; done.
Qed.

Lemma init_pattr_stack_posix b os n tattr st r st' evs :
  ZEPHYR b = false →
  init_pattr b os n tattr st = (r, st', evs) →
  st' = st ∧ static_stacks evs = [] ∧
  (stack_sizes evs = [] ∨
   (stackSize tattr ≠ 0 ∧ stack_sizes evs = [raised_stack_size b tattr])) ∧
  ∀ t, r = inr t →
       if stackSize tattr =? 0 then stackSize t = 0 ∧ stack_sizes evs = []
       else stackSize t = raised_stack_size b tattr ∧
            stack_sizes evs = [raised_stack_size b tattr].
Proof.
  intros Hz. wp_start. unfold init_pattr, raised_stack_size.
  repeat (wp_step; try congruence); simpl.
  all: rewrite ?Z.eqb_eq, ?Z.eqb_neq in *.
  all: try (destruct (PTHREAD_STACK_MIN b) as [stack_min|];
            [destruct (Z.ltb_spec (stackSize tattr) (uint32 stack_min))|]; simpl).
  all: split_and!; try done; try (by left).
  all: try (right; split; [done|]; simpl; f_equal; lia).
  all: try (intros t [= <-]; simpl;
            repeat match goal with
                   | H : ?x = 0 |- context [?x =? 0] => rewrite (proj2 (Z.eqb_eq _ _) H)
                   | H : ?x ≠ 0 |- context [?x =? 0] => rewrite (proj2 (Z.eqb_neq _ _) H)
                   end; simpl; split; try done; try f_equal; lia).
Qed.

Lemma init_pattr_stack_zephyr b os n tattr st r st' evs :
  ZEPHYR b = true →
  init_pattr b os n tattr st = (r, st', evs) →
  stack_sizes evs = [] ∧
  ((static_stacks evs = [] ∧ st' = st ∧
    (stackSize tattr = 0 ∨ (∃ e, r = inl e))) ∨
   (stackSize tattr ≠ 0 ∧ currThrIdx st < CYCLONEDDS_THREAD_COUNT b ∧
      static_stacks evs = [(currThrIdx st, raised_stack_size b tattr)] ∧
      ((ans_attr_setstack os = 0 ∧ (∃ t, r = inr t) ∧
        currThrIdx st' = currThrIdx st + 1) ∨
       (ans_attr_setstack os ≠ 0 ∧ r = inl Exit_err ∧ st' = st)))) ∧
  (stackSize tattr ≠ 0 → CYCLONEDDS_THREAD_COUNT b ≤ currThrIdx st →
   (∃ e, r = inl e) ∧ static_stacks evs = [] ∧ st' = st).
Proof.
  intros Hz. wp_start. unfold init_pattr, raised_stack_size.
  repeat (wp_step; try congruence); simpl.
  all: rewrite ?Z.eqb_eq, ?Z.eqb_neq, ?Z.leb_le, ?Z.leb_gt in *.
  all: try (destruct (PTHREAD_STACK_MIN b) as [stack_min|];
            [destruct (Z.ltb_spec (stackSize tattr) (uint32 stack_min))|]; simpl).
  all: split_and!; try done.
  all: try (left; split_and!; [done | done | eauto]; fail).
  all: try (intros; split_and!; eauto; lia).
  all: try (right; split_and!; [done | lia | repeat f_equal; lia |]; eauto 6).
  all: try (intros; lia).
Qed.

Lemma configure_scheduling_run b os n tattr st r st' evs :
  configure_scheduling b os n tattr st = (r, st', evs) →
  st' = st ∧ of_class is_sched_event evs ∧
  (∀ e, r = inl e → e = Exit_err ∧ count_calls is_error_log evs = 1%nat) ∧
  (r = inr tt → count_calls is_error_log evs = 0%nat) ∧
  (policies_set evs = [] ∨
   (is_default (schedClass tattr) = false ∧
    policies_set evs = [class_policy b os (schedClass tattr)])) ∧
  (r = inr tt →
   policies_set evs = if is_default (schedClass tattr) then []
                      else [class_policy b os (schedClass tattr)]) ∧
  (ZEPHYR b = false → schedClass tattr = DDSRT_SCHED_DEFAULT →
   count_calls is_sched_call evs = 0%nat ∧
   (schedPriority tattr = 0 → r = inr tt ∧ evs = [])).
Proof.
  wp_start. unfold configure_scheduling, set_policy_and_priority, class_policy.
  wp_run; simpl.
  all: rewrite ?Z.eqb_eq, ?Z.eqb_neq in *.
  all: split_and!; try done; try (repeat constructor; done).
  all: try (by left).
  all: try (intros e [= <-]; done).
  all: try (intros; destruct (schedClass tattr); simpl in *; congruence).
  all: try (right; split; [done|]; by destruct (schedClass tattr)).
  all: try (intros _; by destruct (schedClass tattr)).
  all: intros _;
    match goal with
    | H : _ && is_default _ = true |- _ => apply andb_prop in H as [_ H]; by rewrite H
    end.
Qed.

Lemma fill_cpuset_run b n cpus : ∀ cpuset st r st' evs,
  fill_cpuset b n cpus cpuset st = (r, st', evs) →
  st' = st ∧ of_class is_error_log evs ∧
  match r with
  | inl e => e = Exit_err ∧ Exists (λ c, CPU_SETSIZE b ≤ c) cpus ∧
             count_calls is_error_log evs = 1%nat
  | inr c => c = fold_left Z.setbit cpus cpuset ∧
             Forall (λ c, c < CPU_SETSIZE b) cpus ∧ evs = []
  end.
Proof.
  induction cpus as [|cpu rest IH]; intros cpuset st r st' evs.
  - wp_start. simpl. wp_run. split_and!; [done | constructor | done | constructor | done].
  - wp_start. simpl. wp_run.
    + apply Z.leb_le in H. split_and!; [done | repeat constructor | done | by left | done].
    + apply Z.leb_gt in H. apply wp_spec. intros r2 st2 ev2 (-> & Hc & Hr)%IH.
      split_and!; [done | done |].
      destruct r2 as [e|c].
      * destruct Hr as (-> & Hex & Hcount). split_and!; [done | by right | done].
      * destruct Hr as (-> & Hall & ->). split_and!; [done | by constructor | done].
Qed.

Lemma configure_affinity_run b os n tattr st r st' evs :
  configure_affinity b os n tattr st = (r, st', evs) →
  st' = st ∧ of_class is_affinity_event evs ∧
  (count_calls is_error_log evs ≤ 1)%nat ∧
  (r = inr tt → count_calls is_error_log evs = 0%nat) ∧
  (∀ e, r = inl e → e = Exit_err) ∧
  (if 0 <? schedAffinityN tattr then
     if LINUX_GLIBC b then
       (Exists (λ c, CPU_SETSIZE b ≤ c) (requested_cpus tattr) ∧
        r = inl Exit_err ∧ affinity_sets evs = []) ∨
       (Forall (λ c, c < CPU_SETSIZE b) (requested_cpus tattr) ∧
        affinity_sets evs = [cpuset_of (requested_cpus tattr)] ∧
        (r = inr tt ↔ ans_attr_setaffinity os = 0))
     else r = inl Exit_err ∧ evs = []
   else r = inr tt ∧ evs = []).
Proof.
  wp_start. unfold configure_affinity, requested_cpus, cpuset_of. wp_run.
  2,3: split_and!; try done; try (repeat constructor; done);
    try (unfold count_calls; simpl; lia); by intros e [= <-].
  apply wp_spec. intros r1 st1 ev1 (-> & Hc & Hr)%fill_cpuset_run.
  cbv beta iota.
  assert (Hlog : ∀ e, is_error_log e = true → is_affinity_event e = true)
    by (by intros [[]| | | | | | | | | | | | | | | | | | | | |]).
  destruct r1 as [e|cpuset].
  - destruct Hr as (-> & Hex & Hcount).
    split; [done|]. split; [eapply Forall_impl; [exact Hc | exact Hlog]|].
    split; [lia|]. split; [done|]. split; [by intros e [= <-]|].
    left. split_and!; [done | done |].
    eapply omap_of_class; [exact Hc|].
    by intros [[]| | | | | | | | | | | | | | | | | | | | |].
  - destruct Hr as (-> & Hall & ->).
    wp_run; simpl; rewrite ?Z.eqb_eq, ?Z.eqb_neq in *.
    + split; [done|]. split; [repeat constructor; done|].
      split; [unfold count_calls; simpl; lia|]. split; [done|].
      split; [by intros e [= <-]|].
      right. split_and!; [done | done |]. split; [done | congruence].
    + split; [done|]. split; [repeat constructor; done|].
      split; [unfold count_calls; simpl; lia|]. split; [done|].
      split; [done|].
      right. split_and!; [done | done |]. done.
Qed.

Lemma spawn_run b os n r a st :
  let ctx := {| name := n; routine := r; arg := a |} in
  spawn b os n r a st =
    if ans_pthread_create os =? 0
    then (inr (new_thread os),
          {| sigmask := sigmask st; currThrIdx := currThrIdx st;
             threads := <[new_thread os := ctx]> (threads st) |},
          spawn_calls_ok b st ctx)
    else (inl Exit_err_create,
          {| sigmask := spawn_mask b st; currThrIdx := currThrIdx st;
             threads := threads st |},
          spawn_calls_failed b st ctx (ans_pthread_create os)).
Proof.
  intros ctx. unfold spawn, spawn_calls_ok, spawn_calls_failed, spawn_mask,
    bind, when, sigprocmask, pthread_create, emit, leave, ret, DDS_ERROR,
    spawn_blocked_set.
  destruct (ZEPHYR b), (ans_pthread_create os =? 0) eqn:E; simpl;
    rewrite ?E; simpl; try reflexivity.
  all: by destruct st.
Qed.

(** The run of [create_body], stage by stage. *)
Lemma create_body_run b os n attr r a st res st' evs :
  create_body b os n attr r a st = (res, st', evs) →
  (∃ e, override_stack_size b n attr st = (inl e, st, evs) ∧
        res = inl e ∧ st' = st) ∨
  (∃ t1 t2 st2 ev2,
     override_stack_size b n attr st = (inr t1, st, []) ∧
     ((∃ e, init_pattr b os n t1 st = (inl e, st2, ev2) ∧
            res = inl e ∧ st' = st2 ∧ evs = ev2) ∨
      (init_pattr b os n t1 st = (inr t2, st2, ev2) ∧
       ∃ ev3,
         ((∃ e, configure_scheduling b os n t2 st2 = (inl e, st2, ev3) ∧
                res = inl e ∧ st' = st2 ∧ evs = (ev2 ++ ev3)%list) ∨
          (configure_scheduling b os n t2 st2 = (inr tt, st2, ev3) ∧
           ∃ ev4,
             ((∃ e, configure_affinity b os n t2 st2 = (inl e, st2, ev4) ∧
                    res = inl e ∧ st' = st2 ∧
                    evs = (ev2 ++ ev3 ++ ev4)%list) ∨
              (configure_affinity b os n t2 st2 = (inr tt, st2, ev4) ∧
               ∃ ev5, spawn b os n r a st2 = (res, st', ev5) ∧
                      evs = (ev2 ++ ev3 ++ ev4 ++ ev5)%list))))))).
Proof.
  unfold create_body, bind. intros Hrun.
  destruct (override_stack_size b n attr st) as [[r1 st1] ev1] eqn:H1.
  pose proof (override_stack_size_run _ _ _ _ _ _ _ H1) as (-> & _ & Hr1).
  destruct r1 as [e1|t1].
  { injection Hrun as <- <- <-. left. by exists e1. }
  destruct Hr1 as (_ & -> & _). right.
  destruct (init_pattr b os n t1 st) as [[r2 st2] ev2] eqn:H2.
  destruct r2 as [e2|t2].
  { injection Hrun as <- <- <-. exists t1, t1, st2, ev2. split; [done|].
    left. by exists e2. }
  exists t1, t2, st2, ev2. split; [done|]. right. split; [done|].
  destruct (configure_scheduling b os n t2 st2) as [[r3 st3] ev3] eqn:H3.
  pose proof (configure_scheduling_run _ _ _ _ _ _ _ _ H3) as (-> & _).
  exists ev3. destruct r3 as [e3|[]].
  { injection Hrun as <- <- <-. left. by exists e3. }
  right. split; [done|].
  destruct (configure_affinity b os n t2 st2) as [[r4 st4] ev4] eqn:H4.
  pose proof (configure_affinity_run _ _ _ _ _ _ _ _ H4) as (-> & _).
  exists ev4. destruct r4 as [e4|[]].
  { injection Hrun as <- <- <-. left. by exists e4. }
  right. split; [done|].
  destruct (spawn b os n r a st2) as [[r5 st5] ev5] eqn:H5.
  injection Hrun as <- <- <-. by exists ev5.
Qed.

Lemma create_run b os n attr r a st rc h st' evs :
  ddsrt_thread_create b os n attr r a st = (rc, h, st', evs) →
  ∃ res evs0,
    create_body b os n attr r a st = (res, st', evs0) ∧
    match res with
    | inr t => rc = DDS_RETCODE_OK ∧ h = Some t ∧ evs = evs0
    | inl Exit_return_error => rc = DDS_RETCODE_ERROR ∧ h = None ∧ evs = evs0
    | inl Exit_err =>
        rc = DDS_RETCODE_ERROR ∧ h = None ∧ evs = (evs0 ++ [Ev_attr_destroy])%list
    | inl Exit_err_create =>
        rc = DDS_RETCODE_ERROR ∧ h = None ∧
        evs = (evs0 ++ [Ev_free_ctx_name; Ev_free_ctx; Ev_attr_destroy])%list
    end.
Proof.
  unfold ddsrt_thread_create.
  destruct (create_body b os n attr r a st) as [[res st1] evs0].
  destruct res as [[]|t]; intros [= <- <- <- <-]; by eexists _, _.
Qed.

(** Splits a run of [ddsrt_thread_create] into the stage it ended in. *)
Ltac create_cases H :=
  apply create_run in H as (res & evs0 & Hb & Hres);
  apply create_body_run in Hb as
    [(e & H1 & -> & ->)
    |(t1 & t2 & st2 & ev2 & H1 &
      [(e & H2 & -> & -> & ->)
      |(H2 & ev3 &
        [(e & H3 & -> & -> & ->)
        |(H3 & ev4 &
          [(e & H4 & -> & -> & ->)
          |(H4 & ev5 & H5 & ->)])])])];
  [ pose proof (override_stack_size_run _ _ _ _ _ _ _ H1) as (_ & Hc1 & -> & Hlarge & Hn1)
  | pose proof (override_stack_size_run _ _ _ _ _ _ _ H1) as (_ & _ & Hlarge & _ & Hsame1 & Hsize1);
    pose proof (init_pattr_run _ _ _ _ _ _ _ _ H2) as (Hhd2 & Hc2 & Hi2 & Hm2 & Ht2 & Hr2)
  | pose proof (override_stack_size_run _ _ _ _ _ _ _ H1) as (_ & _ & Hlarge & _ & Hsame1 & Hsize1);
    pose proof (init_pattr_run _ _ _ _ _ _ _ _ H2) as (Hhd2 & Hc2 & Hi2 & Hm2 & Ht2 & Hinit & Hsame2 & Hn2);
    pose proof (configure_scheduling_run _ _ _ _ _ _ _ _ H3) as (_ & Hc3 & He3 & _ & Hp3 & _ & Hd3);
    destruct (He3 _ eq_refl) as [-> Hn3]
  | pose proof (override_stack_size_run _ _ _ _ _ _ _ H1) as (_ & _ & Hlarge & _ & Hsame1 & Hsize1);
    pose proof (init_pattr_run _ _ _ _ _ _ _ _ H2) as (Hhd2 & Hc2 & Hi2 & Hm2 & Ht2 & Hinit & Hsame2 & Hn2);
    pose proof (configure_scheduling_run _ _ _ _ _ _ _ _ H3) as (_ & Hc3 & _ & Hn3 & Hp3 & Hok3 & Hd3);
    specialize (Hn3 eq_refl);
    pose proof (configure_affinity_run _ _ _ _ _ _ _ _ H4) as (_ & Hc4 & Hn4 & _ & He4 & Ha4);
    rewrite (He4 _ eq_refl) in *
  | pose proof (override_stack_size_run _ _ _ _ _ _ _ H1) as (_ & _ & Hlarge & _ & Hsame1 & Hsize1);
    pose proof (init_pattr_run _ _ _ _ _ _ _ _ H2) as (Hhd2 & Hc2 & Hi2 & Hm2 & Ht2 & Hinit & Hsame2 & Hn2);
    pose proof (configure_scheduling_run _ _ _ _ _ _ _ _ H3) as (_ & Hc3 & _ & Hn3 & Hp3 & Hok3 & Hd3);
    specialize (Hn3 eq_refl);
    pose proof (configure_affinity_run _ _ _ _ _ _ _ _ H4) as (_ & Hc4 & _ & Hn4 & _ & Ha4);
    specialize (Hn4 eq_refl);
    rewrite spawn_run in H5 ].

(** Closes a goal [∀ e, p e = true → q e = v] by cases on the call. *)
Ltac by_call :=
  let e := fresh "e" in
  intros e; destruct e as [[] ? ?| | | | | | | | | | | | | | | | | | | | |]; done.

(** X8: [ddsrt_thread_create] never leaks and never reuses the attribute
    object.  Once [pthread_attr_init] has succeeded it is the first call
    and [pthread_attr_destroy] is the last one, whatever happens in
    between, and neither is repeated.  When [pthread_attr_init] fails it
    is the only call, and when Zephyr turns the stack request down neither
    is called; both times the answer is ERROR and the process is as it
    was. *)
Theorem create_pairs_attr_init_with_destroy b os n attr r a st rc h st' evs :
  ddsrt_thread_create b os n attr r a st = (rc, h, st', evs) →
  if stack_request_too_large b attr then
    rc = DDS_RETCODE_ERROR ∧ st' = st ∧
    count_calls is_attr_init evs = 0%nat ∧ count_calls is_attr_destroy evs = 0%nat
  else if ans_attr_init os =? 0 then
    ∃ mid, evs = (Ev_attr_init :: mid ++ [Ev_attr_destroy])%list ∧
           count_calls is_attr_init mid = 0%nat ∧
           count_calls is_attr_destroy mid = 0%nat
  else rc = DDS_RETCODE_ERROR ∧ st' = st ∧ evs = [Ev_attr_init].
Proof.
  intros H. create_cases H.
  - destruct Hres as (-> & -> & ->). rewrite Hlarge.
    split_and!; [done | done | |]; apply (count_of_class _ _ _ Hc1); by_call.
  - rewrite Hlarge. destruct Hhd2 as [rest ->].
    apply Forall_cons in Hc2 as [_ Hc2]. injection Hi2 as Hi2.
    apply length_zero_iff_nil in Hi2.
    destruct e; [| |done].
    + destruct Hr2 as (Hinit%Z.eqb_neq & [= ->] & ->), Hres as (-> & _ & ->).
      by rewrite Hinit.
    + destruct Hr2 as (Hinit%Z.eqb_eq & _), Hres as (_ & _ & ->).
      rewrite Hinit. exists rest. split_and!; [done | |].
      * unfold count_calls. by rewrite Hi2.
      * apply (count_of_class _ _ _ Hc2); by_call.
  - rewrite Hlarge. destruct Hhd2 as [rest ->].
    apply Forall_cons in Hc2 as [_ Hc2]. injection Hi2 as Hi2.
    apply length_zero_iff_nil in Hi2.
    destruct Hres as (_ & _ & ->). apply Z.eqb_eq in Hinit. rewrite Hinit.
    exists (rest ++ ev3)%list. split_and!; [done | |]; rewrite count_calls_app.
    + rewrite (count_of_class _ _ _ Hc3) by by_call.
      unfold count_calls. by rewrite Hi2.
    + rewrite (count_of_class _ _ _ Hc2), (count_of_class _ _ _ Hc3) by by_call. done.
  - rewrite Hlarge. destruct Hhd2 as [rest ->].
    apply Forall_cons in Hc2 as [_ Hc2]. injection Hi2 as Hi2.
    apply length_zero_iff_nil in Hi2.
    destruct Hres as (_ & _ & ->). apply Z.eqb_eq in Hinit. rewrite Hinit.
    exists (rest ++ ev3 ++ ev4)%list.
    split_and!; [by rewrite <- !app_assoc | |]; rewrite !count_calls_app.
    + rewrite (count_of_class _ _ _ Hc3), (count_of_class _ _ _ Hc4) by by_call.
      unfold count_calls. by rewrite Hi2.
    + rewrite (count_of_class _ _ _ Hc2), (count_of_class _ _ _ Hc3),
        (count_of_class _ _ _ Hc4) by by_call. done.
  - rewrite Hlarge. destruct Hhd2 as [rest ->].
    apply Forall_cons in Hc2 as [_ Hc2]. injection Hi2 as Hi2.
    apply length_zero_iff_nil in Hi2.
    apply Z.eqb_eq in Hinit. rewrite Hinit.
    assert (Hrest : count_calls is_attr_init (rest ++ ev3 ++ ev4) = 0%nat ∧
                    count_calls is_attr_destroy (rest ++ ev3 ++ ev4) = 0%nat).
    { split; rewrite !count_calls_app.
      - rewrite (count_of_class _ _ _ Hc3), (count_of_class _ _ _ Hc4) by by_call.
        unfold count_calls. by rewrite Hi2.
      - rewrite (count_of_class _ _ _ Hc2), (count_of_class _ _ _ Hc3),
          (count_of_class _ _ _ Hc4) by by_call. done. }
    destruct Hrest as [Hri Hrd].
    destruct (ans_pthread_create os =? 0); injection H5 as <- <- <-.
    + destruct Hres as (_ & _ & ->).
      exists ((rest ++ ev3 ++ ev4) ++ removelast (spawn_calls_ok b st2
                {| name := n; routine := r; arg := a |}))%list.
      split_and!.
      * unfold spawn_calls_ok. destruct (ZEPHYR b); simpl;
          rewrite <- !app_assoc; reflexivity.
      * rewrite count_calls_app, Hri. unfold spawn_calls_ok. by destruct (ZEPHYR b).
      * rewrite count_calls_app, Hrd. unfold spawn_calls_ok. by destruct (ZEPHYR b).
    + destruct Hres as (_ & _ & ->).
      exists ((rest ++ ev3 ++ ev4) ++ spawn_calls_failed b st2
                {| name := n; routine := r; arg := a |} (ans_pthread_create os)
              ++ [Ev_free_ctx_name; Ev_free_ctx])%list.
      split_and!.
      * simpl. rewrite <- !app_assoc. reflexivity.
      * rewrite count_calls_app, Hri. unfold spawn_calls_failed. by destruct (ZEPHYR b).
      * rewrite count_calls_app, Hrd. unfold spawn_calls_failed. by destruct (ZEPHYR b).
Qed.

(** The shape of every run of [ddsrt_thread_create]: configuration calls,
    then one of four endings. *)
Lemma create_trace b os n attr r a st rc h st' evs :
  ddsrt_thread_create b os n attr r a st = (rc, h, st', evs) →
  let ctx := {| name := n; routine := r; arg := a |} in
  ∃ cfg tail,
    evs = (cfg ++ tail)%list ∧ of_class is_configuration cfg ∧
    (count_calls is_error_log cfg ≤ 1)%nat ∧
    ((tail = [] ∧ rc = DDS_RETCODE_ERROR ∧ h = None ∧ st' = st) ∨
     (tail = [Ev_attr_destroy] ∧ rc = DDS_RETCODE_ERROR ∧ h = None ∧
      sigmask st' = sigmask st ∧ threads st' = threads st) ∨
     (tail = spawn_calls_ok b st ctx ∧ rc = DDS_RETCODE_OK ∧
      h = Some (new_thread os) ∧ ans_pthread_create os = 0 ∧
      sigmask st' = sigmask st ∧
      threads st' = <[new_thread os := ctx]> (threads st) ∧
      count_calls is_error_log cfg = 0%nat) ∨
     (tail = (spawn_calls_failed b st ctx (ans_pthread_create os)
              ++ [Ev_free_ctx_name; Ev_free_ctx; Ev_attr_destroy])%list ∧
      rc = DDS_RETCODE_ERROR ∧ h = None ∧ ans_pthread_create os ≠ 0 ∧
      sigmask st' = spawn_mask b st ∧ threads st' = threads st ∧
      count_calls is_error_log cfg = 0%nat)).
Proof.
  intros H ctx. create_cases H.
  - destruct Hres as (-> & -> & ->). exists evs0, [].
    split_and!; [by rewrite app_nil_r | | lia | by left].
    eapply Forall_impl; [exact Hc1 | by_call].
  - assert (Hcfg : of_class is_configuration ev2)
      by (eapply Forall_impl; [exact Hc2 | by_call]).
    destruct e; [| |done].
    + destruct Hr2 as (_ & -> & ->), Hres as (-> & -> & ->).
      exists [Ev_attr_init], []. split_and!; [done | done | | by left].
      unfold count_calls; simpl; lia.
    + destruct Hr2 as (_ & Hn2), Hres as (-> & -> & ->).
      exists ev2, [Ev_attr_destroy].
      split_and!; [done | done | done | right; by left].
  - destruct Hres as (-> & -> & ->).
    exists (ev2 ++ ev3)%list, [Ev_attr_destroy].
    split_and!; [done | | | right; by left].
    + apply of_class_app; eapply Forall_impl; eauto; by_call.
    + rewrite count_calls_app. lia.
  - destruct Hres as (-> & -> & ->).
    exists (ev2 ++ ev3 ++ ev4)%list, [Ev_attr_destroy].
    split_and!; [by rewrite <- !app_assoc | | | right; by left].
    + repeat apply of_class_app; eapply Forall_impl; eauto; by_call.
    + rewrite !count_calls_app. lia.
  - assert (Hcfg : of_class is_configuration (ev2 ++ ev3 ++ ev4)).
    { repeat apply of_class_app; eapply Forall_impl; eauto; by_call. }
    assert (Hn : count_calls is_error_log (ev2 ++ ev3 ++ ev4) = 0%nat)
      by (rewrite !count_calls_app; lia).
    destruct (ans_pthread_create os =? 0) eqn:Hpc; injection H5 as <- <- <-.
    + destruct Hres as (-> & -> & ->). apply Z.eqb_eq in Hpc.
      exists (ev2 ++ ev3 ++ ev4)%list, (spawn_calls_ok b st ctx).
      split_and!; [| done | lia |].
      * rewrite <- !app_assoc. do 3 f_equal. unfold spawn_calls_ok.
        fold ctx. by rewrite Hm2.
      * right; right; left. simpl. rewrite Ht2. done.
    + destruct Hres as (-> & -> & ->). apply Z.eqb_neq in Hpc.
      exists (ev2 ++ ev3 ++ ev4)%list,
        (spawn_calls_failed b st ctx (ans_pthread_create os)
         ++ [Ev_free_ctx_name; Ev_free_ctx; Ev_attr_destroy])%list.
      split_and!; [| done | lia |].
      * rewrite <- !app_assoc. do 3 f_equal. unfold spawn_calls_failed.
        fold ctx. by rewrite Hm2.
      * right; right; right. simpl. unfold spawn_mask. rewrite Hm2, Ht2. done.
Qed.

Lemma create_pairs_attr_init_with_destroy_witness :
  ∃ rc h st' evs mid,
    ddsrt_thread_create linux_build sample_os "worker" realtime_priority_500
      4242 5 sample_process
    = (rc, h, st', evs) ∧
    evs = (Ev_attr_init :: mid ++ [Ev_attr_destroy])%list ∧
    count_calls is_attr_destroy mid = 0%nat.
Proof.
  destruct (ddsrt_thread_create linux_build sample_os "worker"
              realtime_priority_500 4242 5 sample_process)
    as [[[rc h] st'] evs] eqn:Hrun.
  destruct (create_pairs_attr_init_with_destroy linux_build sample_os "worker"
              realtime_priority_500 4242 5 sample_process rc h st' evs Hrun)
    as (mid & Hevs & _ & Hd).
  exists rc, h, st', evs, mid. split_and!; [reflexivity | exact Hevs | exact Hd].
Defined.

(** X9: the thread context is built at most once per call, and the
    creator frees it (name and record together) exactly when
    [pthread_create] was called and failed.  After OK the context was
    handed to one new thread and the creator freed nothing. *)
Theorem create_frees_context_iff_spawn_fails b os n attr r a st rc h st' evs :
  ddsrt_thread_create b os n attr r a st = (rc, h, st', evs) →
  (count_calls is_spawn evs ≤ 1)%nat ∧
  count_calls is_free_ctx_name evs = count_calls is_free_ctx evs ∧
  (rc = DDS_RETCODE_OK →
   count_calls is_spawn evs = 1%nat ∧ count_calls is_free_ctx evs = 0%nat) ∧
  (rc = DDS_RETCODE_ERROR →
   count_calls is_free_ctx evs = count_calls is_spawn evs).
Proof.
  intros (cfg & tail & -> & Hcfg & _ & Htail)%create_trace.
  rewrite !count_calls_app.
  rewrite !(count_of_class _ _ _ Hcfg) by by_call.
  unfold spawn_calls_ok, spawn_calls_failed in Htail.
  destruct Htail as [(-> & -> & _)|[(-> & -> & _)|[(-> & -> & _)|(-> & -> & _)]]];
    destruct (ZEPHYR b); unfold count_calls; simpl; split_and!;
    try done; lia.
Qed.

Lemma create_frees_context_iff_spawn_fails_witness :
  ∃ st' evs,
    ddsrt_thread_create linux_build sample_os_spawn_fails "worker"
      ddsrt_threadattr_init 4242 5 sample_process
    = (DDS_RETCODE_ERROR, None, st', evs) ∧
    count_calls is_spawn evs = 1%nat ∧
    count_calls is_free_ctx evs = 1%nat ∧
    count_calls is_free_ctx_name evs = 1%nat.
Proof.
  destruct (ddsrt_thread_create linux_build sample_os_spawn_fails "worker"
              ddsrt_threadattr_init 4242 5 sample_process)
    as [[[rc h] st'] evs] eqn:Hrun.
  destruct (create_frees_context_iff_spawn_fails linux_build
              sample_os_spawn_fails "worker" ddsrt_threadattr_init 4242 5
              sample_process rc h st' evs Hrun) as (_ & Hname & _ & Herr).
  injection Hrun as <- <- <- <-.
  eexists _, _. split; [reflexivity|].
  rewrite Hname, Herr by reflexivity. split_and!; reflexivity.
Defined.

(** X10: [ddsrt_thread_create] answers OK or ERROR, nothing else.  With
    OK the handle is the one [pthread_create] stored, the thread is
    recorded under it with the given name, routine and argument, the
    signal mask of the caller is what it was and nothing was reported as
    an error.  With ERROR no thread is recorded and at most one error
    was reported. *)
Theorem create_returns_ok_or_error b os n attr r a st rc h st' evs :
  ddsrt_thread_create b os n attr r a st = (rc, h, st', evs) →
  (rc = DDS_RETCODE_OK ∧ h = Some (new_thread os) ∧
   threads st' = <[new_thread os := {| name := n; routine := r; arg := a |}]>
                   (threads st) ∧
   sigmask st' = sigmask st ∧ ans_pthread_create os = 0 ∧
   count_calls is_error_log evs = 0%nat) ∨
  (rc = DDS_RETCODE_ERROR ∧ threads st' = threads st ∧
   (count_calls is_error_log evs ≤ 1)%nat).
Proof.
  intros (cfg & tail & -> & Hcfg & Hlog & Htail)%create_trace.
  rewrite !count_calls_app.
  unfold spawn_calls_ok, spawn_calls_failed in Htail.
  destruct Htail as [(-> & -> & -> & ->)|[(-> & -> & -> & _ & ->)|
    [(-> & -> & -> & Hpc & Hm & -> & ->)|(-> & -> & -> & _ & _ & -> & ->)]]];
    [right | right | left | right];
    destruct (ZEPHYR b); unfold count_calls in *; simpl; split_and!;
    try done; lia.
Qed.

Lemma create_returns_ok_or_error_witness :
  ∃ st' evs,
    ddsrt_thread_create linux_build sample_os "worker"
      ddsrt_threadattr_init 4242 5 sample_process
    = (DDS_RETCODE_OK, Some 77, st', evs) ∧
    threads st' !! 77 = Some {| name := "worker"; routine := 4242; arg := 5 |} ∧
    count_calls is_error_log evs = 0%nat.
Proof.
  destruct (ddsrt_thread_create linux_build sample_os "worker"
              ddsrt_threadattr_init 4242 5 sample_process)
    as [[[rc h] st'] evs] eqn:Hrun.
  destruct (create_returns_ok_or_error linux_build sample_os "worker"
              ddsrt_threadattr_init 4242 5 sample_process rc h st' evs Hrun)
    as [(-> & -> & Ht & _ & _ & Hlog)|(-> & _)].
  - exists st', evs. split_and!; [reflexivity | | exact Hlog].
    rewrite Ht. apply lookup_insert_eq.
  - injection Hrun as Hrc _ _ _. discriminate Hrc.
Defined.

(** What a run of [ddsrt_thread_create] does about the stack is what its
    attribute stage does. *)
Lemma create_stack_readings b os n attr r a st rc h st' evs :
  ddsrt_thread_create b os n attr r a st = (rc, h, st', evs) →
  (stack_request_too_large b attr = true ∧ rc = DDS_RETCODE_ERROR ∧
   stack_sizes evs = [] ∧ static_stacks evs = [] ∧ st' = st ∧
   count_calls is_spawn evs = 0%nat) ∨
  (∃ t1 r2 st2 ev2,
     stack_request_too_large b attr = false ∧
     stackSize t1 = (if ZEPHYR b then CYCLONEDDS_THREAD_STACK_SIZE b
                     else stackSize attr) ∧
     init_pattr b os n t1 st = (r2, st2, ev2) ∧
     stack_sizes evs = stack_sizes ev2 ∧ static_stacks evs = static_stacks ev2 ∧
     currThrIdx st' = currThrIdx st2 ∧
     match r2 with
     | inl _ => rc = DDS_RETCODE_ERROR ∧ st' = st2 ∧
                count_calls is_spawn evs = 0%nat
     | inr _ => True
     end).
Proof.
  intros H. create_cases H.
  - left. destruct Hres as (-> & -> & ->).
    split_and!; try done.
    + apply (omap_of_class _ _ _ Hc1); by_call.
    + apply (omap_of_class _ _ _ Hc1); by_call.
    + apply (count_of_class _ _ _ Hc1); by_call.
  - right. exists t1, (inl e), st2, ev2.
    assert (count_calls is_spawn ev2 = 0%nat)
      by (apply (count_of_class _ _ _ Hc2); by_call).
    destruct e; [| |done]; destruct Hres as (-> & -> & ->);
      unfold stack_sizes, static_stacks;
      rewrite ?omap_app, ?count_calls_app, ?app_nil_r; simpl;
      rewrite ?app_nil_r; split_and!; try done.
    unfold count_calls in *; simpl; lia.
  - right. exists t1, (inr t2), st2, ev2. destruct Hres as (-> & -> & ->).
    unfold stack_sizes, static_stacks. rewrite !omap_app.
    rewrite !(omap_of_class _ _ _ Hc3) by by_call. simpl.
    rewrite !app_nil_r. by split_and!.
  - right. exists t1, (inr t2), st2, ev2. destruct Hres as (-> & -> & ->).
    unfold stack_sizes, static_stacks. rewrite !omap_app.
    rewrite !(omap_of_class _ _ _ Hc3), !(omap_of_class _ _ _ Hc4) by by_call.
    simpl. rewrite !app_nil_r. by split_and!.
  - right. exists t1, (inr t2), st2, ev2.
    destruct (ans_pthread_create os =? 0); injection H5 as <- <- <-;
      destruct Hres as (-> & -> & ->);
      unfold stack_sizes, static_stacks; rewrite !omap_app;
      rewrite !(omap_of_class _ _ _ Hc3), !(omap_of_class _ _ _ Hc4) by by_call;
      unfold spawn_calls_ok, spawn_calls_failed; destruct (ZEPHYR b); simpl;
      rewrite ?app_nil_r; by split_and!.
Qed.

(** X11: outside Zephyr a stack size of 0 leaves the stack size of the
    attribute object alone, and any other request is handed to
    [pthread_attr_setstacksize] once, raised to PTHREAD_STACK_MIN when
    that is defined and larger; a call that returns OK has done so.  No
    static stack is used. *)
Theorem create_raises_stack_size_to_minimum b os n attr r a st rc h st' evs :
  ZEPHYR b = false →
  ddsrt_thread_create b os n attr r a st = (rc, h, st', evs) →
  static_stacks evs = [] ∧ currThrIdx st' = currThrIdx st ∧
  (stack_sizes evs = [] ∨
   (stackSize attr ≠ 0 ∧ stack_sizes evs = [raised_stack_size b attr])) ∧
  (rc = DDS_RETCODE_OK →
   stack_sizes evs = if stackSize attr =? 0 then []
                     else [raised_stack_size b attr]).
Proof.
  intros Hz [(Hl & _)|(t1 & r2 & st2 & ev2 & _ & Hsize & H2 & -> & -> & -> & Hr2)]
    %create_stack_readings.
  { unfold stack_request_too_large in Hl. by rewrite Hz in Hl. }
  rewrite Hz in Hsize.
  pose proof (init_pattr_stack_posix _ _ _ _ _ _ _ _ Hz H2) as (-> & Hs & Hd & Hok).
  unfold raised_stack_size in *. rewrite Hsize in *.
  split_and!; [done | done | done |].
  intros ->. destruct r2 as [e|t2]; [by destruct Hr2|].
  specialize (Hok _ eq_refl). by destruct (stackSize attr =? 0); destruct Hok.
Qed.

Lemma create_raises_stack_size_to_minimum_witness :
  ∃ st' evs,
    ddsrt_thread_create linux_build sample_os "worker"
      default_class_small_stack 4242 5 sample_process
    = (DDS_RETCODE_OK, Some 77, st', evs) ∧
    stack_sizes evs = [16384].
Proof.
  destruct (ddsrt_thread_create linux_build sample_os "worker"
              default_class_small_stack 4242 5 sample_process)
    as [[[rc h] st'] evs] eqn:Hrun.
  destruct (create_raises_stack_size_to_minimum linux_build sample_os "worker"
              default_class_small_stack 4242 5 sample_process rc h st' evs
              eq_refl Hrun) as (_ & _ & _ & Hok).
  injection Hrun as <- <- <- <-.
  eexists _, _. split; [reflexivity|]. apply Hok. reflexivity.
Defined.

(** X12: on Zephyr [pthread_attr_setstacksize] is never called.  A static
    stack is assigned at most once per call, always the one at the current
    index, which is then below CYCLONEDDS_THREAD_COUNT, with the size of
    the static stacks (raised to PTHREAD_STACK_MIN when that is defined
    and larger).  The index moves on by one exactly when
    [pthread_attr_setstack] was called and succeeded, also when the call
    fails later.  With static stacks of a size other than 0, OK means the
    index moved on, and a process that has used them all up gets ERROR,
    is left as it was and starts no thread. *)
Theorem zephyr_create_takes_next_static_stack b os n attr r a st rc h st' evs :
  ZEPHYR b = true →
  ddsrt_thread_create b os n attr r a st = (rc, h, st', evs) →
  stack_sizes evs = [] ∧
  (static_stacks evs = [] ∨
   (currThrIdx st < CYCLONEDDS_THREAD_COUNT b ∧
    static_stacks evs =
      [(currThrIdx st,
        raised_stack_size b (set_stackSize (CYCLONEDDS_THREAD_STACK_SIZE b) attr))])) ∧
  (currThrIdx st' = if bool_decide (static_stacks evs = []) then currThrIdx st
                    else if ans_attr_setstack os =? 0 then currThrIdx st + 1
                    else currThrIdx st) ∧
  (CYCLONEDDS_THREAD_STACK_SIZE b ≠ 0 →
   (rc = DDS_RETCODE_OK → currThrIdx st' = currThrIdx st + 1) ∧
   (CYCLONEDDS_THREAD_COUNT b ≤ currThrIdx st →
    rc = DDS_RETCODE_ERROR ∧ st' = st ∧ count_calls is_spawn evs = 0%nat)).
Proof.
  intros Hz [(Hl & -> & -> & -> & -> & Hsp)|(t1 & r2 & st2 & ev2 & _ & Hsize & H2 & -> & -> & Hidx & Hr2)]
    %create_stack_readings.
  { split_and!; [done | by left | done |].
    intros _. split; [done|]. done. }
  rewrite Hz in Hsize.
  pose proof (init_pattr_stack_zephyr _ _ _ _ _ _ _ _ Hz H2) as (-> & Hcases & Hfull).
  assert (Hraised : raised_stack_size b t1
                    = raised_stack_size b (set_stackSize (CYCLONEDDS_THREAD_STACK_SIZE b) attr))
    by (unfold raised_stack_size; simpl; by rewrite Hsize).
  rewrite Hsize, Hraised in *. split; [done|].
  destruct Hcases as [(-> & -> & Hwhy)|(Hne & Hlt & -> & Hset)].
  - split_and!; [by left | by rewrite Hidx |].
    intros Hnz. split.
    + intros ->. destruct Hwhy as [?|[e ->]]; [done | by destruct Hr2].
    + intros Hge. destruct (Hfull Hnz Hge) as ([e ->] & _ & _).
      by destruct Hr2 as (-> & -> & Hsp).
  - split_and!; [by right | |].
    + rewrite Hidx. simpl.
      destruct Hset as [(-> & _ & ->)|(->%Z.eqb_neq & _ & ->)]; done.
    + intros _. split; [|lia].
      intros ->. destruct Hset as [(_ & _ & Hi)|(_ & -> & _)]; [lia | by destruct Hr2].
Qed.

Lemma zephyr_create_takes_next_static_stack_witness :
  ∃ h st' evs,
    ddsrt_thread_create zephyr_build sample_os "worker"
      ddsrt_threadattr_init 4242 5 stacks_used_up
    = (DDS_RETCODE_ERROR, h, st', evs) ∧
    st' = stacks_used_up ∧ static_stacks evs = [] ∧
    count_calls is_spawn evs = 0%nat.
Proof.
  destruct (ddsrt_thread_create zephyr_build sample_os "worker"
              ddsrt_threadattr_init 4242 5 stacks_used_up)
    as [[[rc h] st'] evs] eqn:Hrun.
  destruct (zephyr_create_takes_next_static_stack zephyr_build sample_os
              "worker" ddsrt_threadattr_init 4242 5 stacks_used_up
              rc h st' evs eq_refl Hrun) as (_ & [Hs|[Hlt _]] & _ & Hfull);
    [|simpl in Hlt; lia].
  destruct Hfull as [_ Hfull]; [discriminate|].
  destruct Hfull as (-> & -> & Hsp); [simpl; lia|].
  exists h, stacks_used_up, evs.
  split_and!; [reflexivity | reflexivity | exact Hs | exact Hsp].
Defined.

(** What a run of [ddsrt_thread_create] does about scheduling is what
    its scheduling stage does, and likewise for the affinity. *)
Lemma create_sched_readings b os n attr r a st rc h st' evs :
  ddsrt_thread_create b os n attr r a st = (rc, h, st', evs) →
  (rc = DDS_RETCODE_ERROR ∧ policies_set evs = [] ∧
   count_calls is_sched_call evs = 0%nat) ∨
  (∃ t2 r3 st2 ev3,
     same_request t2 attr ∧
     configure_scheduling b os n t2 st2 = (r3, st2, ev3) ∧
     policies_set evs = policies_set ev3 ∧
     count_calls is_sched_call evs = count_calls is_sched_call ev3 ∧
     (rc = DDS_RETCODE_OK → r3 = inr tt)).
Proof.
  intros H. create_cases H.
  - left. destruct Hres as (-> & -> & ->). split_and!; [done | |].
    + apply (omap_of_class _ _ _ Hc1); by_call.
    + apply (count_of_class _ _ _ Hc1); by_call.
  - left.
    assert (policies_set ev2 = [] ∧ count_calls is_sched_call ev2 = 0%nat) as [Hp Hs].
    { split; [apply (omap_of_class _ _ _ Hc2) | apply (count_of_class _ _ _ Hc2)];
        by_call. }
    destruct e; [| |done]; destruct Hres as (-> & -> & ->);
      unfold policies_set in *; rewrite ?omap_app, ?count_calls_app, ?Hp, ?Hs;
      by split_and!.
  - right. exists t2, (inl Exit_err), st2, ev3. destruct Hres as (-> & -> & ->).
    assert (Hsame : same_request t2 attr)
      by (unfold same_request in *; intuition congruence).
    unfold policies_set. rewrite !omap_app, !count_calls_app.
    rewrite (omap_of_class _ _ _ Hc2), (count_of_class _ _ _ Hc2) by by_call.
    simpl. rewrite ?app_nil_r. split_and!; try done; unfold count_calls; simpl; lia.
  - right. exists t2, (inr tt), st2, ev3. destruct Hres as (-> & -> & ->).
    assert (Hsame : same_request t2 attr)
      by (unfold same_request in *; intuition congruence).
    unfold policies_set. rewrite !omap_app, !count_calls_app.
    rewrite (omap_of_class _ _ _ Hc2), (count_of_class _ _ _ Hc2) by by_call.
    rewrite (omap_of_class _ _ _ Hc4), (count_of_class _ _ _ Hc4) by by_call.
    simpl. rewrite ?app_nil_r. split_and!; try done; unfold count_calls; simpl; lia.
  - right. exists t2, (inr tt), st2, ev3.
    assert (Hsame : same_request t2 attr)
      by (unfold same_request in *; intuition congruence).
    destruct (ans_pthread_create os =? 0); injection H5 as <- <- <-;
      destruct Hres as (-> & -> & ->);
      unfold policies_set; rewrite !omap_app, !count_calls_app;
      rewrite (omap_of_class _ _ _ Hc2), (count_of_class _ _ _ Hc2) by by_call;
      rewrite (omap_of_class _ _ _ Hc4), (count_of_class _ _ _ Hc4) by by_call;
      unfold spawn_calls_ok, spawn_calls_failed; destruct (ZEPHYR b); simpl;
      rewrite ?app_nil_r; split_and!; try done; unfold count_calls; simpl; lia.
Qed.

Lemma create_affinity_readings b os n attr r a st rc h st' evs :
  ddsrt_thread_create b os n attr r a st = (rc, h, st', evs) →
  (rc = DDS_RETCODE_ERROR ∧ affinity_sets evs = [] ∧
   count_calls is_spawn evs = 0%nat) ∨
  (∃ t2 r4 st2 ev4,
     same_request t2 attr ∧
     configure_affinity b os n t2 st2 = (r4, st2, ev4) ∧
     affinity_sets evs = affinity_sets ev4 ∧
     match r4 with
     | inl _ => rc = DDS_RETCODE_ERROR ∧ count_calls is_spawn evs = 0%nat
     | inr _ => True
     end).
Proof.
  intros H. create_cases H.
  - left. destruct Hres as (-> & -> & ->). split_and!; [done | |].
    + apply (omap_of_class _ _ _ Hc1); by_call.
    + apply (count_of_class _ _ _ Hc1); by_call.
  - left.
    assert (affinity_sets ev2 = [] ∧ count_calls is_spawn ev2 = 0%nat) as [Hp Hs].
    { split; [apply (omap_of_class _ _ _ Hc2) | apply (count_of_class _ _ _ Hc2)];
        by_call. }
    destruct e; [| |done]; destruct Hres as (-> & -> & ->);
      unfold affinity_sets in *; rewrite ?omap_app, ?count_calls_app, ?Hp, ?Hs;
      by split_and!.
  - left. destruct Hres as (-> & -> & ->).
    unfold affinity_sets. rewrite !omap_app, !count_calls_app.
    rewrite (omap_of_class _ _ _ Hc2), (count_of_class _ _ _ Hc2) by by_call.
    rewrite (omap_of_class _ _ _ Hc3), (count_of_class _ _ _ Hc3) by by_call.
    by split_and!.
  - right. exists t2, (inl Exit_err), st2, ev4. destruct Hres as (-> & -> & ->).
    assert (Hsame : same_request t2 attr)
      by (unfold same_request in *; intuition congruence).
    unfold affinity_sets. rewrite !omap_app, !count_calls_app.
    rewrite (omap_of_class _ _ _ Hc2), (count_of_class _ _ _ Hc2) by by_call.
    rewrite (omap_of_class _ _ _ Hc3), (count_of_class _ _ _ Hc3) by by_call.
    rewrite (count_of_class _ _ _ Hc4) by by_call.
    simpl. rewrite ?app_nil_r. by split_and!.
  - right. exists t2, (inr tt), st2, ev4.
    assert (Hsame : same_request t2 attr)
      by (unfold same_request in *; intuition congruence).
    destruct (ans_pthread_create os =? 0); injection H5 as <- <- <-;
      destruct Hres as (-> & -> & ->);
      unfold affinity_sets; rewrite !omap_app;
      rewrite (omap_of_class _ _ _ Hc2), (omap_of_class _ _ _ Hc3) by by_call;
      unfold spawn_calls_ok, spawn_calls_failed; destruct (ZEPHYR b); simpl;
      rewrite ?app_nil_r; by split_and!.
Qed.

Lemma cpuset_testbit cpus : ∀ cpuset i,
  Forall (λ c, 0 ≤ c) cpus → 0 ≤ i →
  Z.testbit (fold_left Z.setbit cpus cpuset) i = true
  ↔ Z.testbit cpuset i = true ∨ i ∈ cpus.
Proof.
  induction cpus as [|c cpus IH]; intros cpuset i Hall Hi; simpl.
  - split; [by left | intros [?|?%elem_of_nil]; done].
  - apply Forall_cons in Hall as [Hc Hall]. rewrite IH by done.
    rewrite Z.setbit_eqb by done. rewrite elem_of_cons, orb_true_iff, Z.eqb_eq.
    intuition (subst; auto).
Qed.

Lemma same_request_cpus t attr :
  same_request t attr →
  schedAffinityN t = schedAffinityN attr ∧ requested_cpus t = requested_cpus attr.
Proof. intros (_ & _ & HN & HS). unfold requested_cpus. by rewrite HN, HS. Qed.

(** X13: at most one CPU set is handed to [pthread_attr_setaffinity_np],
    and only on Linux with glibc for a request that names CPUs, all below
    CPU_SETSIZE; its bits are exactly the first [schedAffinityN] entries
    of [schedAffinitySet].  A call with such a request that returns OK
    has set it. *)
Theorem create_affinity_mask_holds_requested_cpus b os n attr r a st rc h st' evs :
  Forall (λ c, 0 ≤ c) (schedAffinitySet attr) →
  ddsrt_thread_create b os n attr r a st = (rc, h, st', evs) →
  (length (affinity_sets evs) ≤ 1)%nat ∧
  (∀ cpuset, cpuset ∈ affinity_sets evs →
     0 < schedAffinityN attr ∧ LINUX_GLIBC b = true ∧
     Forall (λ c, c < CPU_SETSIZE b) (requested_cpus attr) ∧
     ∀ i, 0 ≤ i → Z.testbit cpuset i = true ↔ i ∈ requested_cpus attr) ∧
  (rc = DDS_RETCODE_OK → 0 < schedAffinityN attr →
   length (affinity_sets evs) = 1%nat).
Proof.
  intros Hpos [(-> & -> & _)|(t2 & r4 & st2 & ev4 & Hsame & H4 & -> & Hr4)]
    %create_affinity_readings.
  { split_and!; [simpl; lia | by intros ? ?%elem_of_nil | done]. }
  apply same_request_cpus in Hsame as [HN Hcpus].
  pose proof (configure_affinity_run _ _ _ _ _ _ _ _ H4) as (_ & _ & _ & _ & _ & Ha).
  rewrite HN, Hcpus in Ha.
  assert (Hnonneg : Forall (λ c, 0 ≤ c) (requested_cpus attr))
    by (unfold requested_cpus; by apply Forall_take).
  destruct (0 <? schedAffinityN attr) eqn:HposN.
  - apply Z.ltb_lt in HposN. destruct (LINUX_GLIBC b).
    + destruct Ha as [(_ & -> & ->)|(Hin & -> & _)].
      * destruct Hr4 as [-> _].
        split_and!; [simpl; lia | by intros ? ?%elem_of_nil | done].
      * split_and!; [simpl; lia | | done].
        intros cpuset ->%list_elem_of_singleton. split_and!; try done.
        intros i Hi. unfold cpuset_of. rewrite cpuset_testbit by done.
        rewrite Z.bits_0. split; [intros [[=]|?]; done | by right].
    + destruct Ha as [-> ->], Hr4 as [-> _].
      split_and!; [simpl; lia | by intros ? ?%elem_of_nil | done].
  - apply Z.ltb_ge in HposN. destruct Ha as [-> ->].
    split_and!; [simpl; lia | by intros ? ?%elem_of_nil | lia].
Qed.

Lemma create_affinity_mask_holds_requested_cpus_witness :
  ∃ st' evs cpuset,
    ddsrt_thread_create linux_build sample_os "worker" two_cpus 4242 5
      sample_process
    = (DDS_RETCODE_OK, Some 77, st', evs) ∧
    affinity_sets evs = [cpuset] ∧
    Z.testbit cpuset 3 = true ∧ Z.testbit cpuset 1 = false.
Proof.
  destruct (ddsrt_thread_create linux_build sample_os "worker" two_cpus 4242 5
              sample_process) as [[[rc h] st'] evs] eqn:Hrun.
  destruct (create_affinity_mask_holds_requested_cpus linux_build sample_os
              "worker" two_cpus 4242 5 sample_process rc h st' evs)
    as (_ & Hbits & _); [repeat constructor; done | exact Hrun |].
  injection Hrun as <- <- <- <-.
  eexists _, _, _. split_and!; reflexivity.
Defined.

(** X14: a request for CPUs fails with ERROR before any thread is
    started, and without a CPU set handed over, on a platform other than
    Linux with glibc and when one of the requested CPU ids is CPU_SETSIZE
    or more. *)
Theorem create_fails_on_affinity_it_cannot_set b os n attr r a st rc h st' evs :
  0 < schedAffinityN attr →
  LINUX_GLIBC b = false ∨ Exists (λ c, CPU_SETSIZE b ≤ c) (requested_cpus attr) →
  ddsrt_thread_create b os n attr r a st = (rc, h, st', evs) →
  rc = DDS_RETCODE_ERROR ∧ affinity_sets evs = [] ∧
  count_calls is_spawn evs = 0%nat.
Proof.
  intros HposN Hbad
    [(-> & -> & ->)|(t2 & r4 & st2 & ev4 & Hsame & H4 & -> & Hr4)]
    %create_affinity_readings; [done|].
  apply same_request_cpus in Hsame as [HN Hcpus].
  pose proof (configure_affinity_run _ _ _ _ _ _ _ _ H4) as (_ & _ & _ & _ & _ & Ha).
  rewrite HN, Hcpus in Ha. apply Z.ltb_lt in HposN. rewrite HposN in Ha.
  destruct (LINUX_GLIBC b).
  - destruct Hbad as [[=]|Hex].
    destruct Ha as [(_ & -> & ->)|(Hin & _)]; [by destruct Hr4|].
    exfalso. apply Exists_exists in Hex as (c & Hc & Hge).
    rewrite Forall_forall in Hin. specialize (Hin c Hc). lia.
  - destruct Ha as [-> ->]. by destruct Hr4.
Qed.

Lemma create_fails_on_affinity_it_cannot_set_witness :
  ∃ st' evs,
    ddsrt_thread_create linux_build sample_os "worker" cpu_out_of_range 4242 5
      sample_process
    = (DDS_RETCODE_ERROR, None, st', evs) ∧
    affinity_sets evs = [] ∧ count_calls is_spawn evs = 0%nat.
Proof.
  destruct (ddsrt_thread_create linux_build sample_os "worker" cpu_out_of_range
              4242 5 sample_process) as [[[rc h] st'] evs] eqn:Hrun.
  destruct (create_fails_on_affinity_it_cannot_set linux_build sample_os
              "worker" cpu_out_of_range 4242 5 sample_process rc h st' evs)
    as (-> & Ha & Hs); [simpl; lia | | exact Hrun |].
  { right. apply Exists_cons_tl, Exists_cons_hd. simpl. lia. }
  injection Hrun as <- <- <-.
  eexists _, _. split_and!; [reflexivity | exact Ha | exact Hs].
Defined.

(** X15: outside Zephyr a request of class DEFAULT never reads or sets a
    policy or a priority, whether it is accepted or not: the new thread
    is left with what it inherits. *)
Theorem create_default_class_leaves_scheduling_alone b os n attr r a st rc h st' evs :
  ZEPHYR b = false →
  schedClass attr = DDSRT_SCHED_DEFAULT →
  ddsrt_thread_create b os n attr r a st = (rc, h, st', evs) →
  count_calls is_sched_call evs = 0%nat ∧ policies_set evs = [] ∧
  applied_priorities evs = [].
Proof.
  intros Hz Hclass Hrun.
  assert (Hcount : count_calls is_sched_call evs = 0%nat).
  { apply create_sched_readings in Hrun
      as [(_ & _ & ?)|(t2 & r3 & st2 & ev3 & Hsame & H3 & _ & -> & _)]; [done|].
    destruct Hsame as (Hc & _). rewrite <- Hc in Hclass.
    pose proof (configure_scheduling_run _ _ _ _ _ _ _ _ H3)
      as (_ & _ & _ & _ & _ & _ & Hd).
    by destruct (Hd Hz Hclass). }
  split; [done|].
  assert (Hnone : of_class (λ e, negb (is_sched_call e)) evs).
  { unfold count_calls in Hcount. apply length_zero_iff_nil in Hcount.
    apply Forall_forall. intros e He. destruct (is_sched_call e) eqn:Hs; [|done].
    assert (Hin : e ∈ List.filter is_sched_call evs)
      by (apply list_elem_of_In, filter_In; split; [by apply list_elem_of_In | done]).
    rewrite Hcount in Hin. by apply elem_of_nil in Hin. }
  split; apply (omap_of_class _ _ _ Hnone); by_call.
Qed.

Lemma create_default_class_leaves_scheduling_alone_witness :
  ∃ rc h st' evs,
    ddsrt_thread_create linux_build sample_os "worker"
      default_class_priority_5 4242 5 sample_process
    = (rc, h, st', evs) ∧
    count_calls is_sched_call evs = 0%nat.
Proof.
  destruct (ddsrt_thread_create linux_build sample_os "worker"
              default_class_priority_5 4242 5 sample_process)
    as [[[rc h] st'] evs] eqn:Hrun.
  destruct (create_default_class_leaves_scheduling_alone linux_build sample_os
              "worker" default_class_priority_5 4242 5 sample_process
              rc h st' evs eq_refl eq_refl Hrun) as (Hcount & _).
  exists rc, h, st', evs. split; [reflexivity | exact Hcount].
Defined.

(** X16: the policy handed to [pthread_attr_setschedpolicy] is SCHED_FIFO
    for class REALTIME and SCHED_OTHER for class TIMESHARE, set at most
    once; for class DEFAULT no policy is set.  A call that returns OK has
    set the policy of a class other than DEFAULT. *)
Theorem create_sets_policy_of_class b os n attr r a st rc h st' evs :
  ddsrt_thread_create b os n attr r a st = (rc, h, st', evs) →
  (policies_set evs = [] ∨
   policies_set evs =
     match schedClass attr with
     | DDSRT_SCHED_DEFAULT => []
     | DDSRT_SCHED_REALTIME => [SCHED_FIFO b]
     | DDSRT_SCHED_TIMESHARE => [SCHED_OTHER b]
     end) ∧
  (rc = DDS_RETCODE_OK →
   policies_set evs =
     match schedClass attr with
     | DDSRT_SCHED_DEFAULT => []
     | DDSRT_SCHED_REALTIME => [SCHED_FIFO b]
     | DDSRT_SCHED_TIMESHARE => [SCHED_OTHER b]
     end).
Proof.
  intros [(-> & -> & _)|(t2 & r3 & st2 & ev3 & Hsame & H3 & -> & _ & Hok)]
    %create_sched_readings; [split; [by left | done]|].
  destruct Hsame as (Hc & _).
  pose proof (configure_scheduling_run _ _ _ _ _ _ _ _ H3)
    as (_ & _ & _ & _ & Hp & Hpok & _).
  rewrite Hc in *. split.
  - destruct Hp as [->|[Hd ->]]; [by left | right].
    by destruct (schedClass attr).
  - intros ->%Hok. rewrite Hpok by done. by destruct (schedClass attr).
Qed.

Lemma create_sets_policy_of_class_witness :
  ∃ st' evs,
    ddsrt_thread_create qnx_build sample_os "worker" timeshare_priority_0
      4242 5 sample_process
    = (DDS_RETCODE_OK, Some 77, st', evs) ∧
    policies_set evs = [3].
Proof.
  destruct (ddsrt_thread_create qnx_build sample_os "worker"
              timeshare_priority_0 4242 5 sample_process)
    as [[[rc h] st'] evs] eqn:Hrun.
  destruct (create_sets_policy_of_class qnx_build sample_os "worker"
              timeshare_priority_0 4242 5 sample_process rc h st' evs Hrun)
    as (_ & Hok).
  injection Hrun as <- <- <- <-.
  eexists _, _. split; [reflexivity|]. apply Hok. reflexivity.
Defined.

Lemma init_pattr_without_stack b os n tattr st r st' evs :
  ZEPHYR b = false → stackSize tattr = 0 →
  init_pattr b os n tattr st = (r, st', evs) →
  (∃ t, r = inr t) ↔
  ans_attr_init os = 0 ∧ ans_attr_setscope os = 0 ∧ ans_attr_setdetachstate os = 0.
Proof.
  intros Hz Hs. wp_start. unfold init_pattr. rewrite Hs.
  repeat (wp_step; try congruence); simpl.
  all: rewrite ?Z.eqb_eq, ?Z.eqb_neq in *.
  all: split; [intros [t [=]] | intros (? & ? & ?)]; try done; eauto.
Qed.

(** X17: for a request as [ddsrt_threadattr_init] leaves it (class
    DEFAULT, priority 0, no affinity, stack size 0) the outcome outside
    Zephyr depends on four calls only: the answer is OK exactly when
    [pthread_attr_init], [pthread_attr_setscope],
    [pthread_attr_setdetachstate] and [pthread_create] succeed. *)
Theorem create_with_default_attributes b os n attr r a st rc h st' evs :
  ZEPHYR b = false →
  schedClass attr = DDSRT_SCHED_DEFAULT → schedPriority attr = 0 →
  schedAffinityN attr = 0 → stackSize attr = 0 →
  ddsrt_thread_create b os n attr r a st = (rc, h, st', evs) →
  rc = DDS_RETCODE_OK ↔
  ans_attr_init os = 0 ∧ ans_attr_setscope os = 0 ∧
  ans_attr_setdetachstate os = 0 ∧ ans_pthread_create os = 0.
Proof.
  intros Hz Hclass Hprio Haff Hstack H. create_cases H.
  - unfold stack_request_too_large in Hlarge. by rewrite Hz in Hlarge.
  - rewrite Hz in Hsize1. rewrite <- Hsize1 in Hstack.
    pose proof (init_pattr_without_stack _ _ _ _ _ _ _ _ Hz Hstack H2) as Hiff.
    assert (rc = DDS_RETCODE_ERROR) as -> by (by destruct e, Hres).
    split; [done|]. intros (? & ? & ? & _).
    destruct Hiff as [_ [t [=]]]; done.
  - exfalso. destruct Hsame1 as (Hc1 & Hp1 & _), Hsame2 as (Hc2' & Hp2 & _).
    destruct Hd3 as [_ Hd3]; [done | congruence |].
    destruct Hd3 as [[=] _]. congruence.
  - exfalso. destruct Hsame1 as (_ & _ & HN1 & _), Hsame2 as (_ & _ & HN2 & _).
    assert (HN : schedAffinityN t2 = 0) by congruence.
    rewrite HN in Ha4. simpl in Ha4. by destruct Ha4 as [[=] _].
  - rewrite Hz in Hsize1. rewrite <- Hsize1 in Hstack.
    pose proof (init_pattr_without_stack _ _ _ _ _ _ _ _ Hz Hstack H2) as [Hiff _].
    destruct Hiff as (? & ? & ?); [by eexists|].
    destruct (ans_pthread_create os =? 0) eqn:Hpc; injection H5 as <- <- <-;
      destruct Hres as (-> & _);
      [apply Z.eqb_eq in Hpc | apply Z.eqb_neq in Hpc]; split; try done.
    by intros (_ & _ & _ & ?).
Qed.

Lemma create_with_default_attributes_witness :
  ∃ h st' evs,
    ddsrt_thread_create linux_build sample_os "worker" ddsrt_threadattr_init
      4242 5 sample_process
    = (DDS_RETCODE_OK, h, st', evs).
Proof.
  destruct (ddsrt_thread_create linux_build sample_os "worker"
              ddsrt_threadattr_init 4242 5 sample_process)
    as [[[rc h] st'] evs] eqn:Hrun.
  destruct (create_with_default_attributes linux_build sample_os "worker"
              ddsrt_threadattr_init 4242 5 sample_process rc h st' evs
              eq_refl eq_refl eq_refl eq_refl eq_refl Hrun) as [_ Hok].
  rewrite Hok by (split_and!; reflexivity).
  by exists h, st', evs.
Defined.

(** X18: [ddsrt_thread_join] either fails with ERROR, and then stores no
    result, leaves the process as it was and reports the error of
    [pthread_join] once, or returns OK for a joinable thread, which is
    joinable no longer, reports nothing, and stores a result exactly when
    asked for one. *)
Theorem join_failure_stores_nothing b code os_err thread want st rc res st' evs :
  ddsrt_thread_join b code os_err thread want st = (rc, res, st', evs) →
  (rc = DDS_RETCODE_ERROR ∧ res = None ∧ st' = st ∧
   (os_err ≠ 0 ∨ threads st !! thread = None) ∧
   ∃ err, err ≠ 0 ∧
     evs = [Ev_pthread_join thread;
            Ev_log LOG_ERROR EmptyString (Msg_pthread_join_failed thread err)]) ∨
  (rc = DDS_RETCODE_OK ∧ os_err = 0 ∧
   threads st' = delete thread (threads st) ∧
   count_calls is_error_log evs = 0%nat ∧
   is_Some (threads st !! thread) ∧ (is_Some res ↔ want = true)).
Proof.
  unfold ddsrt_thread_join, pthread_join.
  destruct (threads st !! thread) as [ctx|] eqn:Hlook.
  - destruct (os_err =? 0) eqn:Herr.
    + apply Z.eqb_eq in Herr. simpl. intros [= <- <- <- <-]. right.
      split_and!; try done.
      * by destruct (VXWORKS_RTP b).
      * by destruct want.
    + simpl. rewrite Herr. simpl. intros [= <- <- <- <-]. left.
      apply Z.eqb_neq in Herr. split_and!; try done; [by left | by exists os_err].
  - simpl. intros [= <- <- <- <-]. left.
    split_and!; try done; [by right | by exists ESRCH].
Qed.

Lemma join_failure_stores_nothing_witness :
  ∃ evs,
    ddsrt_thread_join linux_build (λ _ x, x) 0 78 true one_joinable_thread
    = (DDS_RETCODE_ERROR, None, one_joinable_thread, evs) ∧
    count_calls is_error_log evs = 1%nat.
Proof.
  destruct (ddsrt_thread_join linux_build (λ _ x, x) 0 78 true
              one_joinable_thread) as [[[rc res] st'] evs] eqn:Hrun.
  destruct (join_failure_stores_nothing linux_build (λ _ x, x) 0 78 true
              one_joinable_thread rc res st' evs Hrun)
    as [(-> & -> & -> & _ & err & _ & ->)|(_ & _ & _ & _ & [ctx Hctx] & _)].
  - by eexists.
  - discriminate Hctx.
Defined.

(** X19: the context of a thread started by [ddsrt_thread_create] and
    then joined is freed exactly once over both calls, name and record:
    not by the creator, but by the start routine wrapper of the thread.
    After the join the thread is joinable no longer, the other threads
    of the process are recorded as before the creation, and the signal
    mask of the caller is what it was. *)
Theorem created_thread_releases_its_context b code os n attr r a st h st1 evs
    want rc res st2 evs2 :
  ddsrt_thread_create b os n attr r a st = (DDS_RETCODE_OK, Some h, st1, evs) →
  ddsrt_thread_join b code 0 h want st1 = (rc, res, st2, evs2) →
  rc = DDS_RETCODE_OK ∧
  count_calls is_free_ctx (evs ++ evs2) = 1%nat ∧
  count_calls is_free_ctx_name (evs ++ evs2) = 1%nat ∧
  count_calls is_free_ctx evs = 0%nat ∧
  count_calls is_free_ctx_name evs = 0%nat ∧
  threads st2 = delete h (threads st) ∧ sigmask st2 = sigmask st.
Proof.
  intros (cfg & tail & -> & Hcfg & _ & Htail)%create_trace.
  destruct Htail as [(_ & [=] & _)|[(_ & [=] & _)|[Hok|(_ & [=] & _)]]].
  destruct Hok as (-> & _ & [= ->] & _ & Hm & Ht & _).
  unfold ddsrt_thread_join, pthread_join. rewrite Ht, lookup_insert_eq. simpl.
  intros [= <- <- <- <-]. simpl.
  rewrite !count_calls_app, !(count_of_class _ _ _ Hcfg) by by_call.
  split_and!; try done.
  1-4: unfold spawn_calls_ok, count_calls; by destruct (ZEPHYR b), (VXWORKS_RTP b).
  apply delete_insert_eq.
Qed.

Lemma created_thread_releases_its_context_witness :
  ∃ st1 evs res st2 evs2,
    ddsrt_thread_create linux_build sample_os "worker" ddsrt_threadattr_init
      4242 5 sample_process
    = (DDS_RETCODE_OK, Some 77, st1, evs) ∧
    ddsrt_thread_join linux_build (λ _ x, x + 1) 0 77 true st1
    = (DDS_RETCODE_OK, res, st2, evs2) ∧
    count_calls is_free_ctx (evs ++ evs2) = 1%nat.
Proof.
  set (c := ddsrt_thread_create linux_build sample_os "worker"
              ddsrt_threadattr_init 4242 5 sample_process).
  set (st1 := c.1.2). set (evs := c.2).
  assert (Hc : c = (DDS_RETCODE_OK, Some 77, st1, evs)) by reflexivity.
  destruct (ddsrt_thread_join linux_build (λ _ x, x + 1) 0 77 true st1)
    as [[[rc res] st2] evs2] eqn:Hj.
  destruct (created_thread_releases_its_context _ _ _ _ _ _ _ _ _ _ _ _ _ _ _ _
              Hc Hj) as (-> & Hfree & _).
  exists st1, evs, res, st2, evs2. split_and!; [exact Hc | exact Hj | exact Hfree].
Defined.

(** *** The fall-back priority *)

(** A scheduling stage that runs to its end for a class other than
    DEFAULT has had its priority accepted. *)
Lemma configure_scheduling_stores_priority b os n tattr st st' evs :
  is_default (schedClass tattr) = false →
  configure_scheduling b os n tattr st = (inr tt, st', evs) →
  ans_attr_setschedparam os = 0.
Proof.
  intros Hd Hrun.
  enough (Hwp : wp (configure_scheduling b os n tattr) st
                  (λ r _ _, r = inr tt → ans_attr_setschedparam os = 0)).
  { unfold wp in Hwp. rewrite Hrun in Hwp. by apply Hwp. }
  unfold configure_scheduling, set_policy_and_priority. rewrite Hd, andb_false_r.
  wp_run; simpl; rewrite ?Z.eqb_eq in *; done.
Qed.

(** C4 (the defect): the priority [ddsrt_thread_create] falls back to is
    the creator's own, read with [pthread_getschedparam] under the
    creator's policy (on Zephyr: that of the fresh attribute object), not
    one of the policy of the requested class.  For a class other than
    DEFAULT and a requested priority outside the range of its policy,
    when the creator's priority is outside that range as well and the
    threads library checks the priority it is handed, the call warns,
    hands over the creator's priority, is refused, and returns ERROR
    without starting a thread. *)
Theorem create_fallback_priority_is_refused b os n attr r a st rc h st' evs :
  schedClass attr ≠ DDSRT_SCHED_DEFAULT →
  priority_in_range os (class_policy b os (schedClass attr))
    (schedPriority attr) = false →
  priority_in_range os (class_policy b os (schedClass attr))
    (ambient_priority b os) = false →
  checks_priority b os attr →
  ddsrt_thread_create b os n attr r a st = (rc, h, st', evs) →
  rc = DDS_RETCODE_ERROR ∧ count_calls is_spawn evs = 0%nat ∧
  threads st' = threads st ∧
  ((applied_priorities evs = [ambient_priority b os] ∧
    warnings evs = [Msg_priority_invalid (schedPriority attr)
                      (class_policy b os (schedClass attr))
                      (ambient_priority b os)]) ∨
   (applied_priorities evs = [] ∧ warnings evs = [])).
Proof.
  intros Hclass Hreq Hamb Hchk Hrun.
  assert (Happ : applied_priority b os attr = ambient_priority b os)
    by (unfold applied_priority; by rewrite Hreq).
  assert (Hwarn : expected_warnings b os attr
                  = [Msg_priority_invalid (schedPriority attr)
                       (class_policy b os (schedClass attr))
                       (ambient_priority b os)])
    by (unfold expected_warnings; by rewrite Hreq).
  assert (Hans : ans_attr_setschedparam os ≠ 0)
    by (apply Hchk; by rewrite Happ).
  assert (Hprio : (applied_priorities evs = [ambient_priority b os] ∧
                   warnings evs = [Msg_priority_invalid (schedPriority attr)
                                     (class_policy b os (schedClass attr))
                                     (ambient_priority b os)]) ∨
                  (applied_priorities evs = [] ∧ warnings evs = [])).
  { destruct (create_priority_handed_over _ _ _ _ _ _ _ _ _ _ _ Hclass Hrun)
      as [[[Ha Hw]|(_ & Ha & Hw)] _]; [left | right]; [|done].
    by rewrite Ha, Hw, Happ, Hwarn. }
  assert (Hd : ∀ t, schedClass t = schedClass attr →
                    is_default (schedClass t) = false).
  { intros t ->. by destruct (schedClass attr). }
  enough (rc = DDS_RETCODE_ERROR ∧ count_calls is_spawn evs = 0%nat ∧
          threads st' = threads st) as (? & ? & ?) by done.
  clear Hprio. create_cases Hrun.
  - destruct Hres as (-> & _ & ->). split_and!; [done | | done].
    apply (count_of_class _ _ _ Hc1); by_call.
  - assert (count_calls is_spawn ev2 = 0%nat)
      by (apply (count_of_class _ _ _ Hc2); by_call).
    destruct e; [| |done]; destruct Hres as (-> & _ & ->);
      rewrite ?count_calls_app; split_and!; try done.
    unfold count_calls in *; simpl; lia.
  - destruct Hres as (-> & _ & ->). rewrite !count_calls_app.
    rewrite (count_of_class _ _ _ Hc2), (count_of_class _ _ _ Hc3) by by_call.
    by split_and!.
  - destruct Hres as (-> & _ & ->). rewrite !count_calls_app.
    rewrite (count_of_class _ _ _ Hc2), (count_of_class _ _ _ Hc3),
      (count_of_class _ _ _ Hc4) by by_call.
    by split_and!.
  - exfalso. apply Hans.
    apply (configure_scheduling_stores_priority _ _ _ _ _ _ _ (Hd t2 ltac:(
      destruct Hsame1 as (? & _), Hsame2 as (? & _); congruence)) H3).
Qed.

Lemma create_fallback_priority_is_refused_witness :
  ddsrt_thread_create linux_build sample_os_checks_priority "worker"
    realtime_priority_500 4242 5 sample_process
  = (DDS_RETCODE_ERROR, None, sample_process,
     [Ev_attr_init; Ev_attr_setscope; Ev_attr_setdetachstate;
      Ev_getschedparam_self; Ev_attr_setschedpolicy 1;
      Ev_log LOG_WARNING "worker" (Msg_priority_invalid 500 1 0);
      Ev_attr_setschedparam 0;
      Ev_log LOG_ERROR "worker" (Msg_setschedparam_failed 500 EINVAL);
      Ev_attr_destroy])
  ∧ priority_in_range sample_os_checks_priority 1 500 = false
  ∧ priority_in_range sample_os_checks_priority 1 0 = false.
Proof.
  destruct (ddsrt_thread_create linux_build sample_os_checks_priority "worker"
              realtime_priority_500 4242 5 sample_process)
    as [[[rc h] st'] evs] eqn:Hrun.
  destruct (create_fallback_priority_is_refused linux_build
              sample_os_checks_priority "worker" realtime_priority_500 4242 5
              sample_process rc h st' evs) as (-> & _);
    [discriminate | reflexivity | reflexivity | intros _; discriminate
    | exact Hrun |].
  vm_compute in Hrun. injection Hrun as <- <- <-.
  split_and!; reflexivity.
Defined.

End CreateFacts.

(** ** Thread enumeration *)

Section EnumerateFacts.
Import Enumerate.

Lemma length_append (s1 s2 : string) :
  String.length (s1 +:+ s2) = (String.length s1 + String.length s2)%nat.
Proof. induction s1 as [|c s1 IH]; simpl; [done | by rewrite IH]. Qed.

(** A number below 10^k is written with at most k digits. *)
Lemma decimal_digits_length fuel : ∀ v (k : nat),
  (1 ≤ k)%nat → v < 10 ^ Z.of_nat k →
  (String.length (decimal_digits fuel v) ≤ k)%nat.
Proof.
  induction fuel as [|fuel IH]; intros v k Hk Hv; simpl; [lia|].
  destruct (v <? 10) eqn:Hlt; simpl; [lia|].
  apply Z.ltb_ge in Hlt. rewrite length_append. simpl.
  destruct k as [|[|k]]; [lia | simpl in Hv; lia |].
  assert (v / 10 < 10 ^ Z.of_nat (S k)).
  { apply Z.div_lt_upper_bound; [lia|].
    replace (Z.of_nat (S (S k))) with (Z.of_nat (S k) + 1) in Hv by lia.
    rewrite Z.pow_add_r in Hv by lia. lia. }
  specialize (IH (v / 10) (S k)). lia.
Qed.

Lemma format_unsigned_length v w :
  0 ≤ w ≤ 64 → 0 ≤ v < 2 ^ w → strlen (format_unsigned v) ≤ 20.
Proof.
  intros Hw Hv. unfold strlen, format_unsigned.
  assert (2 ^ w ≤ 2 ^ 64) by (apply Z.pow_le_mono_r; lia).
  pose proof (decimal_digits_length (S (Z.to_nat (Z.log2 v))) v 20) as H20.
  assert (v < 10 ^ Z.of_nat 20) by (change (10 ^ Z.of_nat 20) with (10 ^ 20); lia).
  lia.
Qed.

Lemma task_stat_path_length b tid :
  0 ≤ WORD_BITS b ≤ 64 → 0 ≤ strlen (Linux.task_stat_path b tid) ≤ 41.
Proof.
  intros Hw. unfold Linux.task_stat_path.
  pose proof (format_unsigned_length (to_unsigned_long b tid) (WORD_BITS b) Hw) as Hlen.
  unfold strlen in *. rewrite !length_append. simpl.
  assert (0 ≤ to_unsigned_long b tid < 2 ^ WORD_BITS b)
    by (apply Z.mod_pos_bound, Z.pow_pos_nonneg; lia).
  lia.
Qed.

(** The Linux back end never answers ERROR: the path always fits. *)
Lemma linux_getname_never_error b fopen tid name_ size :
  0 ≤ WORD_BITS b ≤ 64 →
  (Linux.ddsrt_thread_getname_anythread b fopen tid name_ size).1 ≠ DDS_RETCODE_ERROR.
Proof.
  intros Hw. unfold Linux.ddsrt_thread_getname_anythread.
  pose proof (task_stat_path_length b tid Hw) as Hlen.
  replace (strlen (Linux.task_stat_path b tid) <? 0) with false by lia.
  replace (100 <=? strlen (Linux.task_stat_path b tid)) with false by lia.
  simpl. destruct (fopen _); [|done].
  by destruct (Linux.read_name _ _ _ _ _).
Qed.

(** The path of the address space file always fits its buffer. *)
Lemma qnx_as_path_fits pid :
  0 ≤ pid < 10 ^ 10 →
  0 ≤ strlen ("/proc/" +:+ format_signed pid +:+ "/as") < 32.
Proof.
  intros Hpid. unfold strlen, format_signed, format_unsigned.
  replace (pid <? 0) with false by lia.
  pose proof (decimal_digits_length (S (Z.to_nat (Z.log2 pid))) pid 10) as H10.
  set (digits := decimal_digits _ _) in *.
  rewrite !length_append. simpl.
  assert (pid < 10 ^ Z.of_nat 10) by (change (10 ^ Z.of_nat 10) with (10 ^ 10); lia).
  lia.
Qed.

(** The QNX back end, outcome by outcome, for a process id of at most ten
    digits and a [name_buf_len] that fits a [size_t]. *)
Lemma qnx_getname_outcomes b len os ctl tid name_ size :
  0 ≤ QNX.getpid os < 10 ^ 10 → 0 ≤ len < 2 ^ WORD_BITS b →
  QNX.ddsrt_thread_getname_anythread b len os ctl tid name_ size
  = if QNX.open_fd os =? -1 then (DDS_RETCODE_NOT_FOUND, Some name_)
    else if len <? size then (DDS_RETCODE_NOT_ENOUGH_SPACE, Some name_)
    else if negb (QNX.threadctl_ret ctl =? 0) then (DDS_RETCODE_ERROR, Some name_)
    else if negb (QNX.threadctl_tid ctl =? tid)
         then (DDS_RETCODE_NOT_FOUND, Some name_)
    else (DDS_RETCODE_OK,
          if (1 <=? size) && (size <=? Z.of_nat (length name_))
          then Some (store (QNX.strncpy name_ (QNX.threadctl_name ctl) (size - 1))
                       (size - 1) 0)
          else None).
Proof.
  intros Hpid Hlen. unfold QNX.ddsrt_thread_getname_anythread.
  pose proof (qnx_as_path_fits _ Hpid) as Hpath.
  replace (strlen _ <? 0) with false by lia.
  replace (100 <=? strlen _) with false by lia. simpl.
  unfold to_size_t. by rewrite Z.mod_small.
Qed.

(** C9 does not hold on every back end.  macOS has no NOT_FOUND outcome:
    a port that belongs to no thread gets a made-up name and OK.  QNX
    answers ERROR when [devctl] fails, as for an identifier the kernel
    finds no thread for, and NOT_ENOUGH_SPACE, before it looks for the
    thread at all, when [size] is more than the name buffer of the
    kernel holds; both times the buffer is left alone. *)
Lemma getname_of_missing_thread_is_ok_or_error :
  Apple.ddsrt_thread_getname_anythread (λ _, None) 123 16
    = (DDS_RETCODE_OK, Some "task123"%string)
  ∧ DDS_RETCODE_OK ≠ DDS_RETCODE_NOT_FOUND
  ∧ QNX.ddsrt_thread_getname_anythread qnx_build 1012 QNX.three_threads
      QNX.answer_no_such_thread 9 [1; 1; 1; 1] 4
    = (DDS_RETCODE_ERROR, Some [1; 1; 1; 1])
  ∧ QNX.ddsrt_thread_getname_anythread qnx_build 1012 QNX.three_threads
      QNX.answer_for_next_thread 9 (replicate 2000 1) 2000
    = (DDS_RETCODE_NOT_ENOUGH_SPACE, Some (replicate 2000 1))
  ∧ DDS_RETCODE_NOT_ENOUGH_SPACE ≠ DDS_RETCODE_NOT_FOUND.
Proof.
  split_and!; [vm_compute; reflexivity | done | vm_compute; reflexivity
              | vm_compute; reflexivity | done].
Qed.

(** C9, amended: an identifier that names no live thread gets NOT_FOUND,
    which is not ERROR, and the name buffer is not written, on the Linux
    back end when [/proc/self/task] has no [stat] file for it (it never
    named a thread of the process, or the thread is gone), and on the QNX
    back end when the address space file of the process cannot be opened
    or when [devctl], asked with a [size] within the name buffer of the
    kernel, answers for another thread than the one asked for. *)
Theorem getname_of_missing_thread_is_not_found b :
  0 ≤ WORD_BITS b ≤ 64 →
  (∀ fopen tid name_ size,
     fopen (Linux.task_stat_path b tid) = None →
     Linux.ddsrt_thread_getname_anythread b fopen tid name_ size
       = (DDS_RETCODE_NOT_FOUND, name_)) ∧
  (∀ len os ctl tid name_ size,
     0 ≤ QNX.getpid os < 10 ^ 10 → 0 ≤ len < 2 ^ WORD_BITS b →
     QNX.open_fd os = -1 ∨
     (size ≤ len ∧ QNX.threadctl_ret ctl = 0 ∧ QNX.threadctl_tid ctl ≠ tid) →
     QNX.ddsrt_thread_getname_anythread b len os ctl tid name_ size
       = (DDS_RETCODE_NOT_FOUND, Some name_)) ∧
  DDS_RETCODE_NOT_FOUND ≠ DDS_RETCODE_ERROR.
Proof.
  intros Hw. split_and!; [| |done].
  - intros fopen tid name_ size Hnone.
    unfold Linux.ddsrt_thread_getname_anythread.
    pose proof (task_stat_path_length b tid Hw) as Hlen.
    replace (strlen (Linux.task_stat_path b tid) <? 0) with false by lia.
    replace (100 <=? strlen (Linux.task_stat_path b tid)) with false by lia.
    simpl. by rewrite Hnone.
  - intros len os ctl tid name_ size Hpid Hlen Hmiss.
    rewrite qnx_getname_outcomes by done.
    destruct (QNX.open_fd os =? -1) eqn:Hfd; [done|].
    destruct Hmiss as [Hopen|(Hsize & Hret & Htid)];
      [apply Z.eqb_neq in Hfd; done|].
    replace (len <? size) with false by lia.
    rewrite Hret. simpl.
    by rewrite (proj2 (Z.eqb_neq _ _) Htid).
Qed.

Lemma getname_of_missing_thread_is_not_found_witness :
  Linux.ddsrt_thread_getname_anythread linux_build Linux.one_thread_procfs
      43 [1; 1; 1; 1] 4
    = (DDS_RETCODE_NOT_FOUND, [1; 1; 1; 1])
  ∧ QNX.ddsrt_thread_getname_anythread qnx_build 1012 QNX.three_threads
      QNX.answer_for_next_thread 9 [1; 1; 1; 1] 4
    = (DDS_RETCODE_NOT_FOUND, Some [1; 1; 1; 1]).
Proof.
  destruct (getname_of_missing_thread_is_not_found linux_build)
    as (Hlinux & _); [simpl; lia|].
  destruct (getname_of_missing_thread_is_not_found qnx_build)
    as (_ & Hqnx & _); [simpl; lia|].
  split.
  - apply Hlinux. vm_compute. reflexivity.
  - apply Hqnx; [simpl; lia | simpl; lia |].
    right. split_and!; [lia | reflexivity | discriminate].
Defined.

(** C2 (the defect): the QNX back end stops counting at the capacity.  In
    a process with three threads a call with capacity 0 returns ERROR and
    a call with capacity 2 returns 2. *)
Theorem qnx_thread_list_stops_at_capacity :
  QNX.num_threads QNX.three_threads = 3
  ∧ QNX.ddsrt_thread_list qnx_build QNX.three_threads [] 0
    = (DDS_RETCODE_ERROR, [])
  ∧ QNX.ddsrt_thread_list qnx_build QNX.three_threads [0; 0] 2
    = (2, [1; 2]).
Proof. split_and!; vm_compute; reflexivity. Qed.

(** The Linux loop counts every entry that is a thread, whatever the
    capacity. *)
Lemma linux_readdir_loop_count b size entries : ∀ tids n,
  Forall (λ d, is_Some (Linux.entry_tid d)) (Linux.task_entries entries) →
  (Linux.readdir_loop b size entries tids n).2
  = n + Z.of_nat (length (Linux.task_entries entries)).
Proof.
  unfold Linux.task_entries.
  induction entries as [|d rest IH]; intros tids n Hwf; simpl; [lia|].
  rewrite filter_cons in Hwf. unfold Linux.task_entries in *.
  rewrite filter_cons.
  destruct (decide (Linux.is_dot_entry d = false)) as [Hd|Hd].
  - rewrite Hd. apply Forall_cons in Hwf as [[tid Htid] Hwf].
    unfold Linux.entry_tid in Htid.
    destruct (sscanf_ld_n d) as [[tid' pos]|]; [|done].
    destruct (char_at d pos =? 0); [|done]. simpl.
    rewrite IH by done. simpl. lia.
  - apply not_false_is_true in Hd. rewrite Hd. by apply IH.
Qed.

(** Linux keeps what C2 says: with at least one thread the result is the
    number of threads, also when the capacity is smaller, 0 included. *)
Lemma linux_thread_list_returns_total b entries tids size :
  Forall (λ d, is_Some (Linux.entry_tid d)) (Linux.task_entries entries) →
  Linux.task_entries entries ≠ [] →
  (Linux.ddsrt_thread_list b (Some entries) tids size).1
  = Z.of_nat (length (Linux.task_entries entries)).
Proof.
  intros Hwf Hne. unfold Linux.ddsrt_thread_list.
  pose proof (linux_readdir_loop_count b size entries tids 0 Hwf) as Hn.
  destruct (Linux.readdir_loop b size entries tids 0) as [tids' n]. simpl in *.
  subst n. rewrite Z.add_0_l.
  destruct (Z.of_nat _ =? 0) eqn:E; [|done].
  apply Z.eqb_eq in E. destruct (Linux.task_entries entries); [done|].
  simpl in E. lia.
Qed.

(** So does macOS. *)
Lemma apple_thread_list_returns_total b tasks tids size :
  Z.of_nat (length tasks) < 2 ^ 31 →
  (Apple.ddsrt_thread_list b (Some tasks) tids size).1 = Z.of_nat (length tasks).
Proof.
  intros Hlen. simpl. unfold to_int32.
  rewrite Z.mod_small by lia. lia.
Qed.

(** What the QNX loop returns: the number of threads cut at the
    capacity. *)
Lemma qnx_fill_loop_count b size : ∀ k tids n tid,
  0 ≤ n → size < 2 ^ WORD_BITS b →
  n ≤ size ∨ n < 2 ^ WORD_BITS b →
  (QNX.fill_loop b k size tids n tid).2
  = Z.min (n + Z.of_nat k) (Z.max n size).
Proof.
  induction k as [|k IH]; intros tids n tid Hn Hsize Hor; simpl; [lia|].
  assert (Hmod : to_size_t b n = n).
  { unfold to_size_t. apply Z.mod_small. lia. }
  rewrite Hmod. destruct (n <? size) eqn:Hlt.
  - apply Z.ltb_lt in Hlt. rewrite IH by lia. lia.
  - apply Z.ltb_ge in Hlt. simpl. lia.
Qed.

Lemma qnx_thread_list_returns_min b os tids size :
  0 ≤ size < 2 ^ WORD_BITS b →
  0 ≤ QNX.getpid os < 10 ^ 10 →
  QNX.open_fd os ≠ -1 → QNX.devctl_ret os = 0 → 0 ≤ QNX.num_threads os →
  (QNX.ddsrt_thread_list b os tids size).1
  = if Z.min (QNX.num_threads os) size =? 0 then DDS_RETCODE_ERROR
    else Z.min (QNX.num_threads os) size.
Proof.
  intros Hsize Hpid Hfd Hctl Hn. unfold QNX.ddsrt_thread_list.
  assert (Hlen : 0 ≤ strlen ("/proc/" +:+ format_signed (QNX.getpid os) +:+ "/as") < 32).
  { unfold strlen, format_signed, format_unsigned.
    replace (QNX.getpid os <? 0) with false by lia.
    pose proof (decimal_digits_length
                  (S (Z.to_nat (Z.log2 (QNX.getpid os)))) (QNX.getpid os) 10) as H10.
    set (digits := decimal_digits _ _) in *.
    rewrite !length_append. simpl.
    assert (QNX.getpid os < 10 ^ Z.of_nat 10)
      by (change (10 ^ Z.of_nat 10) with (10 ^ 10); lia).
    lia. }
  replace (strlen _ <? 0) with false by lia.
  replace (32 <=? strlen _) with false by lia. simpl.
  replace (QNX.open_fd os =? -1) with false by lia.
  rewrite Hctl. simpl.
  pose proof (qnx_fill_loop_count b size (Z.to_nat (QNX.num_threads os)) tids 0 1)
    as Hloop.
  destruct (QNX.fill_loop b _ size tids 0 1) as [tids' n]. simpl in *.
  rewrite Hloop by lia.
  replace (Z.min (0 + Z.of_nat (Z.to_nat (QNX.num_threads os))) (Z.max 0 size))
    with (Z.min (QNX.num_threads os) size) by lia.
  reflexivity.
Qed.

(** *** What the buffers hold *)

Lemma to_size_t_small b n : 0 ≤ n < 2 ^ WORD_BITS b → to_size_t b n = n.
Proof. intros. unfold to_size_t. by apply Z.mod_small. Qed.

(** The buffer [tids] with [xs] written from index [n] on. *)
Lemma place_nil (n : nat) (tids : list Z) :
  take n tids ++ [] ++ drop (n + 0) tids = tids.
Proof. simpl. by rewrite Nat.add_0_r, take_drop. Qed.

Lemma place_cons (tids : list Z) (n : Z) (x : Z) (xs : list Z) :
  0 ≤ n < Z.of_nat (length tids) →
  take (Z.to_nat (n + 1)) (store tids n x) ++ xs
    ++ drop (Z.to_nat (n + 1) + length xs) (store tids n x)
  = take (Z.to_nat n) tids ++ (x :: xs) ++ drop (Z.to_nat n + length (x :: xs)) tids.
Proof.
  intros Hn. unfold store.
  replace (Z.to_nat (n + 1)) with (S (Z.to_nat n)) by lia.
  rewrite (take_S_r _ _ x) by (apply list_lookup_insert_eq; lia).
  rewrite take_insert_ge by lia.
  rewrite drop_insert_lt by lia.
  rewrite <- app_assoc. simpl. by rewrite Nat.add_succ_r.
Qed.

Lemma linux_loop_full b size entries : ∀ tids n,
  0 ≤ size ≤ n → n + Z.of_nat (length entries) < 2 ^ WORD_BITS b →
  (Linux.readdir_loop b size entries tids n).1 = tids.
Proof.
  induction entries as [|d rest IH]; intros tids n Hn Hw; simpl; [done|].
  simpl in Hw. destruct (Linux.is_dot_entry d); [apply IH; lia|].
  destruct (sscanf_ld_n d) as [[tid pos]|]; [|done].
  destruct (char_at d pos =? 0); simpl; [|done].
  rewrite to_size_t_small by lia.
  replace (n <? size) with false by lia. apply IH; lia.
Qed.

Lemma linux_loop_buffer b size entries : ∀ tids n,
  Forall (λ d, is_Some (Linux.entry_tid d)) (Linux.task_entries entries) →
  0 ≤ n ≤ size → size ≤ Z.of_nat (length tids) →
  n + Z.of_nat (length entries) < 2 ^ WORD_BITS b →
  (Linux.readdir_loop b size entries tids n).1
  = take (Z.to_nat n) tids
      ++ take (Z.to_nat (size - n)) (Linux.listed_tids entries)
      ++ drop (Z.to_nat n
               + length (take (Z.to_nat (size - n)) (Linux.listed_tids entries)))
           tids.
Proof.
  unfold Linux.listed_tids, Linux.task_entries.
  induction entries as [|d rest IH]; intros tids n Hwf Hn Hlen Hw.
  - simpl. rewrite take_nil. by rewrite place_nil.
  - simpl in Hw. rewrite filter_cons in Hwf |- *. simpl.
    destruct (decide (Linux.is_dot_entry d = false)) as [Hd|Hd].
    + rewrite Hd. apply Forall_cons in Hwf as [[tid Htid] Hwf].
      simpl. rewrite Htid. unfold Linux.entry_tid in Htid.
      destruct (sscanf_ld_n d) as [[tid' pos]|]; [|done].
      destruct (char_at d pos =? 0); [|done]. injection Htid as ->. simpl.
      rewrite to_size_t_small by lia.
      destruct (n <? size) eqn:Hlt.
      * apply Z.ltb_lt in Hlt. rewrite IH; [|done | lia | |lia].
        2:{ unfold store. rewrite length_insert. lia. }
        replace (Z.to_nat (size - n)) with (S (Z.to_nat (size - (n + 1)))) by lia.
        rewrite firstn_cons. apply place_cons. lia.
      * apply Z.ltb_ge in Hlt. assert (n = size) as -> by lia.
        rewrite Z.sub_diag. simpl. rewrite place_nil.
        apply linux_loop_full; lia.
    + apply not_false_is_true in Hd. rewrite Hd. apply IH; try done. lia.
Qed.

Lemma listed_tids_length entries :
  Forall (λ d, is_Some (Linux.entry_tid d)) (Linux.task_entries entries) →
  length (Linux.listed_tids entries) = length (Linux.task_entries entries).
Proof.
  unfold Linux.listed_tids. induction 1 as [|d l [tid Htid] _ IH]; [done|].
  simpl. rewrite Htid. simpl. f_equal. exact IH.
Qed.

(** X20: the Linux [ddsrt_thread_list], on a listing of fewer than 2^31
    entries whose entries other than [.] and [..] are all decimal numbers
    that fit a [long], and that names at least one thread, returns the
    number of threads listed, whatever the capacity, and writes the first
    [size] of their identifiers, in the order of the listing, at the
    start of the buffer; the rest of the buffer is left as it was. *)
Theorem linux_thread_list_writes_first_ids b entries tids size :
  32 ≤ WORD_BITS b →
  Forall (λ d, is_Some (Linux.entry_tid d)) (Linux.task_entries entries) →
  Forall (λ tid, - 2 ^ (WORD_BITS b - 1) ≤ tid < 2 ^ (WORD_BITS b - 1))
    (Linux.listed_tids entries) →
  Linux.listed_tids entries ≠ [] →
  0 ≤ size ≤ Z.of_nat (length tids) →
  Z.of_nat (length entries) < 2 ^ 31 →
  Linux.ddsrt_thread_list b (Some entries) tids size
  = (Z.of_nat (length (Linux.listed_tids entries)),
     written_prefix (Linux.listed_tids entries) tids size).
Proof.
  intros Hbits Hwf Hlong Hne Hsize Hw31.
  assert (Hw : Z.of_nat (length entries) < 2 ^ WORD_BITS b).
  { assert (2 ^ 31 ≤ 2 ^ WORD_BITS b) by (apply Z.pow_le_mono_r; lia). lia. }
  unfold Linux.ddsrt_thread_list, written_prefix.
  pose proof (linux_loop_buffer b size entries tids 0 Hwf) as Hbuf.
  pose proof (linux_readdir_loop_count b size entries tids 0 Hwf) as Hcount.
  destruct (Linux.readdir_loop b size entries tids 0) as [tids' n]. simpl in *.
  rewrite Hbuf by lia. subst n. rewrite Z.sub_0_r, Z.add_0_l.
  rewrite <- listed_tids_length by done.
  destruct (Z.of_nat _ =? 0) eqn:E; [|done].
  apply Z.eqb_eq in E. destruct (Linux.listed_tids entries); [done | simpl in E; lia].
Qed.

Lemma linux_thread_list_writes_first_ids_witness :
  Linux.ddsrt_thread_list linux_build (Some Linux.three_tasks) [0; 0; 9] 2
  = (3, [42; 43; 9]).
Proof.
  apply (linux_thread_list_writes_first_ids linux_build Linux.three_tasks
           [0; 0; 9] 2).
  - simpl. lia.
  - repeat constructor; by eexists.
  - repeat constructor; simpl; lia.
  - discriminate.
  - simpl. lia.
  - simpl. lia.
Defined.






Lemma apple_loop_buffer b size tasks : ∀ tids i,
  0 ≤ i ≤ size → size ≤ Z.of_nat (length tids) → size < 2 ^ WORD_BITS b →
  Apple.copy_loop b size tasks tids i
  = take (Z.to_nat i) tids
      ++ take (Z.to_nat (size - i)) tasks
      ++ drop (Z.to_nat i + length (take (Z.to_nat (size - i)) tasks)) tids.
Proof.
  induction tasks as [|t rest IH]; intros tids i Hi Hlen Hw.
  - simpl. rewrite take_nil. by rewrite place_nil.
  - simpl. rewrite to_size_t_small by lia.
    destruct (i <? size) eqn:Hlt.
    + apply Z.ltb_lt in Hlt. rewrite IH; [|lia | |done].
      2:{ unfold store. rewrite length_insert. lia. }
      replace (Z.to_nat (size - i)) with (S (Z.to_nat (size - (i + 1)))) by lia.
      rewrite firstn_cons. apply place_cons. lia.
    + apply Z.ltb_ge in Hlt. assert (i = size) as -> by lia.
      rewrite Z.sub_diag. simpl. by rewrite place_nil.
Qed.

(** X23: the macOS [ddsrt_thread_list], when [task_threads] succeeds,
    returns the number of thread ports, whatever the capacity, and copies
    the first [size] of them to the start of the buffer, leaving the rest
    as it was. *)
Theorem apple_thread_list_copies_first_ports b tasks tids size :
  0 ≤ size ≤ Z.of_nat (length tids) → size < 2 ^ WORD_BITS b →
  Z.of_nat (length tasks) < 2 ^ 31 →
  Apple.ddsrt_thread_list b (Some tasks) tids size
  = (Z.of_nat (length tasks), written_prefix tasks tids size).
Proof.
  intros Hsize Hw Hlen. unfold Apple.ddsrt_thread_list, written_prefix.
  rewrite apple_loop_buffer by lia. rewrite Z.sub_0_r. simpl.
  f_equal. unfold to_int32. rewrite Z.mod_small by lia. lia.
Qed.

Lemma apple_thread_list_copies_first_ports_witness :
  Apple.ddsrt_thread_list macos_build (Some [771; 1283; 1795]) [0; 0; 9] 2
  = (3, [771; 1283; 9]).
Proof.
  apply (apple_thread_list_copies_first_ports macos_build [771; 1283; 1795]
           [0; 0; 9] 2); simpl; lia.
Defined.

Lemma skip_to_bracket_app pre rest :
  Forall (λ c, c ≠ 40) pre → Linux.skip_to_bracket (pre ++ 40 :: rest) = rest.
Proof.
  induction 1 as [|c pre Hc _ IH]; simpl; [done|].
  by rewrite (proj2 (Z.eqb_neq _ _) Hc).
Qed.

Lemma read_name_full size content : ∀ name_ namelen namepos,
  size ≤ namepos + 1 → (Linux.read_name size content name_ namelen namepos).1 = name_.
Proof.
  induction content as [|c rest IH]; intros name_ namelen namepos Hfull; simpl; [done|].
  replace (namepos + 1 <? size) with false by lia. by apply IH.
Qed.

Lemma read_name_buffer size content : ∀ name_ namelen namepos,
  0 ≤ namepos → namepos + 1 ≤ size → size ≤ Z.of_nat (length name_) →
  (Linux.read_name size content name_ namelen namepos).1
  = take (Z.to_nat namepos) name_
      ++ take (Z.to_nat (size - 1 - namepos)) content
      ++ drop (Z.to_nat namepos
               + length (take (Z.to_nat (size - 1 - namepos)) content)) name_.
Proof.
  induction content as [|c rest IH]; intros name_ namelen namepos Hpos Hcap Hlen.
  - simpl. rewrite take_nil. by rewrite place_nil.
  - simpl. destruct (namepos + 1 <? size) eqn:Hlt.
    + apply Z.ltb_lt in Hlt. rewrite IH; [|lia | lia |].
      2:{ unfold store. rewrite length_insert. lia. }
      replace (Z.to_nat (size - 1 - namepos))
        with (S (Z.to_nat (size - 1 - (namepos + 1)))) by lia.
      rewrite firstn_cons. apply place_cons. lia.
    + apply Z.ltb_ge in Hlt. assert (size - 1 - namepos = 0) as -> by lia.
      simpl. rewrite place_nil. apply read_name_full. lia.
Qed.

Lemma read_name_no_close size content : ∀ name_ namelen namepos,
  Forall (λ c, c ≠ 41) content →
  (Linux.read_name size content name_ namelen namepos).2 = namelen.
Proof.
  induction content as [|c rest IH]; intros name_ namelen namepos Hall; simpl; [done|].
  apply Forall_cons in Hall as [Hc Hall].
  rewrite (proj2 (Z.eqb_neq _ _) Hc).
  destruct (namepos + 1 <? size); by apply IH.
Qed.

Lemma read_name_last_close size nm post : ∀ name_ namelen namepos,
  0 ≤ namepos ≤ size - 1 → Forall (λ c, c ≠ 41) post →
  (Linux.read_name size (nm ++ 41 :: post) name_ namelen namepos).2
  = Z.min (namepos + Z.of_nat (length nm)) (size - 1).
Proof.
  induction nm as [|c nm IH]; intros name_ namelen namepos Hpos Hpost.
  - simpl. destruct (namepos + 1 <? size); rewrite read_name_no_close by done; lia.
  - change ((c :: nm) ++ 41 :: post) with (c :: (nm ++ 41 :: post)).
    simpl Linux.read_name. destruct (namepos + 1 <? size) eqn:Hlt.
    + apply Z.ltb_lt in Hlt. rewrite IH by (done || lia). simpl length. lia.
    + apply Z.ltb_ge in Hlt. rewrite IH by (done || lia). simpl length. lia.
Qed.

Lemma linux_getname_opened b fopen tid name_ size content :
  0 ≤ WORD_BITS b ≤ 64 →
  fopen (Linux.task_stat_path b tid) = Some content →
  Linux.ddsrt_thread_getname_anythread b fopen tid name_ size
  = (DDS_RETCODE_OK,
     let r := Linux.read_name size (Linux.skip_to_bracket content) name_ 0 0 in
     if 0 <? size then store r.1 r.2 0 else r.1).
Proof.
  intros Hw Hopen. unfold Linux.ddsrt_thread_getname_anythread.
  pose proof (task_stat_path_length b tid Hw) as Hlen.
  replace (strlen (Linux.task_stat_path b tid) <? 0) with false by lia.
  replace (100 <=? strlen (Linux.task_stat_path b tid)) with false by lia.
  simpl. rewrite Hopen. by destruct (Linux.read_name _ _ _ _ _).
Qed.

(** X24: the Linux [ddsrt_thread_getname_anythread], for a [stat] file
    that holds a name between its first opening and its last closing
    bracket, answers OK with that name in the buffer, cut to [size - 1]
    bytes and followed by a terminator; brackets inside the name are part
    of it.  The buffer keeps its length and nothing at or beyond [size]
    is written. *)
Theorem linux_getname_extracts_name b fopen tid name_ size pre nm post :
  0 ≤ WORD_BITS b ≤ 64 →
  0 < size ≤ Z.of_nat (length name_) →
  fopen (Linux.task_stat_path b tid) = Some (pre ++ 40 :: nm ++ 41 :: post) →
  Forall (λ c, c ≠ 40) pre → Forall (λ c, c ≠ 41) post →
  ∃ buf,
    Linux.ddsrt_thread_getname_anythread b fopen tid name_ size
      = (DDS_RETCODE_OK, buf) ∧
    let k := Z.to_nat (Z.min (Z.of_nat (length nm)) (size - 1)) in
    take k buf = take k nm ∧ buf !! k = Some 0 ∧
    length buf = length name_ ∧
    drop (Z.to_nat size) buf = drop (Z.to_nat size) name_.
Proof.
  intros Hw Hsize Hopen Hpre Hpost.
  rewrite (linux_getname_opened _ _ _ _ _ _ Hw Hopen). eexists. split; [reflexivity|].
  rewrite skip_to_bracket_app by done. cbv zeta.
  replace (0 <? size) with true by lia.
  rewrite read_name_last_close by (done || lia).
  rewrite read_name_buffer by lia.
  rewrite Z.add_0_l, Z.sub_0_r. change (Z.to_nat 0) with 0%nat.
  rewrite take_0, app_nil_l, Nat.add_0_l.
  set (rest := (nm ++ 41 :: post)%list).
  set (m := Z.to_nat (size - 1)).
  set (k := Z.to_nat (Z.min (Z.of_nat (length nm)) (size - 1))).
  assert (Hk : (k ≤ m)%nat) by lia.
  assert (Hknm : (k ≤ length nm)%nat) by lia.
  assert (Hm : (length (take m rest) ≤ m)%nat) by (rewrite length_take; lia).
  assert (Hkrest : (k ≤ length (take m rest))%nat).
  { rewrite length_take. unfold rest. rewrite length_app. lia. }
  assert (Hbuf : length (take m rest ++ drop (length (take m rest)) name_)
                 = length name_).
  { rewrite length_app, length_drop. lia. }
  unfold store. rewrite Z2Nat.inj_min, Nat2Z.id. fold m.
  replace (Nat.min (length nm) m) with k by lia.
  split_and!.
  - rewrite take_insert_ge by lia. rewrite take_app_le by done.
    rewrite take_take. replace (Nat.min k m) with k by lia.
    unfold rest. by rewrite take_app_le.
  - apply list_lookup_insert_eq. lia.
  - by rewrite length_insert.
  - rewrite drop_insert_lt by lia. rewrite drop_app_ge by lia.
    rewrite drop_drop. f_equal. lia.
Qed.

Lemma linux_getname_extracts_name_witness :
  ∃ buf,
    Linux.ddsrt_thread_getname_anythread linux_build Linux.one_thread_procfs
      42 [1; 1; 1; 1; 1] 4
      = (DDS_RETCODE_OK, buf) ∧
    take 2 buf = [97; 98] ∧ buf !! 2%nat = Some 0 ∧
    length buf = 5%nat ∧ drop 4 buf = [1].
Proof.
  apply (linux_getname_extracts_name linux_build Linux.one_thread_procfs 42
           [1; 1; 1; 1; 1] 4 [52; 50; 32] [97; 98] [32; 83]).
  - simpl. lia.
  - simpl. lia.
  - vm_compute. reflexivity.
  - repeat constructor; lia.
  - repeat constructor; lia.
Defined.

(** X25: the Linux [ddsrt_thread_getname_anythread] on a [stat] file it
    can open: with a capacity of 0 it answers OK and writes nothing; with
    room for the terminator and no closing bracket after the first
    opening one (or no opening bracket at all) it answers OK with the
    empty name. *)
Theorem linux_getname_without_name_is_empty b fopen tid name_ size content :
  0 ≤ WORD_BITS b ≤ 64 →
  fopen (Linux.task_stat_path b tid) = Some content →
  (size = 0 →
   Linux.ddsrt_thread_getname_anythread b fopen tid name_ size
     = (DDS_RETCODE_OK, name_)) ∧
  (0 < size ≤ Z.of_nat (length name_) →
   Forall (λ c, c ≠ 41) (Linux.skip_to_bracket content) →
   ∃ buf,
     Linux.ddsrt_thread_getname_anythread b fopen tid name_ size
       = (DDS_RETCODE_OK, buf) ∧
     buf !! 0%nat = Some 0 ∧ length buf = length name_).
Proof.
  intros Hw Hopen. rewrite (linux_getname_opened _ _ _ _ _ _ Hw Hopen). split.
  - intros ->. simpl. by rewrite read_name_full.
  - intros Hsize Hnone. eexists. split; [reflexivity|]. cbv zeta.
    replace (0 <? size) with true by lia.
    rewrite read_name_no_close by done.
    rewrite read_name_buffer by lia.
    unfold store. rewrite Z.sub_0_r. change (Z.to_nat 0) with 0%nat.
    rewrite take_0, app_nil_l, Nat.add_0_l.
    assert (Hbuf : length (take (Z.to_nat (size - 1)) (Linux.skip_to_bracket content)
                           ++ drop (length (take (Z.to_nat (size - 1))
                                              (Linux.skip_to_bracket content))) name_)
                   = length name_).
    { rewrite length_app, length_drop, length_take. lia. }
    split; [apply list_lookup_insert_eq; lia | by rewrite length_insert].
Qed.

Lemma linux_getname_without_name_is_empty_witness :
  Linux.ddsrt_thread_getname_anythread linux_build Linux.one_thread_procfs
    42 [1; 1] 0
  = (DDS_RETCODE_OK, [1; 1]).
Proof.
  apply (linux_getname_without_name_is_empty linux_build Linux.one_thread_procfs
           42 [1; 1] 0 [52; 50; 32; 40; 97; 98; 41; 32; 83]).
  - simpl. lia.
  - vm_compute. reflexivity.
  - reflexivity.
Defined.

End EnumerateFacts.
